(** * NanoClaw router: a shallow embedding of the message router, the
      IPC command bus and the host-change approval machine.

    The development follows the TypeScript sources: the router
    (startMessageLoop, processMessage, runAgent, the IPC watcher and
    processTaskIpc, the e-mail loop, splitDiscordMessage), the host-change
    scanner (checkApprovalMessage, handleApproval) and the e-mail channel
    (sendEmailReply).

    Conventions.
    - A JavaScript string is a [string]; one [ascii] stands for one UTF-16
      code unit below 256.
    - JavaScript objects used as dictionaries are [gmap string _]; objects
      and Maps whose enumeration order is observed (Object.entries().find,
      Map.values()) are association lists in enumeration order.
    - Module-level mutable variables are the fields of one state record per
      component, threaded explicitly.
    - Collaborators that are not part of the router (the agent container,
      the JavaScript built-ins for dates, cron expressions and JSON, the
      plan applier) are parameters gathered in records of oracles. *)

From Stdlib Require Import String Ascii List ZArith Lia Bool OrderedTypeEx.
From stdpp Require Import base option list strings gmap.
Import ListNotations.

Local Open Scope string_scope.
Local Open Scope list_scope.
Local Open Scope Z_scope.

(** * Part I: the embedding *)

(** ** Code units *)

Definition newline : ascii := "010"%char.
Definition space : ascii := " "%char.
Definition dquote : ascii := "034"%char.

(** [optional && ...] on an optional string: undefined and the empty string
    are falsy, every other string is truthy. *)
Definition truthy (o : option string) : bool :=
  match o with
  | Some s => negb (s =? "")%string
  | None => false
  end.

(** ** The Discord chunker (splitDiscordMessage) *)

Module Chunker.

Definition DISCORD_MAX_LENGTH : nat := 1900.

(** [remaining.lastIndexOf(c, from)] for a one-character needle: the greatest
    index [k <= from] with [remaining[k] = c], and [-1] when there is none. *)
Fixpoint lastIndexOf (c : ascii) (s : list ascii) (from : nat) : Z :=
  match s with
  | [] => -1
  | x :: s' =>
      let here := if Ascii.eqb x c then 0 else -1 in
      match from with
      | O => here
      | S from' =>
          let r := lastIndexOf c s' from' in
          if 0 <=? r then r + 1 else here
      end
  end.

(** The three assignments to [splitAt] of one loop iteration. *)
Definition splitPoint (max : nat) (remaining : list ascii) : Z :=
  let splitAt := lastIndexOf newline remaining max in
  let splitAt :=
    if splitAt <=? 0 then lastIndexOf space remaining max else splitAt in
  let splitAt := if splitAt <=? 0 then Z.of_nat max else splitAt in
  splitAt.

(** [s.replace(/^\n/, '')]. *)
Definition dropLeadingNewline (s : list ascii) : list ascii :=
  match s with
  | x :: s' => if Ascii.eqb x newline then s' else s
  | [] => []
  end.

(** The [while (remaining.length > 0)] loop. [fuel] bounds the number of
    iterations; [None] means the bound was reached before the loop ended. *)
Fixpoint splitLoop (max fuel : nat) (remaining : list ascii)
  : option (list (list ascii)) :=
  if (length remaining =? 0)%nat then Some []
  else if (length remaining <=? max)%nat then Some [remaining]
  else
    match fuel with
    | O => None
    | S fuel' =>
        let splitAt := Z.to_nat (splitPoint max remaining) in
        match
          splitLoop max fuel' (dropLeadingNewline (skipn splitAt remaining))
        with
        | Some chunks => Some (firstn splitAt remaining :: chunks)
        | None => None
        end
    end.

Definition splitMessage (max : nat) (text : list ascii)
  : option (list (list ascii)) :=
  if (length text <=? max)%nat then Some [text]
  else splitLoop max (length text) text.

Definition splitDiscordMessage (text : string) : option (list string) :=
  option_map (map string_of_list_ascii)
    (splitMessage DISCORD_MAX_LENGTH (list_ascii_of_string text)).

(** What the chunker is meant to do, one loop iteration per constructor:
    [k] is the index the chunk ends at. *)
Definition noneIn (c : ascii) (s : list ascii) (lo hi : nat) : Prop :=
  forall j, (lo <= j <= hi)%nat -> nth_error s j <> Some c.

Definition lastIn (c : ascii) (s : list ascii) (max k : nat) : Prop :=
  (1 <= k <= max)%nat /\ nth_error s k = Some c /\ noneIn c s (S k) max.

(** The three ways an iteration chooses the index [k] it cuts at. *)
Inductive splitCase (max : nat) (r : list ascii) (k : nat) : Prop :=
| case_newline : lastIn newline r max k -> splitCase max r k
| case_space : noneIn newline r 1 max -> lastIn space r max k -> splitCase max r k
| case_hard : noneIn newline r 1 max -> noneIn space r 1 max -> k = max ->
              splitCase max r k.

Inductive chunked (max : nat) : list ascii -> list (list ascii) -> Prop :=
| chunked_done : chunked max [] []
| chunked_last r :
    (0 < length r <= max)%nat -> chunked max r [r]
| chunked_newline r k chunks :
    (max < length r)%nat ->
    lastIn newline r max k ->
    chunked max (skipn (S k) r) chunks ->
    chunked max r (firstn k r :: chunks)
| chunked_space r k chunks :
    (max < length r)%nat ->
    noneIn newline r 1 max ->
    lastIn space r max k ->
    chunked max (skipn k r) chunks ->
    chunked max r (firstn k r :: chunks)
| chunked_hard r chunks :
    (max < length r)%nat ->
    noneIn newline r 1 max ->
    noneIn space r 1 max ->
    chunked max (skipn max r) chunks ->
    chunked max r (firstn max r :: chunks).

(** Concatenation restores the text once at most one newline is put back
    after each chunk. *)
Inductive restores : list (list ascii) -> list ascii -> Prop :=
| restores_nil : restores [] []
| restores_cons c sep chunks t :
    sep = [] \/ sep = [newline] ->
    restores chunks t ->
    restores (c :: chunks) (c ++ sep ++ t).

End Chunker.

(** ** Regular expressions

    The fragment of ECMAScript regular expressions the router uses, as
    syntax trees run by a backtracking matcher: alternatives are tried left
    to right, [Star] is greedy, [LazyStar] is not, both reject an iteration
    that consumes nothing, a capture records the span of its latest match. *)

Module RegExp.

Definition code (c : ascii) : nat := nat_of_ascii c.

(** WhiteSpace and LineTerminator code units below 256: the class [\s] and
    what [String.prototype.trim] strips. *)
Definition isWhiteSpace (c : ascii) : bool :=
  let n := code c in
  ((9 <=? n) && (n <=? 13) || (n =? 32) || (n =? 160))%nat.

Definition isDigit (c : ascii) : bool :=
  let n := code c in ((48 <=? n) && (n <=? 57))%nat.

(** The class of [.]: every code unit but the line terminators. *)
Definition isNotLineTerminator (c : ascii) : bool :=
  let n := code c in negb ((n =? 10) || (n =? 13))%nat.

Definition isUpper (c : ascii) : bool :=
  let n := code c in ((65 <=? n) && (n <=? 90))%nat.

Definition isLower (c : ascii) : bool :=
  let n := code c in ((97 <=? n) && (n <=? 122))%nat.

(** The class [\w]: [A-Za-z0-9_]. *)
Definition isWordChar (c : ascii) : bool :=
  isUpper c || isLower c || isDigit c || (code c =? 95)%nat.

(** Canonicalize for the [i] flag without [u]: the upper-case mapping when
    it is a single code unit and does not fold a non-ASCII unit into ASCII.
    Below 256 that is a-z and the Latin-1 letters U+00E0..U+00FE (not
    U+00F7); U+00B5 and U+00FF fold to units above 255 that no other unit
    below 256 folds to, so they are left as they are. *)
Definition canonicalize (c : ascii) : ascii :=
  let n := code c in
  if (isLower c || (224 <=? n) && (n <=? 254) && negb (n =? 247))%nat
  then ascii_of_nat (n - 32) else c.

(** [String.prototype.toLowerCase] on code units below 256. *)
Definition toLowerCaseUnit (c : ascii) : ascii :=
  let n := code c in
  if (isUpper c || (192 <=? n) && (n <=? 222) && negb (n =? 215))%nat
  then ascii_of_nat (n + 32) else c.

Fixpoint toLowerCase (s : string) : string :=
  match s with
  | EmptyString => EmptyString
  | String c s' => String (toLowerCaseUnit c) (toLowerCase s')
  end.

Inductive re : Type :=
| Empty
| Char (c : ascii)
| Class (p : ascii -> bool)
| AssertStart
| AssertEnd
| WordBoundary
| Seq (r1 r2 : re)
| Alt (r1 r2 : re)
| Star (r : re)
| LazyStar (r : re)
| Group (n : nat) (r : re).

Definition Plus (r : re) : re := Seq r (Star r).
Definition Opt (r : re) : re := Alt r Empty.

(** A run of pattern characters. *)
Fixpoint literal (cs : list ascii) : re :=
  match cs with
  | [] => Empty
  | c :: cs' => Seq (Char c) (literal cs')
  end.

Definition lit (s : string) : re := literal (list_ascii_of_string s).

(** Capture number, start index, end index; the latest first. *)
Definition captures : Type := list (nat * (nat * nat)).
Definition matchState : Type := (nat * captures)%type.
Definition continuation : Type := nat -> captures -> option matchState.

Section Matcher.
Variable ignoreCase : bool.
Variable input : list ascii.

Definition charEq (a b : ascii) : bool :=
  if ignoreCase then Ascii.eqb (canonicalize a) (canonicalize b)
  else Ascii.eqb a b.

Definition wordAt (i : nat) : bool :=
  match nth_error input i with
  | Some c => isWordChar c
  | None => false
  end.

Definition isWordBoundary (i : nat) : bool :=
  xorb (match i with O => false | S j => wordAt j end) (wordAt i).

Fixpoint run (r : re) (i : nat) (cs : captures) (k : continuation)
  : option matchState :=
  match r with
  | Empty => k i cs
  | Char c =>
      match nth_error input i with
      | Some x => if charEq x c then k (S i) cs else None
      | None => None
      end
  | Class p =>
      match nth_error input i with
      | Some x => if p x then k (S i) cs else None
      | None => None
      end
  | AssertStart => if (i =? 0)%nat then k i cs else None
  | AssertEnd => if (i =? length input)%nat then k i cs else None
  | WordBoundary => if isWordBoundary i then k i cs else None
  | Seq r1 r2 => run r1 i cs (fun j cs' => run r2 j cs' k)
  | Alt r1 r2 =>
      match run r1 i cs k with
      | Some res => Some res
      | None => run r2 i cs k
      end
  | Star r1 =>
      (fix loop (fuel i : nat) (cs : captures) : option matchState :=
         match fuel with
         | O => k i cs
         | S fuel' =>
             match
               run r1 i cs
                 (fun j cs' => if (i <? j)%nat then loop fuel' j cs' else None)
             with
             | Some res => Some res
             | None => k i cs
             end
         end) (S (length input)) i cs
  | LazyStar r1 =>
      (fix loop (fuel i : nat) (cs : captures) : option matchState :=
         match k i cs with
         | Some res => Some res
         | None =>
             match fuel with
             | O => None
             | S fuel' =>
                 run r1 i cs
                   (fun j cs' => if (i <? j)%nat then loop fuel' j cs' else None)
             end
         end) (S (length input)) i cs
  | Group n r1 => run r1 i cs (fun j cs' => k j ((n, (i, j)) :: cs'))
  end.

Definition matchAt (r : re) (i : nat) : option matchState :=
  run r i [] (fun j cs => Some (j, cs)).

(** The start positions [i, i+1, ..] are tried in turn (no sticky flag). *)
Fixpoint searchFrom (r : re) (i fuel : nat) : option matchState :=
  match matchAt r i with
  | Some res => Some res
  | None =>
      match fuel with
      | O => None
      | S fuel' => searchFrom r (S i) fuel'
      end
  end.

End Matcher.

(** [s.match(r)] for a regular expression without the [g] flag: the
    captures of the first match, or [None] for [null]. *)
Definition exec (ignoreCase : bool) (r : re) (s : string) : option captures :=
  let input := list_ascii_of_string s in
  option_map snd (searchFrom ignoreCase input r 0 (length input)).

(** [match[n]]: the text of capture [n], [None] for [undefined]. *)
Definition group (s : string) (cs : captures) (n : nat) : option string :=
  match find (fun c => (fst c =? n)%nat) cs with
  | Some (_, (a, b)) => Some (substring a (b - a) s)
  | None => None
  end.

(** [s.trim()]. *)
Fixpoint trimStart (s : list ascii) : list ascii :=
  match s with
  | c :: s' => if isWhiteSpace c then trimStart s' else s
  | [] => []
  end.

Definition trim (s : string) : string :=
  string_of_list_ascii
    (rev (trimStart (rev (trimStart (list_ascii_of_string s))))).

End RegExp.

(** ** The trigger check *)

Module Trigger.
Import RegExp.

(** SyntaxCharacter of the pattern grammar. *)
Definition isSyntaxCharacter (c : ascii) : bool :=
  existsb (Ascii.eqb c) (list_ascii_of_string "^$\.*+?()[]{}|").

Definition isLiteralPattern (s : string) : bool :=
  forallb (fun c => negb (isSyntaxCharacter c)) (list_ascii_of_string s).

(** [new RegExp(`^${trigger}\\b`, 'i')] for a trigger of pattern characters
    only. *)
Definition triggerPattern (trigger : string) : re :=
  Seq AssertStart (Seq (lit trigger) WordBoundary).

Section WithEngine.
(** The host engine on a pattern source outside that fragment, by source and
    subject; [None] when the constructor throws a SyntaxError. *)
Variable hostRegExp : string -> string -> option bool.

(** [content.match(new RegExp(`^${trigger}\\b`, 'i'))] as a truth value. *)
Definition matchesTrigger (trigger content : string) : option bool :=
  if isLiteralPattern trigger
  then Some (bool_decide (is_Some (exec true (triggerPattern trigger) content)))
  else hostRegExp ("^" ++ trigger ++ "\b")%string content.

(** [!(group.trigger && !content.match(...))]: [Some true] when the message
    goes on to the agent, [Some false] when the handler returns early,
    [None] when building the pattern throws. *)
Definition passesTrigger (trigger : option string) (content : string)
  : option bool :=
  match trigger with
  | Some t => if truthy (Some t) then matchesTrigger t content else Some true
  | None => Some true
  end.

End WithEngine.

(** The check in the specification's words: the content starts with the
    trigger, letter case ignored, and the trigger ends at a word boundary of
    the content. *)
Fixpoint prefixIgnoringCase (t s : list ascii) : bool :=
  match t, s with
  | [], _ => true
  | c :: t', x :: s' => charEq true x c && prefixIgnoringCase t' s'
  | _ :: _, [] => false
  end.

Definition wordBoundaryPrefix (trigger content : string) : bool :=
  let t := list_ascii_of_string trigger in
  let s := list_ascii_of_string content in
  prefixIgnoringCase t s && isWordBoundary s (length t).

End Trigger.

(** ** Observable effects

    Calls that leave the process (log lines, channel sends, agent runs,
    e-mail replies) are recorded, oldest first, in the trace of the
    component's state. *)

Record ContainerInput : Type := mkContainerInput {
  in_prompt : string;
  in_sessionId : option string;
  in_groupFolder : string;
  in_chatJid : string;
  in_isMain : bool
}.

Inductive Event : Type :=
| LogDebug (msg : string)
| LogInfo (msg : string)
| LogWarn (msg : string)
| LogError (msg : string)
| Sent (jid text : string)
| Typing (jid : string) (isTyping : bool)
| AgentRun (input : ContainerInput)
| EmailSend (inReplyTo to subject body : string) (delivered : bool)
| PlanRenamed (filePath kind : string).

(** ** Host-change approvals (checkApprovalMessage, handleApproval) *)

Module Approval.
Import RegExp.

Inductive Status : Type := pending | approved | denied | applied | failed.

Definition Status_eqb (a b : Status) : bool :=
  match a, b with
  | pending, pending | approved, approved | denied, denied
  | applied, applied | failed, failed => true
  | _, _ => false
  end.

Record HostModificationRequest : Type := mkRequest {
  id : string;
  groupFolder : string;
  chatJid : string;
  summary : string;
  filePath : string;
  timestamp : string;
  status : Status;
  approvedBy : option string;
  error : option string
}.

(** [pendingRequests]: a Map keyed by request id, in insertion order. Every
    entry is stored under its own [id], so the map is the list of its
    values and a lookup searches by [id]. *)
Definition Requests : Type := list HostModificationRequest.

Definition get (requestId : string) (reqs : Requests)
  : option HostModificationRequest :=
  find (fun r => (id r =? requestId)%string) reqs.

(** Assignment to fields of the request object held by the map: the first
    entry with that id is replaced. *)
Fixpoint update (requestId : string)
    (f : HostModificationRequest -> HostModificationRequest)
    (reqs : Requests) : Requests :=
  match reqs with
  | [] => []
  | r :: rest =>
      if (id r =? requestId)%string then f r :: rest
      else r :: update requestId f rest
  end.

Definition setStatus (s : Status) (r : HostModificationRequest) :=
  mkRequest (id r) (groupFolder r) (chatJid r) (summary r) (filePath r)
    (timestamp r) s (approvedBy r) (error r).

Definition setApprovedBy (who : string) (r : HostModificationRequest) :=
  mkRequest (id r) (groupFolder r) (chatJid r) (summary r) (filePath r)
    (timestamp r) (status r) (Some who) (error r).

Definition setError (e : string) (r : HostModificationRequest) :=
  mkRequest (id r) (groupFolder r) (chatJid r) (summary r) (filePath r)
    (timestamp r) (status r) (approvedBy r) (Some e).

(** [/^(approve|deny)(?:\s+(hc-\d+))?\s*$/i] *)
Definition approvalRegExp : re :=
  Seq AssertStart
   (Seq (Group 1 (Alt (lit "approve") (lit "deny")))
    (Seq (Opt (Seq (Plus (Class isWhiteSpace))
                   (Group 2 (Seq (lit "hc-") (Plus (Class isDigit))))))
     (Seq (Star (Class isWhiteSpace)) AssertEnd))).

Record ApprovalCheck : Type := mkCheck {
  isApproval : bool;
  requestId : string;
  isApproved : bool
}.

(** The [for (const req of pendingRequests.values())] loop: [latest] after
    the requests seen so far. *)
Definition laterPending (chat : string)
    (latest : option HostModificationRequest) (req : HostModificationRequest)
  : option HostModificationRequest :=
  if (chatJid req =? chat)%string && Status_eqb (status req) pending then
    match latest with
    | None => Some req
    | Some l => if String.ltb (timestamp l) (timestamp req)
                then Some req else latest
    end
  else latest.

Definition latestPending (chat : string) (reqs : Requests)
  : option HostModificationRequest :=
  fold_left (laterPending chat) reqs None.

Definition checkApprovalMessage (content chat : string) (reqs : Requests)
  : ApprovalCheck :=
  match exec true approvalRegExp content with
  | None => mkCheck false "" false
  | Some m =>
      let approve :=
        match group content m 1 with
        | Some kw => (toLowerCase kw =? "approve")%string
        | None => false
        end in
      if truthy (group content m 2) then
        mkCheck true (default "" (group content m 2)) approve
      else
        match latestPending chat reqs with
        | None => mkCheck false "" false
        | Some latest => mkCheck true (id latest) approve
        end
  end.

(** A pending request of the chat. *)
Definition candidate (chat : string) (r : HostModificationRequest) : Prop :=
  chatJid r = chat /\ status r = pending.

(** [latest] is a pending request of the chat among [seen], and none of them
    has a later timestamp; [None] when there is no such request. *)
Definition latestAmong (chat : string) (seen : Requests)
    (latest : option HostModificationRequest) : Prop :=
  match latest with
  | Some l =>
      In l seen /\ candidate chat l /\
      forall r, In r seen -> candidate chat r ->
                String.ltb (timestamp l) (timestamp r) = false
  | None => forall r, In r seen -> ~ candidate chat r
  end.

(** What applying an approved plan does on the host: reading the plan file
    throws, the external command throws (or times out), the command succeeds
    and the rename to the applied record throws, or everything succeeds. The
    strings are the error message, or the output of the command. *)
Inductive ApplyOutcome : Type :=
| ReadThrows (message : string)
| ExecThrows (message : string)
| RenameThrows (output message : string)
| ApplyOk (output : string).

(** The request map at the suspension inside [handleApproval] (the await of
    the first notice), the map when the call settles, and the effects. *)
Record ApprovalRun : Type := mkRun {
  atNotice : Requests;
  final : Requests;
  effects : list Event
}.

Section WithHost.
(** By the path of the plan file. *)
Variable applyPlan : string -> ApplyOutcome.

Definition quoted (requestId : string) : string :=
  ("`" ++ requestId ++ "`")%string.

Definition handleApproval (reqs : Requests) (requestId : string)
    (approve : bool) (who : string) : ApprovalRun :=
  match get requestId reqs with
  | None => mkRun reqs reqs [LogWarn "Unknown host changes request"]
  | Some request =>
      if negb (Status_eqb (status request) pending) then
        mkRun reqs reqs [LogWarn "Request already processed"]
      else
        let reqs1 := update requestId (setApprovedBy who) reqs in
        if negb approve then
          let reqs2 := update requestId (setStatus denied) reqs1 in
          mkRun reqs2 reqs2
            [PlanRenamed (filePath request) "DENIED";
             Sent (chatJid request)
               ("Host changes request " ++ quoted requestId ++ " denied.");
             LogInfo "Host changes denied"]
        else
          let reqs2 := update requestId (setStatus approved) reqs1 in
          let notice :=
            Sent (chatJid request)
              ("Host changes request " ++ quoted requestId
               ++ " approved. Applying...") in
          let failedWith (reqs : Requests) (message : string) :=
            mkRun reqs2
              (update requestId (setError message)
                 (update requestId (setStatus failed) reqs))
              [notice;
               Sent (chatJid request)
                 ("Host changes " ++ quoted requestId ++ " failed to apply: "
                  ++ substring 0 300 message);
               LogError "Failed to apply host changes"] in
          match applyPlan (filePath request) with
          | ReadThrows message => failedWith reqs2 message
          | ExecThrows message => failedWith reqs2 message
          | RenameThrows _ message =>
              failedWith (update requestId (setStatus applied) reqs2) message
          | ApplyOk output =>
              mkRun reqs2 (update requestId (setStatus applied) reqs2)
                [notice;
                 PlanRenamed (filePath request) "APPLIED";
                 Sent (chatJid request)
                   ("Host changes " ++ quoted requestId
                    ++ " applied successfully." ++ String newline
                         (String newline (substring 0 500 output)));
                 LogInfo "Host changes applied"]
          end
  end.

End WithHost.

(** The transitions the approval machine allows. *)
Inductive transition : Status -> Status -> Prop :=
| pending_approved : transition pending approved
| pending_denied : transition pending denied
| approved_applied : transition approved applied
| approved_failed : transition approved failed.

Definition stays_or_steps (a b : Status) : Prop := a = b \/ transition a b.

(** Entry by entry, the same request with a status that stayed or moved
    along one transition. *)
Definition stepwise (before after : Requests) : Prop :=
  Forall2 (fun r r' => id r' = id r /\ stays_or_steps (status r) (status r'))
    before after.

(** Entry by entry, a request that was not pending is unchanged. *)
Definition settledKept (before after : Requests) : Prop :=
  Forall2 (fun r r' => id r' = id r /\ (status r <> pending -> r' = r))
    before after.

(** A sequence of calls of [handleApproval]: request id, decision, who. *)
Definition handleAll (applyPlan : string -> ApplyOutcome)
    (calls : list (string * bool * string)) (reqs : Requests) : Requests :=
  fold_left
    (fun reqs c => final (handleApproval applyPlan reqs (fst (fst c))
                            (snd (fst c)) (snd c)))
    calls reqs.

End Approval.

(** ** The message router (processMessage, runAgent, startMessageLoop, the
       Discord message handler) *)

Module Router.
Import RegExp.

(** Modelled from the spec: the type declarations of the router's records
    (types.ts is not among the sources). A RegisteredGroup is
    { name, folder, trigger (optional string), addedAt, containerConfig
    (optional) }; the container configuration is passed through unread. *)
Record RegisteredGroup : Type := mkGroup {
  name : string;
  folder : string;
  trigger : option string;
  added_at : string;
  containerConfig : option string
}.

(** Modelled from the spec: an inbound message is { chat identity, sender
    name, body, ISO-8601 timestamp }; the router also reads its [id]. *)
Record NewMessage : Type := mkMessage {
  msg_id : string;
  chat_jid : string;
  sender_name : string;
  content : string;
  timestamp : string
}.

Inductive AgentStatus : Type := success | failure.

(** The object [runContainerAgent] resolves to; [failure] is the status
    ['error']. *)
Record ContainerOutput : Type := mkOutput {
  out_status : AgentStatus;
  out_result : option string;
  out_newSessionId : option string;
  out_error : option string
}.

(** The collaborators of the router. *)
Record Host : Type := mkHost {
  (** config.ts *)
  MAIN_GROUP_FOLDER : string;
  ASSISTANT_NAME : string;
  (** the batch bound of getNewMessages *)
  batchLimit : nat;
  (** the [n]-th call of runContainerAgent on an input; [None] when the
      promise rejects *)
  runContainerAgent : nat -> ContainerInput -> option ContainerOutput;
  (** the engine on trigger patterns with syntax characters *)
  hostRegExp : string -> string -> option bool;
  (** applying an approved plan *)
  applyPlan : string -> Approval.ApplyOutcome
}.

Record State : Type := mkState {
  lastTimestamp : string;
  sessions : gmap string string;
  registeredGroups : list (string * RegisteredGroup);
  lastAgentTimestamp : gmap string string;
  pendingRequests : Approval.Requests;
  storedMessages : list NewMessage;
  trace : list Event
}.

Definition set_lastTimestamp (v : string) (w : State) : State :=
  mkState v (sessions w) (registeredGroups w) (lastAgentTimestamp w)
    (pendingRequests w) (storedMessages w) (trace w).
Definition set_sessions (v : gmap string string) (w : State) : State :=
  mkState (lastTimestamp w) v (registeredGroups w) (lastAgentTimestamp w)
    (pendingRequests w) (storedMessages w) (trace w).
Definition set_registeredGroups (v : list (string * RegisteredGroup))
    (w : State) : State :=
  mkState (lastTimestamp w) (sessions w) v (lastAgentTimestamp w)
    (pendingRequests w) (storedMessages w) (trace w).
Definition set_lastAgentTimestamp (v : gmap string string) (w : State)
  : State :=
  mkState (lastTimestamp w) (sessions w) (registeredGroups w) v
    (pendingRequests w) (storedMessages w) (trace w).
Definition set_pendingRequests (v : Approval.Requests) (w : State) : State :=
  mkState (lastTimestamp w) (sessions w) (registeredGroups w)
    (lastAgentTimestamp w) v (storedMessages w) (trace w).
Definition set_storedMessages (v : list NewMessage) (w : State) : State :=
  mkState (lastTimestamp w) (sessions w) (registeredGroups w)
    (lastAgentTimestamp w) (pendingRequests w) v (trace w).
Definition emit (es : list Event) (w : State) : State :=
  mkState (lastTimestamp w) (sessions w) (registeredGroups w)
    (lastAgentTimestamp w) (pendingRequests w) (storedMessages w)
    (trace w ++ es).

(** [registeredGroups[jid]], for a chat identity that is a key of the
    object or names no property of Object.prototype. (Under a name such as
    constructor the read gives the inherited object: the message loop asks
    the store for the chats of Object.keys(registeredGroups) only, and the
    IPC watcher compares the folder of what it reads, which an inherited
    object does not have, so it refuses as for [undefined].) *)
Fixpoint lookupGroup (jid : string) (groups : list (string * RegisteredGroup))
  : option RegisteredGroup :=
  match groups with
  | [] => None
  | (k, g) :: rest => if (k =? jid)%string then Some g else lookupGroup jid rest
  end.

(** [registeredGroups[jid] = group]: an existing key keeps its place in the
    enumeration order, a new key goes last. *)
Fixpoint assignGroup (jid : string) (g : RegisteredGroup)
    (groups : list (string * RegisteredGroup)) : list (string * RegisteredGroup) :=
  match groups with
  | [] => [(jid, g)]
  | (k, g0) :: rest =>
      if (k =? jid)%string then (k, g) :: rest
      else (k, g0) :: assignGroup jid g rest
  end.

Definition isAgentRun (e : Event) : bool :=
  match e with AgentRun _ => true | _ => false end.

(** The number of agent runs recorded so far. *)
Definition agentRuns (t : list Event) : nat := length (List.filter isAgentRun t).

(** [a > b] on strings: code units compared from the left. *)
Definition laterThan (a b : string) : bool := String.ltb b a.

Fixpoint insertByTimestamp (m : NewMessage) (l : list NewMessage)
  : list NewMessage :=
  match l with
  | [] => [m]
  | x :: l' =>
      if String.ltb (timestamp x) (timestamp m)
      then x :: insertByTimestamp m l'
      else m :: x :: l'
  end.

Definition sortByTimestamp (l : list NewMessage) : list NewMessage :=
  fold_right insertByTimestamp [] l.

(** Modelled from the spec: getNewMessages of the store (db.ts is not among
    the sources) fetches all messages across the registered chat identities
    with timestamp > the global watermark, in ascending order, as a bounded
    batch. The spec gives the third argument (the assistant name) no role. *)
Definition getNewMessages (limit : nat) (table : list NewMessage)
    (jids : list string) (lastTimestamp botPrefix : string)
  : list NewMessage :=
  firstn limit
    (sortByTimestamp
       (List.filter
          (fun m => existsb (String.eqb (chat_jid m)) jids
                    && laterThan (timestamp m) lastTimestamp)
          table)).

(** Modelled from the spec: getMessagesSince of the store gathers all
    messages of one chat identity since a timestamp, in order. *)
Definition getMessagesSince (table : list NewMessage)
    (chatJid sinceTimestamp botPrefix : string) : list NewMessage :=
  sortByTimestamp
    (List.filter
       (fun m => (chat_jid m =? chatJid)%string
                 && laterThan (timestamp m) sinceTimestamp)
       table).

(** [s.replace(/c/g, by)] for a one-character pattern. *)
Fixpoint replaceAll (c : ascii) (by_ : string) (s : string) : string :=
  match s with
  | EmptyString => EmptyString
  | String x s' =>
      if Ascii.eqb x c then (by_ ++ replaceAll c by_ s')%string
      else String x (replaceAll c by_ s')
  end.

Definition escapeXml (s : string) : string :=
  replaceAll dquote "&quot;"
    (replaceAll ">"%char "&gt;"
       (replaceAll "<"%char "&lt;" (replaceAll "&"%char "&amp;" s))).

Definition nl : string := String newline EmptyString.

Definition messageLine (m : NewMessage) : string :=
  ("<message sender=" ++ String dquote (escapeXml (sender_name m))
   ++ String dquote " time=" ++ String dquote (timestamp m)
   ++ String dquote ">" ++ escapeXml (content m) ++ "</message>")%string.

Definition buildPrompt (missed : list NewMessage) : string :=
  ("<messages>" ++ nl ++ String.concat nl (map messageLine missed) ++ nl
   ++ "</messages>")%string.

(** How an async call settles. *)
Inductive Completion : Type := Returned | Thrown.

Section WithHost.
Variable host : Host.

(** [sendMessage]: failures are caught and logged inside, so the call always
    returns; the trace records the request. *)
Definition sendMessage (jid text : string) (w : State) : State :=
  emit [Sent jid text] w.

(** [runAgent]. The task and group snapshots written for the container
    before the call are not part of the state. *)
Definition runAgent (w : State) (group : RegisteredGroup)
    (prompt chatJid : string) : State * option string :=
  let isMain := (folder group =? MAIN_GROUP_FOLDER host)%string in
  let sessionId := sessions w !! folder group in
  let input := mkContainerInput prompt sessionId (folder group) chatJid isMain in
  let w1 := emit [AgentRun input] w in
  match runContainerAgent host (agentRuns (trace w)) input with
  | None => (emit [LogError "Agent error"] w1, None)
  | Some output =>
      let w2 :=
        if truthy (out_newSessionId output)
        then set_sessions
               (<[folder group := default "" (out_newSessionId output)]>
                  (sessions w1)) w1
        else w1 in
      match out_status output with
      | failure => (emit [LogError "Container agent error"] w2, None)
      | success => (w2, out_result output)
      end
  end.

Definition processMessage (w : State) (msg : NewMessage)
  : State * Completion :=
  match lookupGroup (chat_jid msg) (registeredGroups w) with
  | None => (w, Returned)
  | Some group =>
      let content := trim (content msg) in
      let approval :=
        Approval.checkApprovalMessage content (chat_jid msg)
          (pendingRequests w) in
      if Approval.isApproval approval then
        let run :=
          Approval.handleApproval (applyPlan host) (pendingRequests w)
            (Approval.requestId approval) (Approval.isApproved approval)
            (sender_name msg) in
        (emit (Approval.effects run)
           (set_pendingRequests (Approval.final run) w), Returned)
      else
        match Trigger.passesTrigger (hostRegExp host) (trigger group) content with
        | None => (w, Thrown)
        | Some false => (w, Returned)
        | Some true =>
            let sinceTimestamp :=
              default "" (lastAgentTimestamp w !! chat_jid msg) in
            let missedMessages :=
              getMessagesSince (storedMessages w) (chat_jid msg)
                sinceTimestamp (ASSISTANT_NAME host) in
            let prompt := buildPrompt missedMessages in
            if (prompt =? "")%string then (w, Returned)
            else
              let w1 :=
                emit [LogInfo "Processing message"; Typing (chat_jid msg) true] w in
              let '(w2, response) := runAgent w1 group prompt (chat_jid msg) in
              let w3 := emit [Typing (chat_jid msg) false] w2 in
              if truthy response then
                (sendMessage (chat_jid msg) (default "" response)
                   (set_lastAgentTimestamp
                      (<[chat_jid msg := timestamp msg]> (lastAgentTimestamp w3))
                      w3),
                 Returned)
              else (w3, Returned)
        end
  end.

(** The [for (const msg of messages)] loop of one polling cycle: the
    watermark moves after each call that returns; a call that throws ends
    the batch. [saveState] writes the same values to disk. *)
Fixpoint processBatch (w : State) (messages : list NewMessage) : State :=
  match messages with
  | [] => w
  | msg :: rest =>
      match processMessage w msg with
      | (w', Returned) => processBatch (set_lastTimestamp (timestamp msg) w') rest
      | (w', Thrown) => emit [LogError "Error processing message, will retry"] w'
      end
  end.

(** One iteration of the [while (true)] loop of startMessageLoop. *)
Definition messageLoopCycle (w : State) : State :=
  let jids := map fst (registeredGroups w) in
  let messages :=
    getNewMessages (batchLimit host) (storedMessages w) jids
      (lastTimestamp w) (ASSISTANT_NAME host) in
  let w1 :=
    match messages with
    | [] => w
    | _ :: _ => emit [LogInfo "New messages"] w
    end in
  processBatch w1 messages.

(** The loop over several cycles; before each cycle the channel adapter may
    have stored newly arrived messages. *)
Fixpoint messageLoop (arrivals : list (list NewMessage)) (w : State) : State :=
  match arrivals with
  | [] => w
  | arrived :: later =>
      messageLoop later
        (messageLoopCycle (set_storedMessages (storedMessages w ++ arrived) w))
  end.

(** The Discord [MessageCreate] event. *)
Record DiscordMessage : Type := mkDiscordMessage {
  author_bot : bool;
  author_id : string;
  author_username : string;
  guildId : option string;
  channelId : string;
  message_content : option string
}.

Definition discordJid (message : DiscordMessage) : string :=
  if truthy (guildId message) then ("discord:" ++ channelId message)%string
  else ("discord:" ++ author_id message)%string.

(** The handler registered by startDiscordBot; [now] is the clock reading. *)
Definition onDiscordMessage (now : string) (w : State)
    (message : DiscordMessage) : State * Completion :=
  if author_bot message then (w, Returned)
  else
    let jid := discordJid message in
    let registered :=
      match lookupGroup jid (registeredGroups w) with
      | Some group => Some (group, w)
      | None =>
          if negb (truthy (guildId message)) then
            let group :=
              mkGroup ("DM: " ++ author_username message)
                ("discord-dm-" ++ author_id message) (Some "") now None in
            Some (group,
                  emit [LogInfo "Auto-registered Discord DM"]
                    (set_registeredGroups
                       (assignGroup jid group (registeredGroups w)) w))
          else None
      end in
    match registered with
    | None => (w, Returned)
    | Some (group, w0) =>
        let w1 := emit [LogInfo "Discord message received"] w0 in
        let content := default "" (message_content message) in
        match Trigger.passesTrigger (hostRegExp host) (trigger group) content with
        | None => (w1, Thrown)
        | Some false => (w1, Returned)
        | Some true =>
            let prompt :=
              ("<messages>" ++ nl ++ "<message sender=" ++ String dquote
                 (replaceAll ">"%char "&gt;"
                    (replaceAll "<"%char "&lt;"
                       (replaceAll "&"%char "&amp;" (author_username message))))
               ++ String dquote " time=" ++ String dquote now
               ++ String dquote ">"
               ++ replaceAll ">"%char "&gt;"
                    (replaceAll "<"%char "&lt;"
                       (replaceAll "&"%char "&amp;" content))
               ++ "</message>" ++ nl ++ "</messages>")%string in
            let input :=
              mkContainerInput prompt (sessions w1 !! folder group)
                (folder group) jid false in
            let w2 := emit [AgentRun input] w1 in
            match runContainerAgent host (agentRuns (trace w1)) input with
            | None => (emit [LogError "Discord message handling failed"] w2, Returned)
            | Some output =>
                let w3 :=
                  if truthy (out_newSessionId output)
                  then set_sessions
                         (<[folder group := default "" (out_newSessionId output)]>
                            (sessions w2)) w2
                  else w2 in
                match out_status output with
                | success =>
                    if truthy (out_result output)
                    then (sendMessage jid (default "" (out_result output)) w3,
                          Returned)
                    else (w3, Returned)
                | failure => (emit [LogError "Discord agent error"] w3, Returned)
                end
            end
        end
    end.

End WithHost.

End Router.

(** ** The store

    Modelled from the spec: db.ts is not among the sources. The store is a
    key-indexed CRUD collaborator over the Task and ProcessedEmailRecord
    collections; a Task is { id, groupFolder, chatIdentity, prompt,
    scheduleType, scheduleValue, contextMode, nextRun, status
    (active|paused) } and a ProcessedEmailRecord is { id, threadId, sender,
    subject, processedAt, responded }. *)

Module Store.

Inductive TaskStatus : Type := active | paused.

Record Task : Type := mkTask {
  id : string;
  group_folder : string;
  chat_jid : string;
  prompt : string;
  schedule_type : string;
  schedule_value : string;
  context_mode : string;
  next_run : option string;
  status : TaskStatus;
  created_at : string
}.

Definition setStatus (s : TaskStatus) (t : Task) : Task :=
  mkTask (id t) (group_folder t) (chat_jid t) (prompt t) (schedule_type t)
    (schedule_value t) (context_mode t) (next_run t) s (created_at t).

(** Modelled from the spec: key-indexed create, read, update and delete. *)
Definition createTask (t : Task) (tasks : gmap string Task) : gmap string Task :=
  <[id t := t]> tasks.
Definition getTaskById (taskId : string) (tasks : gmap string Task)
  : option Task := tasks !! taskId.
Definition updateTask (taskId : string) (s : TaskStatus)
    (tasks : gmap string Task) : gmap string Task :=
  alter (setStatus s) taskId tasks.
Definition deleteTask (taskId : string) (tasks : gmap string Task)
  : gmap string Task := delete taskId tasks.

Record ProcessedEmailRecord : Type := mkProcessed {
  email_id : string;
  threadId : string;
  sender : string;
  subject : string;
  processedAt : string;
  responded : bool
}.

Definition setResponded (r : ProcessedEmailRecord) : ProcessedEmailRecord :=
  mkProcessed (email_id r) (threadId r) (sender r) (subject r)
    (processedAt r) true.

(** Modelled from the spec: dedup is by id; a record starts with
    responded = false and markEmailResponded sets it. *)
Definition isEmailProcessed (emailId : string)
    (emails : gmap string ProcessedEmailRecord) : bool :=
  bool_decide (is_Some (emails !! emailId)).
Definition markEmailProcessed (now emailId thread from subj : string)
    (emails : gmap string ProcessedEmailRecord)
  : gmap string ProcessedEmailRecord :=
  <[emailId := mkProcessed emailId thread from subj now false]> emails.
Definition markEmailResponded (emailId : string)
    (emails : gmap string ProcessedEmailRecord)
  : gmap string ProcessedEmailRecord :=
  alter setResponded emailId emails.

End Store.

(** ** The IPC command bus (startIpcWatcher, processTaskIpc) *)

Module Ipc.

(** The object an envelope parses to, with the fields the bus reads.
    [None] is a field that is absent. *)
Record IpcData : Type := mkData {
  type : string;
  taskId : option string;
  prompt : option string;
  schedule_type : option string;
  schedule_value : option string;
  context_mode : option string;
  groupFolder : option string;
  chatJid : option string;
  jid : option string;
  name : option string;
  folder : option string;
  trigger : option string;
  containerConfig : option string;
  userId : option string;
  text : option string;
  duration : option Z
}.

(** The collaborators of the bus. *)
Record Host : Type := mkHost {
  (** config.ts *)
  MAIN_GROUP_FOLDER : string;
  (** [JSON.parse] of a file's content; [None] when it throws, or gives
      [null], of which reading [data.type] throws *)
  JSON_parse : string -> option IpcData;
  (** [CronExpressionParser.parse(v).next().toISOString()]; [None] when it
      throws *)
  cronNext : string -> option string;
  (** [parseInt(v, 10)]; [None] for NaN *)
  parseInt : string -> option Z;
  (** [new Date(Date.now() + ms).toISOString()]; [None] when the date is out
      of range and toISOString throws *)
  dateAfter : Z -> option string;
  (** [new Date(v)]: [None] for an invalid date, else its toISOString() *)
  parseDate : string -> option string;
  (** the clock and the random task id, by the number of effects so far *)
  now : nat -> string;
  newTaskId : nat -> string;
  (** whether [fs.mkdirSync(path.join(groupDir, 'logs'), { recursive: true })]
      returns for the group directory of this folder *)
  mkdirOk : string -> bool;
  (** whether [resolveDiscordChannel(userId)] and every send of
      [sendDiscordChunked(channel, text)] resolve, by the number of effects
      so far *)
  dmResolves : nat -> string -> string -> bool
}.

(** One group's directory under data/ipc: the files of its [messages] and
    [tasks] subdirectories by name, in readdir order. A subdirectory that
    does not exist has no files. *)
Record Mailbox : Type := mkMailbox {
  messagesDir : list (string * string);
  tasksDir : list (string * string)
}.

Record State : Type := mkState {
  registeredGroups : list (string * Router.RegisteredGroup);
  tasks : gmap string Store.Task;
  (** the directories under data/ipc, in readdir order *)
  mailboxes : list (string * Mailbox);
  (** data/ipc/errors: content by file name *)
  errors : gmap string string;
  trace : list Event
}.

Definition set_registeredGroups (v : list (string * Router.RegisteredGroup))
    (w : State) : State :=
  mkState v (tasks w) (mailboxes w) (errors w) (trace w).
Definition set_tasks (v : gmap string Store.Task) (w : State) : State :=
  mkState (registeredGroups w) v (mailboxes w) (errors w) (trace w).
Definition set_mailboxes (v : list (string * Mailbox)) (w : State) : State :=
  mkState (registeredGroups w) (tasks w) v (errors w) (trace w).
Definition set_errors (v : gmap string string) (w : State) : State :=
  mkState (registeredGroups w) (tasks w) (mailboxes w) v (trace w).
Definition emit (es : list Event) (w : State) : State :=
  mkState (registeredGroups w) (tasks w) (mailboxes w) (errors w)
    (trace w ++ es).

(** [Object.entries(registeredGroups).find(([, group]) => group.folder ===
    targetGroup)?.[0]] *)
Definition findJidByFolder (targetGroup : string)
    (groups : list (string * Router.RegisteredGroup)) : option string :=
  option_map fst
    (find (fun e => (Router.folder (snd e) =? targetGroup)%string) groups).

Inductive Subdir : Type := messages | tasksSub.

Definition removeFile (file : string) (dir : list (string * string))
  : list (string * string) :=
  List.filter (fun e => negb (fst e =? file)%string) dir.

Definition removeFrom (sub : Subdir) (file : string) (m : Mailbox) : Mailbox :=
  match sub with
  | messages => mkMailbox (removeFile file (messagesDir m)) (tasksDir m)
  | tasksSub => mkMailbox (messagesDir m) (removeFile file (tasksDir m))
  end.

(** [fs.unlinkSync(filePath)] *)
Definition unlink (sourceGroup : string) (sub : Subdir) (file : string)
    (w : State) : State :=
  set_mailboxes
    (map (fun e => if (fst e =? sourceGroup)%string
                   then (fst e, removeFrom sub file (snd e)) else e)
       (mailboxes w)) w.

(** The catch block of a file: [fs.renameSync(filePath,
    path.join(errorDir, `${sourceGroup}-${file}`))]. *)
Definition quarantine (sourceGroup : string) (sub : Subdir)
    (file raw : string) (w : State) : State :=
  set_errors (<[(sourceGroup ++ "-" ++ file)%string := raw]> (errors w))
    (unlink sourceGroup sub file w).

Definition fileOf (sourceGroup : string) (sub : Subdir) (file : string)
    (w : State) : option string :=
  match find (fun e => (fst e =? sourceGroup)%string) (mailboxes w) with
  | Some (_, m) =>
      option_map snd
        (find (fun e => (fst e =? file)%string)
           (match sub with messages => messagesDir m | tasksSub => tasksDir m end))
  | None => None
  end.

Section WithHost.
Variable host : Host.

(** [registerGroup]: the registry is assigned and saved first; creating the
    group folder can throw, and then nothing is logged. *)
Definition registerGroup (jid : string) (group : Router.RegisteredGroup)
    (w : State) : State * Router.Completion :=
  let w1 :=
    set_registeredGroups (Router.assignGroup jid group (registeredGroups w)) w in
  if mkdirOk host (Router.folder group)
  then (emit [LogInfo "Group registered"] w1, Router.Returned)
  else (w1, Router.Thrown).

Definition authorizedFor (isMain : bool) (sourceGroup : string)
    (task : option Store.Task) : bool :=
  match task with
  | Some t => isMain || (Store.group_folder t =? sourceGroup)%string
  | None => false
  end.

Definition scheduleTask (w : State) (data : IpcData) (sourceGroup : string)
    (isMain : bool) : State * Router.Completion :=
  if truthy (prompt data) && truthy (schedule_type data)
     && truthy (schedule_value data) && truthy (groupFolder data)
  then
    let targetGroup := default "" (groupFolder data) in
    let value := default "" (schedule_value data) in
    if negb isMain && negb (targetGroup =? sourceGroup)%string then
      (emit [LogWarn "Unauthorized schedule_task attempt blocked"] w,
       Router.Returned)
    else
      let targetJid := findJidByFolder targetGroup (registeredGroups w) in
      if negb (truthy targetJid) then
        (emit [LogWarn "Cannot schedule task: target group not registered"] w,
         Router.Returned)
      else
        let scheduleType := default "" (schedule_type data) in
        let create (nextRun : option string) :=
          let stamp := length (trace w) in
          let contextMode :=
            match context_mode data with
            | Some m =>
                if (m =? "group")%string || (m =? "isolated")%string
                then m else "isolated"
            | None => "isolated"
            end in
          (emit [LogInfo "Task created via IPC"]
             (set_tasks
                (Store.createTask
                   (Store.mkTask (newTaskId host stamp) targetGroup
                      (default "" targetJid) (default "" (prompt data))
                      scheduleType value contextMode nextRun Store.active
                      (now host stamp))
                   (tasks w)) w),
           Router.Returned) in
        if (scheduleType =? "cron")%string then
          match cronNext host value with
          | None => (emit [LogWarn "Invalid cron expression"] w, Router.Returned)
          | Some next => create (Some next)
          end
        else if (scheduleType =? "interval")%string then
          match parseInt host value with
          | None => (emit [LogWarn "Invalid interval"] w, Router.Returned)
          | Some ms =>
              if ms <=? 0 then (emit [LogWarn "Invalid interval"] w, Router.Returned)
              else
                match dateAfter host ms with
                | None => (w, Router.Thrown)
                | Some next => create (Some next)
                end
          end
        else if (scheduleType =? "once")%string then
          match parseDate host value with
          | None => (emit [LogWarn "Invalid timestamp"] w, Router.Returned)
          | Some next => create (Some next)
          end
        else create None
  else (w, Router.Returned).

(** [processTaskIpc]. A direct message is recorded as the request to send,
    as for sendMessage, followed by the line that tells whether the channel
    resolved and every send went through. *)
Definition processTaskIpc (w : State) (data : IpcData) (sourceGroup : string)
    (isMain : bool) : State * Router.Completion :=
  if (type data =? "schedule_task")%string then
    scheduleTask w data sourceGroup isMain
  else if (type data =? "pause_task")%string then
    if truthy (taskId data) then
      let tid := default "" (taskId data) in
      if authorizedFor isMain sourceGroup (Store.getTaskById tid (tasks w)) then
        (emit [LogInfo "Task paused via IPC"]
           (set_tasks (Store.updateTask tid Store.paused (tasks w)) w),
         Router.Returned)
      else (emit [LogWarn "Unauthorized task pause attempt"] w, Router.Returned)
    else (w, Router.Returned)
  else if (type data =? "resume_task")%string then
    if truthy (taskId data) then
      let tid := default "" (taskId data) in
      if authorizedFor isMain sourceGroup (Store.getTaskById tid (tasks w)) then
        (emit [LogInfo "Task resumed via IPC"]
           (set_tasks (Store.updateTask tid Store.active (tasks w)) w),
         Router.Returned)
      else (emit [LogWarn "Unauthorized task resume attempt"] w, Router.Returned)
    else (w, Router.Returned)
  else if (type data =? "cancel_task")%string then
    if truthy (taskId data) then
      let tid := default "" (taskId data) in
      if authorizedFor isMain sourceGroup (Store.getTaskById tid (tasks w)) then
        (emit [LogInfo "Task cancelled via IPC"]
           (set_tasks (Store.deleteTask tid (tasks w)) w),
         Router.Returned)
      else (emit [LogWarn "Unauthorized task cancel attempt"] w, Router.Returned)
    else (w, Router.Returned)
  else if (type data =? "refresh_groups")%string then
    if isMain then
      (emit [LogInfo "Group metadata refresh requested via IPC"] w,
       Router.Returned)
    else
      (emit [LogWarn "Unauthorized refresh_groups attempt blocked"] w,
       Router.Returned)
  else if (type data =? "register_group")%string then
    if negb isMain then
      (emit [LogWarn "Unauthorized register_group attempt blocked"] w,
       Router.Returned)
    else if truthy (jid data) && truthy (name data) && truthy (folder data)
            && truthy (trigger data)
    then
      registerGroup (default "" (jid data))
        (Router.mkGroup (default "" (name data)) (default "" (folder data))
           (trigger data) (now host (length (trace w))) (containerConfig data))
        w
    else
      (emit [LogWarn "Invalid register_group request - missing required fields"] w,
       Router.Returned)
  else if (type data =? "discord_dm")%string then
    if negb isMain then
      (emit [LogWarn "Unauthorized discord_dm attempt blocked"] w,
       Router.Returned)
    else if truthy (userId data) && truthy (text data) then
      (emit [Sent ("discord:" ++ default "" (userId data))
               (default "" (text data));
             if dmResolves host (length (trace w)) (default "" (userId data))
                  (default "" (text data))
             then LogInfo "Discord DM sent via IPC"
             else LogError "Failed to send Discord DM"] w,
       Router.Returned)
    else
      (emit [LogWarn "Invalid discord_dm request - missing userId or text"] w,
       Router.Returned)
  else (emit [LogWarn "Unknown IPC task type"] w, Router.Returned).

(** The body of the loop over the files of a [tasks] subdirectory. *)
Definition processTaskFile (sourceGroup : string) (isMain : bool)
    (w : State) (entry : string * string) : State :=
  let '(file, raw) := entry in
  match JSON_parse host raw with
  | None =>
      quarantine sourceGroup tasksSub file raw
        (emit [LogError "Error processing IPC task"] w)
  | Some data =>
      match processTaskIpc w data sourceGroup isMain with
      | (w', Router.Returned) => unlink sourceGroup tasksSub file w'
      | (w', Router.Thrown) =>
          quarantine sourceGroup tasksSub file raw
            (emit [LogError "Error processing IPC task"] w')
      end
  end.

(** The body of the loop over the files of a [messages] subdirectory. *)
Definition processMessageFile (sourceGroup : string) (isMain : bool)
    (w : State) (entry : string * string) : State :=
  let '(file, raw) := entry in
  match JSON_parse host raw with
  | None =>
      quarantine sourceGroup messages file raw
        (emit [LogError "Error processing IPC message"] w)
  | Some data =>
      let w' :=
        if (type data =? "message")%string && truthy (chatJid data)
           && truthy (text data)
        then
          let target := default "" (chatJid data) in
          let targetGroup := Router.lookupGroup target (registeredGroups w) in
          if isMain
             || match targetGroup with
                | Some g => (Router.folder g =? sourceGroup)%string
                | None => false
                end
          then emit [Sent target (default "" (text data));
                     LogInfo "IPC message sent"] w
          else emit [LogWarn "Unauthorized IPC message attempt blocked"] w
        else if (type data =? "typing_indicator")%string && truthy (chatJid data)
        then emit [Typing (default "" (chatJid data)) true;
                   LogInfo "IPC typing indicator"] w
        else w in
      unlink sourceGroup messages file w'
  end.

Definition endsWith (suffix s : string) : bool :=
  let n := String.length suffix in
  let m := String.length s in
  (n <=? m)%nat && (substring (m - n) n s =? suffix)%string.

Definition jsonFiles (dir : list (string * string)) : list (string * string) :=
  List.filter (fun e => endsWith ".json" (fst e)) dir.

(** [fs.readdirSync(dir).filter((f) => f.endsWith('.json'))] *)
Definition readJsonFiles (sourceGroup : string) (sub : Subdir) (w : State)
  : list (string * string) :=
  match find (fun e => (fst e =? sourceGroup)%string) (mailboxes w) with
  | Some (_, m) =>
      jsonFiles (match sub with messages => messagesDir m | tasksSub => tasksDir m end)
  | None => []
  end.

(** The body of the loop over the group directories. *)
Definition processGroup (w : State) (sourceGroup : string) : State :=
  let isMain := (sourceGroup =? MAIN_GROUP_FOLDER host)%string in
  let w1 :=
    fold_left (processMessageFile sourceGroup isMain)
      (readJsonFiles sourceGroup messages w) w in
  fold_left (processTaskFile sourceGroup isMain)
    (readJsonFiles sourceGroup tasksSub w1) w1.

(** One run of [processIpcFiles]: the group directories are those under
    data/ipc other than [errors]. *)
Definition processIpcFiles (w : State) : State :=
  fold_left processGroup
    (List.filter (fun f => negb (f =? "errors")%string)
       (map fst (mailboxes w))) w.

End WithHost.

(** The payload with another [chatJid]. *)
Definition set_chatJid (v : option string) (d : IpcData) : IpcData :=
  mkData (type d) (taskId d) (prompt d) (schedule_type d) (schedule_value d)
    (context_mode d) (groupFolder d) v (jid d) (name d) (folder d)
    (trigger d) (containerConfig d) (userId d) (text d) (duration d).

Definition present (o : option string) : Prop :=
  exists s, o = Some s /\ s <> "".

(** Every group of [groups'] is a group of [groups] under the same chat
    identity, or has a trigger that is present and not empty. *)
Definition addsOnlyTriggered
    (groups groups' : list (string * Router.RegisteredGroup)) : Prop :=
  forall j g,
    Router.lookupGroup j groups' = Some g ->
    Router.lookupGroup j groups = Some g \/ present (Router.trigger g).

(** The two ways the watcher disposes of a file: moved to the quarantine
    directory under [`${sourceGroup}-${file}`] with its content, or deleted
    with the quarantine directory left as it was. *)
Definition quarantinedAs (sourceGroup : string) (sub : Subdir)
    (file raw : string) (w' : State) : Prop :=
  errors w' !! (sourceGroup ++ "-" ++ file)%string = Some raw /\
  fileOf sourceGroup sub file w' = None.


(** The warning of a refused pause, resume or cancel command. *)
Definition refusal (type : string) : string :=
  if (type =? "pause_task")%string then "Unauthorized task pause attempt"
  else if (type =? "resume_task")%string then "Unauthorized task resume attempt"
  else "Unauthorized task cancel attempt".




End Ipc.

(** ** The e-mail channel (startEmailLoop, runEmailAgent, sendEmailReply,
       getContextKey) *)

Module Email.
Import RegExp.

Record EmailMessage : Type := mkEmail {
  id : string;
  threadId : string;
  from : string;
  subject : string;
  body : string;
  date : string
}.

Inductive ContextMode : Type := thread | sender | single.

(** The collaborators of the e-mail loop. *)
Record Host : Type := mkHost {
  (** EMAIL_CHANNEL of config.ts *)
  contextMode : ContextMode;
  replyPrefix : option string;
  (** the [n]-th call of runContainerAgent; [None] when the promise rejects *)
  runContainerAgent : nat -> ContainerInput -> option Router.ContainerOutput;
  (** whether [gmailMcpCall('send_email', args)] resolves for a reply to the
      given message id, by the number of effects so far *)
  sendResolves : nat -> string -> bool;
  (** the clock, by the number of effects so far *)
  now : nat -> string;
  (** whether [fs.mkdirSync] of the logs directory of this group folder
      and, when its CLAUDE.md is missing, [fs.writeFileSync] return *)
  folderReady : string -> bool
}.

Record State : Type := mkState {
  sessions : gmap string string;
  processedEmails : gmap string Store.ProcessedEmailRecord;
  trace : list Event
}.

Definition set_sessions (v : gmap string string) (w : State) : State :=
  mkState v (processedEmails w) (trace w).
Definition set_processedEmails (v : gmap string Store.ProcessedEmailRecord)
    (w : State) : State :=
  mkState (sessions w) v (trace w).
Definition emit (es : list Event) (w : State) : State :=
  mkState (sessions w) (processedEmails w) (trace w ++ es).

(** [/<(.+?)>/] *)
Definition addressRegExp : re :=
  Seq (Char "<")
    (Seq (Group 1 (Seq (Class isNotLineTerminator)
                       (LazyStar (Class isNotLineTerminator))))
       (Char ">")).

(** [const match = to.match(/<(.+?)>/); match ? match[1] : to] *)
Definition bareAddress (to : string) : string :=
  match exec false addressRegExp to with
  | Some m => default "" (group to m 1)
  | None => to
  end.

Definition startsWith (pre s : string) : bool :=
  (substring 0 (String.length pre) s =? pre)%string.

(** [s.replace(/[^a-z0-9.@-]/g, '')] *)
Definition keepAddressChars (s : string) : string :=
  string_of_list_ascii
    (List.filter
       (fun c => isLower c || isDigit c
                 || existsb (Ascii.eqb c) (list_ascii_of_string ".@-"))
       (list_ascii_of_string s)).

Definition getContextKey (mode : ContextMode) (email : EmailMessage) : string :=
  match mode with
  | thread => ("email-thread-" ++ threadId email)%string
  | sender =>
      ("email-sender-"
       ++ keepAddressChars (toLowerCase (bareAddress (from email))))%string
  | single => "email-main"
  end.

Section WithHost.
Variable host : Host.

(** [sendEmailReply]: a rejected send is caught and logged inside, so the
    call returns normally either way. *)
Definition sendEmailReply (to subj text thread inReplyTo : string)
    (w : State) : State :=
  let replySubject := if startsWith "Re:" subj then subj else ("Re: " ++ subj)%string in
  let prefixedBody :=
    if truthy (replyPrefix host)
    then (default "" (replyPrefix host) ++ text)%string else text in
  let addr := bareAddress to in
  let delivered := sendResolves host (length (trace w)) inReplyTo in
  emit [EmailSend inReplyTo addr replySubject prefixedBody delivered;
        if delivered then LogInfo "Email reply sent"
        else LogError "Failed to send email reply"] w.

(** [runEmailAgent] *)
Definition runEmailAgent (w : State) (group : Router.RegisteredGroup)
    (prompt chatJid : string) : State * option string :=
  let sessionId := sessions w !! Router.folder group in
  let input :=
    mkContainerInput prompt sessionId (Router.folder group) chatJid false in
  let w1 := emit [AgentRun input] w in
  match runContainerAgent host (Router.agentRuns (trace w)) input with
  | None => (emit [LogError "Email agent error"] w1, None)
  | Some output =>
      let w2 :=
        if truthy (Router.out_newSessionId output)
        then set_sessions
               (<[Router.folder group :=
                    default "" (Router.out_newSessionId output)]> (sessions w1)) w1
        else w1 in
      match Router.out_status output with
      | Router.failure => (emit [LogError "Email agent error"] w2, None)
      | Router.success => (w2, Router.out_result output)
      end
  end.

Definition emailPrompt (email : EmailMessage) : string :=
  ("<email>" ++ Router.nl
   ++ "<from>" ++ Router.escapeXml (from email) ++ "</from>" ++ Router.nl
   ++ "<subject>" ++ Router.escapeXml (subject email) ++ "</subject>" ++ Router.nl
   ++ "<body>" ++ Router.escapeXml (body email) ++ "</body>" ++ Router.nl
   ++ "</email>" ++ Router.nl ++ Router.nl
   ++ "Respond to this email. Your response will be sent as an email reply.")%string.

(** Whether the body of the [for (const email of emails)] loop throws: the
    id is not yet recorded and creating the group folder or its CLAUDE.md
    fails. Nothing else in the body throws: sendEmailReply and runEmailAgent
    catch their errors. *)
Definition folderFails (w : State) (email : EmailMessage) : bool :=
  negb (Store.isEmailProcessed (id email) (processedEmails w))
  && negb (folderReady host (getContextKey (contextMode host) email)).

(** The state after the body of the [for (const email of emails)] loop,
    whether the body completes or is left by the exception of
    [folderFails]: the id is recorded before the folder is created. The
    group folder and its CLAUDE.md are not part of the state. *)
Definition processEmail (w : State) (email : EmailMessage) : State :=
  if Store.isEmailProcessed (id email) (processedEmails w) then w
  else
    let w1 :=
      set_processedEmails
        (Store.markEmailProcessed (now host (length (trace w))) (id email)
           (threadId email) (from email) (subject email) (processedEmails w))
        (emit [LogInfo "Processing email"] w) in
    let groupFolder := getContextKey (contextMode host) email in
    if negb (folderReady host groupFolder) then w1
    else
      let emailGroup :=
        Router.mkGroup ("Email: " ++ from email) groupFolder (Some "")
          (now host (length (trace w1))) None in
      let '(w2, response) :=
        runEmailAgent w1 emailGroup (emailPrompt email)
          ("email:" ++ from email) in
      if truthy response then
        let w3 :=
          sendEmailReply (from email) (subject email) (default "" response)
            (threadId email) (id email) w2 in
        set_processedEmails
          (Store.markEmailResponded (id email) (processedEmails w3)) w3
      else w2.

(** One iteration of the [while (true)] loop, on what checkForNewEmails
    returned: the [try] encloses the whole [for] loop, so an exception in
    the body of one email is logged and ends the poll. *)
Fixpoint emailLoopCycle (w : State) (emails : list EmailMessage) : State :=
  match emails with
  | [] => w
  | email :: rest =>
      if folderFails w email
      then emit [LogError "Error in email loop"] (processEmail w email)
      else emailLoopCycle (processEmail w email) rest
  end.

(** The loop over several polls. *)
Definition emailLoop (polls : list (list EmailMessage)) (w : State) : State :=
  fold_left emailLoopCycle polls w.

End WithHost.

(** The reply attempts for a message id recorded in a trace. *)
Definition isReplyTo (emailId : string) (e : Event) : bool :=
  match e with
  | EmailSend inReplyTo _ _ _ _ => (inReplyTo =? emailId)%string
  | _ => false
  end.

Definition replyAttempts (emailId : string) (t : list Event) : nat :=
  length (List.filter (isReplyTo emailId) t).

(** No reply was attempted for a message id that is not recorded as
    processed, and at most one for any message id. *)
Definition atMostOnce (w : State) : Prop :=
  forall i,
    (Store.isEmailProcessed i (processedEmails w) = false ->
     replyAttempts i (trace w) = 0%nat) /\
    (replyAttempts i (trace w) <= 1)%nat.

End Email.

(** ** Sample collaborators and states for the worked examples *)

Module Samples.

Definition q (s : string) : string :=
  String dquote (s ++ String dquote EmptyString)%string.

Definition field (k v : string) : string := (q k ++ ":" ++ q v)%string.

Definition rawPause : string :=
  ("{" ++ field "type" "pause_task" ++ "," ++ field "taskId" "t1" ++ "}")%string.

Definition rawMessage : string :=
  ("{" ++ field "type" "message" ++ "," ++ field "chatJid" "chat3" ++ ","
   ++ field "text" "hi" ++ "}")%string.

Definition rawSchedule : string :=
  ("{" ++ field "type" "schedule_task" ++ "," ++ field "prompt" "report"
   ++ "," ++ field "schedule_type" "once" ++ ","
   ++ field "schedule_value" "2027-01-01T00:00:00.000Z" ++ ","
   ++ field "groupFolder" "g3" ++ "," ++ field "chatJid" "chat2" ++ "}")%string.

Definition rawRegister : string :=
  ("{" ++ field "type" "register_group" ++ "," ++ field "jid" "chat9" ++ ","
   ++ field "name" "Nine" ++ "," ++ field "folder" "g9" ++ ","
   ++ field "trigger" "" ++ "}")%string.

Definition rawRegisterFull : string :=
  ("{" ++ field "type" "register_group" ++ "," ++ field "jid" "chat9" ++ ","
   ++ field "name" "Nine" ++ "," ++ field "folder" "g9" ++ ","
   ++ field "trigger" "@nine" ++ "}")%string.

Definition rawGarbage : string := "{not json".
Definition rawGarbage' : string := "{not json either".

Definition dataPause : Ipc.IpcData :=
  Ipc.mkData "pause_task" (Some "t1") None None None None None None None None
    None None None None None None.

Definition dataMessage : Ipc.IpcData :=
  Ipc.mkData "message" None None None None None None (Some "chat3") None None
    None None None None (Some "hi") None.

Definition dataSchedule : Ipc.IpcData :=
  Ipc.mkData "schedule_task" None (Some "report") (Some "once")
    (Some "2027-01-01T00:00:00.000Z") None (Some "g3") (Some "chat2") None
    None None None None None None None.

Definition dataRegister : Ipc.IpcData :=
  Ipc.mkData "register_group" None None None None None None None
    (Some "chat9") (Some "Nine") (Some "g9") (Some "") None None None None.

Definition dataRegisterFull : Ipc.IpcData :=
  Ipc.mkData "register_group" None None None None None None None
    (Some "chat9") (Some "Nine") (Some "g9") (Some "@nine") None None None None.

Definition parse (raw : string) : option Ipc.IpcData :=
  if (raw =? rawPause)%string then Some dataPause
  else if (raw =? rawMessage)%string then Some dataMessage
  else if (raw =? rawSchedule)%string then Some dataSchedule
  else if (raw =? rawRegister)%string then Some dataRegister
  else if (raw =? rawRegisterFull)%string then Some dataRegisterFull
  else None.

Definition ipcHost : Ipc.Host :=
  Ipc.mkHost "main" parse (fun _ => None) (fun _ => None) (fun _ => None)
    (fun v => Some v) (fun _ => "2026-11-03T00:00:00.000Z")
    (fun _ => "task-1-abc123") (fun _ => true) (fun _ _ _ => true).

Definition group2 : Router.RegisteredGroup :=
  Router.mkGroup "Two" "g2" (Some "@bot") "2026-01-01T00:00:00.000Z" None.
Definition group3 : Router.RegisteredGroup :=
  Router.mkGroup "Three" "g3" (Some "@bot") "2026-01-01T00:00:00.000Z" None.

Definition task1 : Store.Task :=
  Store.mkTask "t1" "g3" "chat3" "report" "interval" "60000" "isolated"
    (Some "2026-11-04T00:00:00.000Z") Store.active "2026-11-01T00:00:00.000Z".

Definition ipcState : Ipc.State :=
  Ipc.mkState [("chat2", group2); ("chat3", group3)] {[ "t1" := task1 ]}
    [("g2", Ipc.mkMailbox [("1.json", rawMessage); ("9.json", rawGarbage)]
              [("2.json", rawPause); ("3.json", rawSchedule)]);
     ("main", Ipc.mkMailbox [] [("4.json", rawRegister)])]
    ∅ [].

(** A host on which no group folder can be created, and the main group's
    mailbox with a complete register_group command. *)
Definition readOnlyHost : Ipc.Host :=
  Ipc.mkHost "main" parse (fun _ => None) (fun _ => None) (fun _ => None)
    (fun v => Some v) (fun _ => "2026-11-03T00:00:00.000Z")
    (fun _ => "task-1-abc123") (fun _ => false) (fun _ _ _ => true).

Definition group9 : Router.RegisteredGroup :=
  Router.mkGroup "Nine" "g9" (Some "@nine") "2026-11-03T00:00:00.000Z" None.

Definition ipcState' : Ipc.State :=
  Ipc.mkState [("chat2", group2)] ∅
    [("main", Ipc.mkMailbox [] [("5.json", rawRegisterFull)])] ∅ [].

(** Two files of one group, named alike, that do not parse. *)
Definition collidingState : Ipc.State :=
  Ipc.mkState [("chat2", group2)] ∅
    [("g2", Ipc.mkMailbox [("9.json", rawGarbage)] [("9.json", rawGarbage')])]
    ∅ [].


Definition agentOk (n : nat) (input : ContainerInput)
  : option Router.ContainerOutput :=
  Some (Router.mkOutput Router.success (Some "Hello!") (Some "session-1") None).

Definition agentError (n : nat) (input : ContainerInput)
  : option Router.ContainerOutput :=
  Some (Router.mkOutput Router.failure None None (Some "container exited")).

Definition routerHost : Router.Host :=
  Router.mkHost "main" "Andy" 50 agentOk (fun _ _ => None)
    (fun _ => Approval.ApplyOk "done").

Definition failingHost : Router.Host :=
  Router.mkHost "main" "Andy" 50 agentError (fun _ _ => None)
    (fun _ => Approval.ApplyOk "done").

Definition group1 : Router.RegisteredGroup :=
  Router.mkGroup "One" "g1" (Some "@bot") "2026-01-01T00:00:00.000Z" None.

Definition openGroup : Router.RegisteredGroup :=
  Router.mkGroup "Open" "g0" (Some "") "2026-01-01T00:00:00.000Z" None.

Definition message1 : Router.NewMessage :=
  Router.mkMessage "m1" "chat1" "Ann" "@bot hi" "2026-11-03T10:00:00.000Z".

Definition hello : Router.NewMessage :=
  Router.mkMessage "m0" "chat1" "Ann" "hello" "2026-11-03T09:59:59.000Z".

Definition spacedMessage : Router.NewMessage :=
  Router.mkMessage "m3" "chat1" "Ann" " @bot hi" "2026-11-03T10:00:02.000Z".

Definition approveMessage : Router.NewMessage :=
  Router.mkMessage "m2" "chat0" "Ann" "approve" "2026-11-03T10:00:01.000Z".

Definition routerState : Router.State :=
  Router.mkState "" ∅ [("chat1", group1); ("chat0", openGroup)] ∅ []
    [message1] [].

Definition request1 : Approval.HostModificationRequest :=
  Approval.mkRequest "hc-1" "g0" "chat0" "Add a channel"
    "groups/g0/PENDING_HOST_CHANGES.notified.md" "2026-11-03T09:00:00.000Z"
    Approval.pending None None.

Definition request2 : Approval.HostModificationRequest :=
  Approval.mkRequest "hc-2" "g0" "chat0" "Install a package"
    "groups/g0/PENDING_HOST_CHANGES.notified.md" "2026-11-03T09:30:00.000Z"
    Approval.pending None None.

Definition emailHost : Email.Host :=
  Email.mkHost Email.thread None agentOk (fun _ _ => false)
    (fun _ => "2026-11-03T00:00:00.000Z") (fun _ => true).

(** The same host when no group folder can be created. *)
Definition emailHostReadOnly : Email.Host :=
  Email.mkHost Email.thread None agentOk (fun _ _ => false)
    (fun _ => "2026-11-03T00:00:00.000Z") (fun _ => false).

Definition email2 : Email.EmailMessage :=
  Email.mkEmail "m2" "thread-2" "Bob <bob@example.org>" "Hello" "Hi"
    "Tue, 3 Nov 2026 10:05:00 +0000".

Definition email1 : Email.EmailMessage :=
  Email.mkEmail "m1" "thread-1" "Ann <ann@example.org>" "Question" "How?"
    "Tue, 3 Nov 2026 10:00:00 +0000".

Definition emailState : Email.State := Email.mkState ∅ ∅ [].

Definition longText : string :=
  (string_of_list_ascii (repeat "a"%char 1895) ++ " hello world")%string.

Definition crashingHost : Router.Host :=
  Router.mkHost "main" "Andy" 50 (fun _ _ => None) (fun _ _ => None)
    (fun _ => Approval.ApplyOk "done").

(** The chat of the open group has received the bare keyword. *)
Definition openState : Router.State :=
  Router.set_storedMessages [approveMessage] routerState.

Definition pendingState : Router.State :=
  Router.set_pendingRequests [request1; request2] openState.

End Samples.

(** ** The loop of a greedy star, by name *)

Module StarLoop.
Import RegExp.

Section Matcher.
Variable ignoreCase : bool.
Variable input : list ascii.
Variable r1 : re.
Variable k : continuation.

(** The loop that [run] enters at a [Star]: [fuel] iterations at most, the
    longest match first. *)
Fixpoint starLoop (fuel i : nat) (cs : captures) : option matchState :=
  match fuel with
  | O => k i cs
  | S fuel' =>
      match
        run ignoreCase input r1 i cs
          (fun j cs' => if (i <? j)%nat then starLoop fuel' j cs' else None)
      with
      | Some res => Some res
      | None => k i cs
      end
  end.

(** The loop that [run] enters at a [LazyStar]: the shortest match
    first. *)
Fixpoint lazyLoop (fuel i : nat) (cs : captures) : option matchState :=
  match k i cs with
  | Some res => Some res
  | None =>
      match fuel with
      | O => None
      | S fuel' =>
          run ignoreCase input r1 i cs
            (fun j cs' => if (i <? j)%nat then lazyLoop fuel' j cs' else None)
      end
  end.

End Matcher.

(** Every code unit of [s] from index [i] on is in the class [p]. *)
Definition allFrom (p : ascii -> bool) (s : list ascii) (i : nat) : bool :=
  forallb p (skipn i s).

End StarLoop.

(** ** Observations on traces and states *)

Definition isSent (e : Event) : bool :=
  match e with Sent _ _ => true | _ => false end.

Module Confinement.
Import Ipc.

(** What a command of a group other than the main one can do to the task
    table: nothing, or one store operation on a task of its own folder. *)
Definition ownTaskOperation (sourceGroup : string)
    (before after : gmap string Store.Task) : Prop :=
  after = before \/
  (exists t, Store.group_folder t = sourceGroup /\
             after = Store.createTask t before) \/
  (exists tid t, Store.getTaskById tid before = Some t /\
                 Store.group_folder t = sourceGroup /\
                 (after = Store.updateTask tid Store.paused before \/
                  after = Store.updateTask tid Store.active before \/
                  after = Store.deleteTask tid before)).

(** An effect that a group's mailbox may cause: anything but a message to a
    chat that is not registered for the group's folder. *)
Definition ownChat (sourceGroup : string)
    (groups : list (string * Router.RegisteredGroup)) (e : Event) : Prop :=
  match e with
  | Sent jid _ =>
      exists g, Router.lookupGroup jid groups = Some g /\
                Router.folder g = sourceGroup
  | _ => True
  end.

(** [w'] has the registry of [w] and its trace with effects added that are
    all within the group's own chats. *)
Definition confinedStep (sourceGroup : string) (w w' : State) : Prop :=
  registeredGroups w' = registeredGroups w /\
  exists es, trace w' = trace w ++ es /\
             Forall (ownChat sourceGroup (registeredGroups w)) es.

(** The files of a subdirectory of a group's mailbox: those of the first
    directory of that name; none when there is no such directory. *)
Definition dirOf (sourceGroup : string) (sub : Subdir)
    (boxes : list (string * Mailbox)) : list (string * string) :=
  match find (fun e => (fst e =? sourceGroup)%string) boxes with
  | Some (_, m) =>
      match sub with messages => messagesDir m | tasksSub => tasksDir m end
  | None => []
  end.

Definition Subdir_eqb (a b : Subdir) : bool :=
  match a, b with
  | messages, messages | tasksSub, tasksSub => true
  | _, _ => false
  end.

(** The schedules that a schedule_task command may carry, with the next
    run they give: a cron expression that parses, an interval that parses
    to a positive number of milliseconds from which the date of the next
    run can be written, a timestamp that parses, or a schedule of any other
    type, which has no next run. *)
Inductive acceptedSchedule (host : Host)
  : string -> string -> option string -> Prop :=
| accepted_cron v next :
    cronNext host v = Some next -> acceptedSchedule host "cron" v (Some next)
| accepted_interval v ms next :
    parseInt host v = Some ms -> 0 < ms -> dateAfter host ms = Some next ->
    acceptedSchedule host "interval" v (Some next)
| accepted_once v next :
    parseDate host v = Some next -> acceptedSchedule host "once" v (Some next)
| accepted_other st v :
    st <> "cron" -> st <> "interval" -> st <> "once" ->
    acceptedSchedule host st v None.

(** A schedule_task command that is complete, allowed for its source,
    aimed at a registered folder and carrying an accepted schedule: prompt
    [p], schedule [st] and [v], target folder [tf] registered for the chat
    [j], next run [nextRun]. *)
Definition acceptedCommand (host : Host) (w : State) (data : IpcData)
    (sourceGroup : string) (isMain : bool)
    (p st v tf j : string) (nextRun : option string) : Prop :=
  prompt data = Some p /\ p <> "" /\
  schedule_type data = Some st /\ st <> "" /\
  schedule_value data = Some v /\ v <> "" /\
  groupFolder data = Some tf /\ tf <> "" /\
  (isMain = true \/ tf = sourceGroup) /\
  findJidByFolder tf (registeredGroups w) = Some j /\ j <> "" /\
  acceptedSchedule host st v nextRun.

End Confinement.

(** The group that the first direct message of a Discord user creates. *)
Definition dmGroup (now : string) (message : Router.DiscordMessage)
  : Router.RegisteredGroup :=
  Router.mkGroup ("DM: " ++ Router.author_username message)
    ("discord-dm-" ++ Router.author_id message) (Some "") now None.

Module MoreSamples.
Import Samples.

(** The mailbox of g3 holds a message for its own chat. *)
Definition ownMailState : Ipc.State :=
  Ipc.mkState [("chat2", group2); ("chat3", group3)] ∅
    [("g3", Ipc.mkMailbox [("1.json", rawMessage)] [])] ∅ [].

End MoreSamples.

(** The escaped form of one code unit, and the code units that escapeXml
    replaces other than the ampersand. *)
Definition escapeOne (x : ascii) : string :=
  if Ascii.eqb x "&" then "&amp;"
  else if Ascii.eqb x "<" then "&lt;"
  else if Ascii.eqb x ">" then "&gt;"
  else if Ascii.eqb x dquote then "&quot;"
  else String x "".

Definition isMarkup (c : ascii) : bool :=
  Ascii.eqb c "<" || Ascii.eqb c ">" || Ascii.eqb c dquote.

(** The code units that the folder of a sender keeps: [a-z0-9.@-]. *)
Definition isAddressChar (c : ascii) : bool :=
  RegExp.isLower c || RegExp.isDigit c
  || existsb (Ascii.eqb c) (list_ascii_of_string ".@-").

(** The code units that [.+?] of the address pattern can pass before the
    closing bracket, and those of a display name without an opening one. *)
Definition plainUnit (c : ascii) : bool :=
  RegExp.isNotLineTerminator c && negb (Ascii.eqb c ">").

Definition notOpening (c : ascii) : bool := negb (Ascii.eqb c "<").

(** ** String methods of the host language *)

Module JsString.

(** [s.replace(pat, by)] for a string pattern: the first occurrence is
    replaced; [by] holds no replacement pattern. *)
Fixpoint replaceFirst (pat by_ s : string) : string :=
  if String.prefix pat s
  then (by_ ++ substring (String.length pat)
                 (String.length s - String.length pat) s)%string
  else
    match s with
    | EmptyString => EmptyString
    | String c s' => String c (replaceFirst pat by_ s')
    end.

(** [s.split(c)[0]]: what comes before the first [c]; all of [s] when it
    holds none. *)
Fixpoint before (c : ascii) (s : string) : string :=
  match s with
  | EmptyString => EmptyString
  | String x s' => if Ascii.eqb x c then EmptyString else String x (before c s')
  end.

End JsString.

(** ** Outbound delivery (sendMessage, sendDiscordMessage,
       sendDiscordChunked, resolveDiscordChannel) *)

Module Delivery.

(** What [resolveDiscordChannel] returns: the text channel with that id, or
    the direct-message channel of the user with that id. *)
Inductive Channel : Type :=
| TextChannel (id : string)
| DMChannel (userId : string).

(** The calls that leave the process. *)
Inductive Effect : Type :=
| ChannelSend (channel : Channel) (chunk : string) (delivered : bool)
| SockSend (jid text : string) (delivered : bool)
| Info (msg : string)
| Error (msg : string).

(** The collaborators of a send. *)
Record Host : Type := mkHost {
  (** whether [getDiscordClient] resolves (a client exists, or the token is
      set and the login succeeds) *)
  clientReady : bool;
  (** [discord.channels.fetch(id)]: [None] when it rejects, else whether the
      result is a channel that is text based *)
  fetchChannel : string -> option bool;
  (** whether [discord.users.fetch(id)] and [user.createDM()] resolve *)
  openDM : string -> bool;
  (** whether [channel.send(chunk)] resolves, by the number of effects so
      far *)
  channelSend : nat -> Channel -> string -> bool;
  (** whether [sock.sendMessage(jid, { text })] resolves *)
  sockSend : nat -> string -> string -> bool
}.

Section WithHost.
Variable host : Host.

(** [resolveDiscordChannel]; [None] when it throws. *)
Definition resolveDiscordChannel (id : string) : option Channel :=
  if negb (clientReady host) then None
  else
    match fetchChannel host id with
    | Some true => Some (TextChannel id)
    | _ => if openDM host id then Some (DMChannel id) else None
    end.

(** The [for (const chunk of ...)] loop of [sendDiscordChunked]: a send
    that rejects ends it. *)
Fixpoint sendChunks (channel : Channel) (chunks : list string)
    (t : list Effect) : list Effect * Router.Completion :=
  match chunks with
  | [] => (t, Router.Returned)
  | chunk :: rest =>
      if channelSend host (length t) channel chunk
      then sendChunks channel rest (t ++ [ChannelSend channel chunk true])
      else (t ++ [ChannelSend channel chunk false], Router.Thrown)
  end.

(** [sendDiscordChunked]. The chunker's loop always ends
    (splitDiscordMessage is never [None]). *)
Definition sendDiscordChunked (channel : Channel) (text : string)
    (t : list Effect) : list Effect * Router.Completion :=
  match Chunker.splitDiscordMessage text with
  | Some chunks => sendChunks channel chunks t
  | None => (t, Router.Thrown)
  end.

(** [sendDiscordMessage] *)
Definition sendDiscordMessage (channelOrUserId text : string)
    (t : list Effect) : list Effect :=
  match resolveDiscordChannel channelOrUserId with
  | None => t ++ [Error "Failed to send Discord message"]
  | Some channel =>
      match sendDiscordChunked channel text t with
      | (t', Router.Returned) => t' ++ [Info "Discord message sent"]
      | (t', Router.Thrown) => t' ++ [Error "Failed to send Discord message"]
      end
  end.

(** [sendMessage] *)
Definition sendMessage (jid text : string) (t : list Effect) : list Effect :=
  if Email.startsWith "discord:" jid then
    sendDiscordMessage (JsString.replaceFirst "discord:" "" jid) text t
  else if sockSend host (length t) jid text
  then t ++ [SockSend jid text true; Info "Message sent"]
  else t ++ [SockSend jid text false; Error "Failed to send message"].

End WithHost.

(** The sends of [chunks] that [channel] accepted, in order. *)
Definition accepted (channel : Channel) (chunks : list string) : list Effect :=
  map (fun c => ChannelSend channel c true) chunks.

End Delivery.

(** ** WhatsApp identities (translateJid, the connection handler) *)

Module WhatsApp.

(** [sock.user]: [id] and the optional [lid]. *)
Record User : Type := mkUser {
  user_id : string;
  user_lid : option string
}.

(** [lidToPhoneMap] is a plain object, [{}], keyed by LID user: the map
    holds its own properties, and a read of a key that is not an own
    property finds the property that the object inherits from
    Object.prototype, if it has one of that name. *)
Definition prototypeNames : list string :=
  ["constructor"; "__defineGetter__"; "__defineSetter__"; "hasOwnProperty";
   "__lookupGetter__"; "__lookupSetter__"; "isPrototypeOf";
   "propertyIsEnumerable"; "toString"; "valueOf"; "__proto__";
   "toLocaleString"].

Definition isPrototypeName (key : string) : bool :=
  existsb (String.eqb key) prototypeNames.

(** What [lidToPhoneMap[key]] gives: the string of an own property, an
    inherited property (a function, or for [__proto__] the prototype: an
    object, and truthy, in either case), or [undefined]. *)
Inductive Read : Type :=
| Own (value : string)
| Inherited (name : string)
| Undefined.

Definition readKey (lidToPhoneMap : gmap string string) (key : string) : Read :=
  match lidToPhoneMap !! key with
  | Some value => Own value
  | None => if isPrototypeName key then Inherited key else Undefined
  end.

(** [lidToPhoneMap[key] = value] for a string [value]: under [__proto__]
    the assignment runs the inherited setter, which ignores a value that is
    neither an object nor null; any other key becomes an own property. *)
Definition writeKey (key value : string) (lidToPhoneMap : gmap string string)
  : gmap string string :=
  if (key =? "__proto__")%string then lidToPhoneMap
  else <[key := value]> lidToPhoneMap.

(** What [translateJid] returns: an identity, or the object it read from
    the prototype under [name]. *)
Inductive Translated : Type :=
| Jid (jid : string)
| NotAString (name : string).

(** [jid.split('@')[0].split(':')[0]] *)
Definition lidUserOf (jid : string) : string :=
  JsString.before ":" (JsString.before "@" jid).

(** [translateJid] *)
Definition translateJid (lidToPhoneMap : gmap string string) (jid : string)
  : Translated :=
  if negb (Ipc.endsWith "@lid" jid) then Jid jid
  else
    match readKey lidToPhoneMap (lidUserOf jid) with
    | Own phoneJid => if truthy (Some phoneJid) then Jid phoneJid else Jid jid
    | Inherited name => NotAString name
    | Undefined => Jid jid
    end.

(** The update of [lidToPhoneMap] when the connection opens. *)
Definition onOpen (user : option User) (lidToPhoneMap : gmap string string)
  : gmap string string :=
  match user with
  | None => lidToPhoneMap
  | Some u =>
      let phoneUser := JsString.before ":" (user_id u) in
      let lidUser := option_map (JsString.before ":") (user_lid u) in
      if truthy lidUser && truthy (Some phoneUser)
      then writeKey (default "" lidUser) (phoneUser ++ "@s.whatsapp.net")
             lidToPhoneMap
      else lidToPhoneMap
  end.

(** The map after the connection has opened for each of [users] in turn,
    starting from the empty map of a fresh process. *)
Definition mapAfter (users : list (option User)) : gmap string string :=
  fold_left (fun m u => onOpen u m) users ∅.

(** Every value of the map is a phone identity. *)
Definition phoneValued (m : gmap string string) : Prop :=
  forall k v, m !! k = Some v -> exists p, v = (p ++ "@s.whatsapp.net")%string.

End WhatsApp.

(** ** The Discord tools of the agent (createDiscordTools, executeIpc,
       waitForResult, writeIpcFile, checkPermission, validateSnowflake) *)

Module Tools.
Import RegExp.

Record SkillToolsContext : Type := mkContext {
  groupFolder : string;
  isMain : bool;
  isScheduledTask : option bool
}.

Definition permissionText : string :=
  "Only the main group can use Discord tools interactively. Scheduled tasks can use any tool.".

(** [checkPermission]: [None] is [null]. *)
Definition checkPermission (isMain : bool) (isScheduledTask : option bool)
  : option string :=
  if negb (default false isScheduledTask) && negb isMain
  then Some permissionText else None.

(** [/^\d+$/] *)
Definition snowflakeRegExp : re :=
  Seq AssertStart (Seq (Plus (Class isDigit)) AssertEnd).

(** [validateSnowflake]: [None] is [null]. *)
Definition validateSnowflake (id fieldName : string) : option string :=
  match exec false snowflakeRegExp id with
  | None =>
      Some ("Invalid " ++ fieldName
            ++ ". Must be a Discord snowflake ID (numeric string).")%string
  | Some _ => None
  end.

(** A value of a payload field; [Undefined] fields are left out of the
    file by JSON.stringify. *)
Inductive Value : Type :=
| Str (s : string)
| Num (n : Z)
| NaN
| Undefined.

Definition Object : Type := list (string * Value).

(** [{ ...o, [key]: v }]: an existing key keeps its place, a new key goes
    last. *)
Fixpoint assign (key : string) (v : Value) (o : Object) : Object :=
  match o with
  | [] => [(key, v)]
  | (k, v0) :: rest =>
      if (k =? key)%string then (k, v) :: rest
      else (k, v0) :: assign key v rest
  end.

Fixpoint lookup (key : string) (o : Object) : option Value :=
  match o with
  | [] => None
  | (k, v) :: rest => if (k =? key)%string then Some v else lookup key rest
  end.

Definition optional (o : option string) : Value :=
  match o with Some s => Str s | None => Undefined end.

(** The arguments of a tool call, as the SDK hands them to the handler. *)
Inductive Call : Type :=
| discord_send (channel_id content : string)
| discord_reply (channel_id message_id content : string)
| discord_react (channel_id message_id emoji : string)
| discord_edit (channel_id message_id content : string)
| discord_delete (channel_id message_id : string)
| discord_pin (channel_id message_id : string)
| discord_unpin (channel_id message_id : string)
| discord_get_messages (channel_id : string) (limit : Z) (before : option string)
| discord_create_thread (channel_id name : string) (message_id : option string)
    (auto_archive_duration : string)
| discord_list_channels (guild_id : string)
| discord_get_channel_info (channel_id : string)
| discord_get_user (user_id : string)
| discord_list_members (guild_id : string) (limit : Z)
| discord_dm (user_id content : string)
| discord_list_guilds
| discord_get_guild_info (guild_id : string)
| discord_webhook_send (webhook_url content : string)
    (username avatar_url : option string).

(** What the host wrote for a request, as [waitForResult] finds it. *)
Record Result : Type := mkResult {
  success : bool;
  message : string;
  (** [JSON.stringify(result.data, null, 2)] when [result.data] is truthy *)
  data : option string
}.

Inductive FileState : Type :=
| Absent
| Unreadable (err : string)
| Holds (result : Result).

Record ToolOutput : Type := mkOutput {
  text : string;
  isError : bool
}.

(** The collaborators of the tools. *)
Record Host : Type := mkHost {
  (** [Date.now()] in decimal, by the number of readings so far *)
  now : nat -> string;
  (** [Math.random().toString(36).slice(2, 8)], by the number of draws so
      far *)
  random : nat -> string;
  (** [new Date().toISOString()] *)
  isoNow : nat -> string;
  (** [parseInt(s, 10)]; [None] for NaN *)
  parseInt : string -> option Z;
  (** the result file of a request at the [n]-th poll: absent, not readable
      (reading, parsing or removing it throws, with the error's text), or
      holding an object { success, message, data? } *)
  resultFile : string -> nat -> FileState
}.

Record State : Type := mkState {
  (** /workspace/ipc/tasks: the files written, oldest first *)
  tasksDir : list (string * Object);
  (** the result files removed after reading *)
  unlinked : list string;
  (** the number of polls of the results directory so far *)
  polls : nat
}.

Section WithHost.
Variable host : Host.

(** [writeIpcFile(TASKS_DIR, data)]: the file appears under its final name
    in one step (it is written under a temporary name and renamed). Each
    request reads the clock and draws a random suffix twice: for its id,
    then for its file name. *)
Definition writeIpcFile (data : Object) (w : State) : State * string :=
  let n := length (tasksDir w) in
  let filename :=
    (now host (2 * n + 1) ++ "-" ++ random host (2 * n + 1) ++ ".json")%string in
  (mkState (tasksDir w ++ [(filename, data)]) (unlinked w) (polls w), filename).

(** The directory between the [writeFileSync] and the [renameSync] of
    [writeIpcFile]. *)
Definition duringWrite (data : Object) (w : State) : State :=
  let filename := snd (writeIpcFile data w) in
  mkState (tasksDir w ++ [((filename ++ ".tmp")%string, data)]) (unlinked w)
    (polls w).

(** The [while (elapsed < maxWait)] loop of [waitForResult]; [fuel] bounds
    the number of iterations, [None] means the bound was reached. *)
Fixpoint waitLoop (fuel : nat) (requestId : string) (elapsed maxWait : Z)
    (w : State) : option (State * Result) :=
  if elapsed <? maxWait then
    match resultFile host requestId (polls w) with
    | Holds result =>
        Some (mkState (tasksDir w) (unlinked w ++ [requestId]) (S (polls w)),
              result)
    | Unreadable err =>
        Some (mkState (tasksDir w) (unlinked w) (S (polls w)),
              mkResult false ("Failed to read result: " ++ err) None)
    | Absent =>
        match fuel with
        | O => None
        | S fuel' =>
            waitLoop fuel' requestId (elapsed + 500) maxWait
              (mkState (tasksDir w) (unlinked w) (S (polls w)))
        end
    end
  else Some (w, mkResult false "Request timed out" None).

(** [waitForResult(requestId, maxWait)] *)
Definition waitForResult (requestId : string) (maxWait : Z) (w : State)
  : option (State * Result) :=
  waitLoop (Z.to_nat (maxWait / 500 + 1)) requestId 0 maxWait w.

(** [executeIpc] *)
Definition executeIpc (ctx : SkillToolsContext) (type : string)
    (payload : Object) (w : State) : option (State * ToolOutput) :=
  let n := length (tasksDir w) in
  let requestId :=
    (type ++ "-" ++ now host (2 * n) ++ "-" ++ random host (2 * n))%string in
  let envelope :=
    assign "timestamp" (Str (isoNow host n))
      (assign "groupFolder" (Str (groupFolder ctx))
         (fold_left (fun o kv => assign (fst kv) (snd kv) o) payload
            [("type", Str type); ("requestId", Str requestId)])) in
  let '(w1, _) := writeIpcFile envelope w in
  match waitForResult requestId 30000 w1 with
  | None => None
  | Some (w2, result) =>
      let text :=
        match data result with
        | Some pretty =>
            (message result ++ String newline (String newline "Data:")
             ++ String newline pretty)%string
        | None => message result
        end in
      Some (w2, mkOutput text (negb (success result)))
  end.

Definition typeOf (call : Call) : string :=
  match call with
  | discord_send _ _ => "discord_send"
  | discord_reply _ _ _ => "discord_reply"
  | discord_react _ _ _ => "discord_react"
  | discord_edit _ _ _ => "discord_edit"
  | discord_delete _ _ => "discord_delete"
  | discord_pin _ _ => "discord_pin"
  | discord_unpin _ _ => "discord_unpin"
  | discord_get_messages _ _ _ => "discord_get_messages"
  | discord_create_thread _ _ _ _ => "discord_create_thread"
  | discord_list_channels _ => "discord_list_channels"
  | discord_get_channel_info _ => "discord_get_channel_info"
  | discord_get_user _ => "discord_get_user"
  | discord_list_members _ _ => "discord_list_members"
  | discord_dm _ _ => "discord_dm"
  | discord_list_guilds => "discord_list_guilds"
  | discord_get_guild_info _ => "discord_get_guild_info"
  | discord_webhook_send _ _ _ _ => "discord_webhook_send"
  end.

(** The payload each handler passes to [executeIpc]. *)
Definition payloadOf (call : Call) : Object :=
  match call with
  | discord_send channel_id content =>
      [("channelId", Str channel_id); ("content", Str content)]
  | discord_reply channel_id message_id content =>
      [("channelId", Str channel_id); ("messageId", Str message_id);
       ("content", Str content)]
  | discord_react channel_id message_id emoji =>
      [("channelId", Str channel_id); ("messageId", Str message_id);
       ("emoji", Str emoji)]
  | discord_edit channel_id message_id content =>
      [("channelId", Str channel_id); ("messageId", Str message_id);
       ("content", Str content)]
  | discord_delete channel_id message_id
  | discord_pin channel_id message_id
  | discord_unpin channel_id message_id =>
      [("channelId", Str channel_id); ("messageId", Str message_id)]
  | discord_get_messages channel_id limit before =>
      [("channelId", Str channel_id); ("limit", Num limit);
       ("before", optional before)]
  | discord_create_thread channel_id name message_id auto_archive_duration =>
      [("channelId", Str channel_id); ("name", Str name);
       ("messageId", optional message_id);
       ("autoArchiveDuration",
        match parseInt host auto_archive_duration with
        | Some n => Num n
        | None => NaN
        end)]
  | discord_list_channels guild_id => [("guildId", Str guild_id)]
  | discord_get_channel_info channel_id => [("channelId", Str channel_id)]
  | discord_get_user user_id => [("userId", Str user_id)]
  | discord_list_members guild_id limit =>
      [("guildId", Str guild_id); ("limit", Num limit)]
  | discord_dm user_id content =>
      [("userId", Str user_id); ("content", Str content)]
  | discord_list_guilds => []
  | discord_get_guild_info guild_id => [("guildId", Str guild_id)]
  | discord_webhook_send webhook_url content username avatar_url =>
      [("webhookUrl", Str webhook_url); ("content", Str content);
       ("username", optional username); ("avatarUrl", optional avatar_url)]
  end.

(** The identifiers a handler validates before it writes anything: those of
    discord_send and discord_reply only. *)
Definition validate (call : Call) : option string :=
  match call with
  | discord_send channel_id _ => validateSnowflake channel_id "channel_id"
  | discord_reply channel_id message_id _ =>
      match validateSnowflake channel_id "channel_id" with
      | Some err => Some err
      | None => validateSnowflake message_id "message_id"
      end
  | _ => None
  end.

(** The handler of a tool. *)
Definition handle (ctx : SkillToolsContext) (call : Call) (w : State)
  : option (State * ToolOutput) :=
  match checkPermission (isMain ctx) (isScheduledTask ctx) with
  | Some permErr => Some (w, mkOutput permErr true)
  | None =>
      match validate call with
      | Some idErr => Some (w, mkOutput idErr true)
      | None => executeIpc ctx (typeOf call) (payloadOf call) w
      end
  end.

End WithHost.

(** The number of polls that [maxWait] allows, one every 500 ms. *)
Definition pollBudget (maxWait : Z) : nat := Z.to_nat ((maxWait + 499) / 500).

(** The result file of the request is absent at the next [n] polls. *)
Definition absentFor (host : Host) (requestId : string) (w : State) (n : nat)
  : Prop :=
  forall j, (j < n)%nat -> resultFile host requestId (polls w + j) = Absent.

(** A string of decimal digits, at least one. *)
Definition isNumeric (s : string) : bool :=
  negb (s =? "")%string && forallb isDigit (list_ascii_of_string s).

End Tools.

(** ** Host-change requests: discovery and buttons (scanForHostChanges,
       findChatJid, handleDiscordButtonInteraction) *)

Module HostChanges.
Import RegExp Approval.

(** [findChatJid]: [None] is [null]. *)
Fixpoint findChatJid (groupFolder : string)
    (registeredGroups : list (string * Router.RegisteredGroup))
  : option string :=
  match registeredGroups with
  | [] => None
  | (jid, group) :: rest =>
      if (Router.folder group =? groupFolder)%string then Some jid
      else findChatJid groupFolder rest
  end.

(** [pendingRequests.set(id, request)]: an existing key keeps its place and
    gets the new value, a new key goes last. *)
Fixpoint setRequest (r : HostModificationRequest) (reqs : Requests) : Requests :=
  match reqs with
  | [] => [r]
  | x :: rest =>
      if (id x =? id r)%string then r :: rest else x :: setRequest r rest
  end.

Definition setFilePath (p : string) (r : HostModificationRequest) :=
  mkRequest (id r) (groupFolder r) (chatJid r) (summary r) p
    (timestamp r) (status r) (approvedBy r) (error r).

(** The message with the two buttons. *)
Record Card : Type := mkCard {
  card_target : string;
  card_content : string;
  approveId : string;
  denyId : string
}.

(** The collaborators of the scan. *)
Record Host : Type := mkHost {
  (** config.ts; a normalized path *)
  GROUPS_DIR : string;
  (** the directories under GROUPS_DIR, in readdir order; [None] when
      reading it throws *)
  listGroupFolders : option (list string);
  (** [parseSummary] *)
  parseSummary : string -> string;
  (** whether [deps.discordClient()] is a client *)
  discordClient : bool;
  (** whether resolving the target and sending the card all resolve, by the
      channel id *)
  cardSent : string -> bool;
  (** whether [fs.renameSync] succeeds, by the two paths *)
  renameOk : string -> string -> bool;
  (** [Date.now()] in decimal and [new Date().toISOString()], by the number
      of requests made so far *)
  now : nat -> string;
  isoNow : nat -> string
}.

Record State : Type := mkState {
  requests : Requests;
  (** the number of requests made so far *)
  made : nat;
  (** the files under GROUPS_DIR that the scan looks at: content by path *)
  files : gmap string string;
  registeredGroups : list (string * Router.RegisteredGroup);
  cards : list Card;
  trace : list Event
}.

Definition emit (es : list Event) (w : State) : State :=
  mkState (requests w) (made w) (files w) (registeredGroups w) (cards w)
    (trace w ++ es).
Definition set_requests (v : Requests) (w : State) : State :=
  mkState v (made w) (files w) (registeredGroups w) (cards w) (trace w).
Definition set_files (v : gmap string string) (w : State) : State :=
  mkState (requests w) (made w) v (registeredGroups w) (cards w) (trace w).

Definition isPendingFor (folder : string) (r : HostModificationRequest) : bool :=
  (groupFolder r =? folder)%string && Status_eqb (status r) pending.

Section WithHost.
Variable host : Host.

(** [path.join(GROUPS_DIR, folder, 'PENDING_HOST_CHANGES.md')] for a
    directory name. *)
Definition pendingFileOf (folder : string) : string :=
  (GROUPS_DIR host ++ "/" ++ folder ++ "/PENDING_HOST_CHANGES.md")%string.

Definition cardText (id folder summary : string) : string :=
  ("**Host Changes Request** (`" ++ id ++ "`)" ++ Router.nl
   ++ "**Group:** " ++ folder ++ Router.nl
   ++ "**Summary:** " ++ summary ++ Router.nl ++ Router.nl
   ++ "Review the full plan at `groups/" ++ folder
   ++ "/PENDING_HOST_CHANGES.md`")%string.

Definition fallbackText (folder summary : string) : string :=
  ("**Host Changes Request**" ++ Router.nl
   ++ "**Group:** " ++ folder ++ Router.nl
   ++ "**Summary:** " ++ summary ++ Router.nl ++ Router.nl
   ++ "Reply `approve` or `deny`")%string.

Definition plainText (folder summary : string) : string :=
  ("Host Changes Request" ++ Router.nl
   ++ "Group: " ++ folder ++ Router.nl
   ++ "Summary: " ++ summary ++ Router.nl ++ Router.nl
   ++ "Reply " ++ String dquote "approve" ++ String dquote " or "
   ++ String dquote "deny" ++ String dquote "")%string.

(** The body of the [for (const folder of groupFolders)] loop. *)
Definition scanFolder (w : State) (folder : string)
  : State * Router.Completion :=
  let pendingFile := pendingFileOf folder in
  match files w !! pendingFile with
  | None => (w, Router.Returned)
  | Some content =>
      if existsb (isPendingFor folder) (requests w) then (w, Router.Returned)
      else
        match findChatJid folder (registeredGroups w) with
        | None =>
            (emit [LogWarn "Host changes file found but no registered group"] w,
             Router.Returned)
        | Some chat =>
            if negb (truthy (Some chat)) then
              (emit [LogWarn "Host changes file found but no registered group"] w,
               Router.Returned)
            else
              let summary := parseSummary host content in
              let id := ("hc-" ++ now host (made w))%string in
              let request :=
                mkRequest id folder chat summary pendingFile
                  (isoNow host (made w)) pending None None in
              let w1 :=
                emit [LogInfo "New host changes request found"]
                  (mkState (setRequest request (requests w)) (S (made w))
                     (files w) (registeredGroups w) (cards w) (trace w)) in
              let w2 :=
                if Email.startsWith "discord:" chat then
                  if discordClient host then
                    let channelId := JsString.replaceFirst "discord:" "" chat in
                    if cardSent host channelId then
                      mkState (requests w1) (made w1) (files w1)
                        (registeredGroups w1)
                        (cards w1
                         ++ [mkCard channelId (cardText id folder summary)
                               ("hc_approve_" ++ id) ("hc_deny_" ++ id)])
                        (trace w1)
                    else
                      emit [LogError "Failed to send Discord approval request";
                            Sent chat (fallbackText folder summary)] w1
                  else w1
                else emit [Sent chat (plainText folder summary)] w1 in
              let notifiedFile :=
                JsString.replaceFirst ".md" ".notified.md" pendingFile in
              if renameOk host pendingFile notifiedFile then
                (set_requests
                   (update id (setFilePath notifiedFile) (requests w2))
                   (set_files
                      (<[notifiedFile := content]> (delete pendingFile (files w2)))
                      w2),
                 Router.Returned)
              else (w2, Router.Thrown)
        end
  end.

(** The loop: a folder whose step throws ends the scan. *)
Fixpoint scanFolders (w : State) (folders : list string)
  : State * Router.Completion :=
  match folders with
  | [] => (w, Router.Returned)
  | folder :: rest =>
      match scanFolder w folder with
      | (w', Router.Returned) => scanFolders w' rest
      | (w', Router.Thrown) => (w', Router.Thrown)
      end
  end.

(** [scanForHostChanges] *)
Definition scanForHostChanges (w : State) : State * Router.Completion :=
  match listGroupFolders host with
  | None => (w, Router.Returned)
  | Some groupFolders => scanFolders w groupFolders
  end.

End WithHost.

(** The number of pending requests of a folder. *)
Definition pendingFor (folder : string) (reqs : Requests) : nat :=
  length (List.filter (isPendingFor folder) reqs).

(** No folder has two pending requests. *)
Definition onePendingPerFolder (reqs : Requests) : Prop :=
  forall folder, (pendingFor folder reqs <= 1)%nat.

(** *** Buttons *)

(** What the handler does with the interaction itself. *)
Inductive Reaction : Type :=
| Reply (content : string)
| Update (content : string).

Record Interaction : Type := mkInteraction {
  customId : string;
  username : string;
  message_content : string
}.

(** [/^hc_(approve|deny)_/] *)
Definition buttonRegExp : re :=
  Seq AssertStart
    (Seq (lit "hc_") (Seq (Group 1 (Alt (lit "approve") (lit "deny"))) (lit "_"))).

(** [s.replace(r, '')] for a pattern anchored at the start: what follows
    the match at index 0, or [s] when there is none. *)
Definition removeAtStart (r : re) (s : string) : string :=
  let input := list_ascii_of_string s in
  match matchAt false input r 0 with
  | Some (e, _) => string_of_list_ascii (skipn e input)
  | None => s
  end.

Definition statusName (s : Status) : string :=
  match s with
  | pending => "pending"
  | approved => "approved"
  | denied => "denied"
  | applied => "applied"
  | failed => "failed"
  end.

Record ButtonRun : Type := mkButtonRun {
  run_requests : Requests;
  reactions : list Reaction;
  run_effects : list Event;
  completion : Router.Completion
}.

Section Buttons.
Variable applyPlan : string -> ApplyOutcome.
(** whether [interaction.reply] and [interaction.update] resolve *)
Variable replyResolves : bool.
Variable updateResolves : bool.

(** [handleDiscordButtonInteraction] *)
Definition handleDiscordButtonInteraction (reqs : Requests)
    (interaction : Interaction) : ButtonRun :=
  let customId := customId interaction in
  if negb (Email.startsWith "hc_approve_" customId)
     && negb (Email.startsWith "hc_deny_" customId)
  then mkButtonRun reqs [] [] Router.Returned
  else
    let approve := Email.startsWith "hc_approve_" customId in
    let requestId := removeAtStart buttonRegExp customId in
    match get requestId reqs with
    | None =>
        mkButtonRun reqs [Reply "Unknown or expired request."] []
          (if replyResolves then Router.Returned else Router.Thrown)
    | Some request =>
        if negb (Status_eqb (status request) pending) then
          mkButtonRun reqs
            [Reply ("Request already " ++ statusName (status request) ++ ".")]
            [] (if replyResolves then Router.Returned else Router.Thrown)
        else
          let note :=
            (message_content interaction ++ Router.nl ++ Router.nl
             ++ (if approve then "Approved" else "Denied") ++ " by "
             ++ username interaction)%string in
          if updateResolves then
            let run :=
              handleApproval applyPlan reqs requestId approve
                (username interaction) in
            mkButtonRun (final run) [Update note] (effects run) Router.Returned
          else mkButtonRun reqs [Update note] [] Router.Thrown
    end.

End Buttons.

End HostChanges.

(** ** Reading the mailbox (parseSearchResults, parseReadEmail,
       checkForNewEmails) *)

Module EmailParse.
Import RegExp.

(** [s.split(c)] for a one-character separator. *)
Fixpoint splitOn (c : ascii) (s : string) : list string :=
  match s with
  | EmptyString => [EmptyString]
  | String x s' =>
      if Ascii.eqb x c then EmptyString :: splitOn c s'
      else
        match splitOn c s' with
        | l :: ls => String x l :: ls
        | [] => [String x EmptyString]
        end
  end.

(** [s.indexOf(c)] for a one-character needle; [None] is [-1]. *)
Fixpoint indexOf (c : ascii) (s : string) : option nat :=
  match s with
  | EmptyString => None
  | String x s' =>
      if Ascii.eqb x c then Some 0%nat else option_map S (indexOf c s')
  end.

(** [text.indexOf('\n\n')]; [None] is [-1]. *)
Fixpoint indexOfBlank (s : string) : option nat :=
  match s with
  | String a ((String b _) as rest) =>
      if Ascii.eqb a newline && Ascii.eqb b newline then Some 0%nat
      else option_map S (indexOfBlank rest)
  | _ => None
  end.

(** [s.slice(from)] and [s.slice(0, to)] for indices within the string. *)
Definition sliceFrom (from : nat) (s : string) : string :=
  substring from (String.length s - from) s.
Definition sliceTo (to : nat) (s : string) : string := substring 0 to s.

(** The key and the value of a header line: [None] when the line has no
    colon. *)
Definition keyValue (line : string) : option (string * string) :=
  match indexOf ":" line with
  | None => None
  | Some colonIdx =>
      Some (toLowerCase (trim (sliceTo colonIdx line)),
            trim (sliceFrom (colonIdx + 1) line))
  end.

Record Summary : Type := mkSummary {
  s_id : string;
  s_subject : string;
  s_from : string;
  s_date : string
}.

(** The body of the loop over the lines of a block. *)
Definition summaryLine (acc : Summary) (line : string) : Summary :=
  match keyValue line with
  | None => acc
  | Some (key, val) =>
      if (key =? "id")%string
      then mkSummary val (s_subject acc) (s_from acc) (s_date acc)
      else if (key =? "subject")%string
      then mkSummary (s_id acc) val (s_from acc) (s_date acc)
      else if (key =? "from")%string
      then mkSummary (s_id acc) (s_subject acc) val (s_date acc)
      else if (key =? "date")%string
      then mkSummary (s_id acc) (s_subject acc) (s_from acc) val
      else acc
  end.

(** The body of the loop over the blocks. *)
Definition summaryBlock (results : list Summary) (block : string)
  : list Summary :=
  if negb (truthy (Some (trim block))) then results
  else
    let summary :=
      fold_left summaryLine (splitOn newline (trim block))
        (mkSummary "" "" "" "") in
    if truthy (Some (s_id summary)) then results ++ [summary] else results.

(** [/\n\s*\n/] *)
Definition blankLinesRegExp : re :=
  Seq (Char newline) (Seq (Star (Class isWhiteSpace)) (Char newline)).

(** [text.split(r)] for a pattern without captures: [p] is the end of the
    last separator, [q] the position tried next; [fuel] bounds the
    number of iterations (a position is tried at most twice). *)
Fixpoint splitLoop (r : re) (input : list ascii) (fuel p q : nat)
  : list string :=
  let piece (a b : nat) :=
    string_of_list_ascii (firstn (b - a) (skipn a input)) in
  match fuel with
  | O => [piece p (length input)]
  | S fuel' =>
      if (length input <=? q)%nat then [piece p (length input)]
      else
        match matchAt false input r q with
        | None => splitLoop r input fuel' p (S q)
        | Some (e, _) =>
            if (e =? p)%nat then splitLoop r input fuel' p (S q)
            else piece p q :: splitLoop r input fuel' e e
        end
  end.

Definition splitRegExp (r : re) (s : string) : list string :=
  let input := list_ascii_of_string s in
  match input with
  | [] =>
      match matchAt false input r 0 with
      | Some _ => []
      | None => [s]
      end
  | _ => splitLoop r input (2 * length input) 0 0
  end.

(** [parseSearchResults] *)
Definition parseSearchResults (text : string) : list Summary :=
  fold_left summaryBlock (splitRegExp blankLinesRegExp text) [].

Record ReadEmail : Type := mkRead {
  r_threadId : string;
  r_from : string;
  r_subject : string;
  r_date : string;
  r_body : string
}.

(** The body of the loop over the header lines. *)
Definition headerLine (acc : ReadEmail) (line : string) : ReadEmail :=
  match keyValue line with
  | None => acc
  | Some (key, val) =>
      if (key =? "thread id")%string
      then mkRead val (r_from acc) (r_subject acc) (r_date acc) (r_body acc)
      else if (key =? "from")%string
      then mkRead (r_threadId acc) val (r_subject acc) (r_date acc) (r_body acc)
      else if (key =? "subject")%string
      then mkRead (r_threadId acc) (r_from acc) val (r_date acc) (r_body acc)
      else if (key =? "date")%string
      then mkRead (r_threadId acc) (r_from acc) (r_subject acc) val (r_body acc)
      else acc
  end.

(** [parseReadEmail] *)
Definition parseReadEmail (text : string) : ReadEmail :=
  let blankIdx := indexOfBlank text in
  let headerSection :=
    match blankIdx with None => text | Some i => sliceTo i text end in
  let body :=
    match blankIdx with None => EmptyString | Some i => sliceFrom (i + 2) text end in
  fold_left headerLine (splitOn newline headerSection)
    (mkRead "" "" "" "" body).

Inductive TriggerMode : Type := label | address | subjectMode.

(** The collaborators of a poll. *)
Record Host : Type := mkHost {
  (** EMAIL_CHANNEL of config.ts *)
  triggerMode : TriggerMode;
  triggerValue : string;
  (** [gmailMcpCall('search_emails', { query, maxResults: 25 })]; [None]
      when it rejects *)
  searchEmails : string -> option string;
  (** [gmailMcpCall('read_email', { messageId })]; [None] when it rejects *)
  readEmail : string -> option string
}.

Definition orElse (a b : string) : string :=
  if truthy (Some a) then a else b.

Section WithHost.
Variable host : Host.

Definition query : string :=
  match triggerMode host with
  | label => ("label:" ++ triggerValue host ++ " is:unread")%string
  | address => ("to:" ++ triggerValue host ++ " is:unread")%string
  | subjectMode =>
      ("subject:" ++ String dquote (triggerValue host)
       ++ String dquote " is:unread")%string
  end.

(** The body of the loop over the summaries. *)
Definition readOne (acc : list Email.EmailMessage * list Event)
    (summary : Summary) : list Email.EmailMessage * list Event :=
  match readEmail host (s_id summary) with
  | None => (fst acc, snd acc ++ [LogError "Gmail read_email failed"])
  | Some readText =>
      let parsed := parseReadEmail readText in
      (fst acc
       ++ [Email.mkEmail (s_id summary)
             (orElse (r_threadId parsed) (s_id summary))
             (orElse (r_from parsed) (s_from summary))
             (orElse (r_subject parsed) (s_subject summary))
             (r_body parsed)
             (orElse (r_date parsed) (s_date summary))],
       snd acc)
  end.

(** [checkForNewEmails]: the messages and the log lines. *)
Definition checkForNewEmails : list Email.EmailMessage * list Event :=
  match searchEmails host query with
  | None => ([], [LogError "Gmail search failed"])
  | Some searchText =>
      let summaries := parseSearchResults searchText in
      match summaries with
      | [] => ([], [])
      | _ :: _ =>
          fold_left readOne summaries ([], [LogInfo "Gmail found new emails"])
      end
  end.

End WithHost.

(** The header fields of two results agree. *)
Definition sameHeaders (a b : ReadEmail) : Prop :=
  r_threadId a = r_threadId b /\ r_from a = r_from b /\
  r_subject a = r_subject b /\ r_date a = r_date b.

End EmailParse.

(** ** Starting the loops (the connection handler, startIpcWatcher,
       startMessageLoop) *)

Module Startup.

Record Flags : Type := mkFlags {
  messageLoopRunning : bool;
  ipcWatcherRunning : bool;
  groupSyncTimerStarted : bool
}.

(** What a call starts. *)
Inductive Started : Type :=
| SyncTimer
| SchedulerLoop
| IpcWatcher
| MessageLoop
| Skipped (msg : string).

(** The flags of a fresh process. *)
Definition initial : Flags := mkFlags false false false.

(** [startIpcWatcher]: the guard and what follows it. *)
Definition startIpcWatcher (f : Flags) : Flags * list Started :=
  if ipcWatcherRunning f then
    (f, [Skipped "IPC watcher already running, skipping duplicate start"])
  else
    (mkFlags (messageLoopRunning f) true (groupSyncTimerStarted f), [IpcWatcher]).

(** [startMessageLoop]: the guard and what follows it; the loop it enters
    never ends, so the flag is never cleared. *)
Definition startMessageLoop (f : Flags) : Flags * list Started :=
  if messageLoopRunning f then
    (f, [Skipped "Message loop already running, skipping duplicate start"])
  else
    (mkFlags true (ipcWatcherRunning f) (groupSyncTimerStarted f), [MessageLoop]).

(** The [connection === 'open'] branch of the connection handler. *)
Definition onConnectionOpen (f : Flags) : Flags * list Started :=
  let '(f1, timer) :=
    if negb (groupSyncTimerStarted f)
    then (mkFlags (messageLoopRunning f) (ipcWatcherRunning f) true, [SyncTimer])
    else (f, []) in
  let '(f2, watcher) := startIpcWatcher f1 in
  let '(f3, loop) := startMessageLoop f2 in
  (f3, timer ++ [SchedulerLoop] ++ watcher ++ loop).

(** The connection opens [n] times. *)
Fixpoint opens (n : nat) (f : Flags) : Flags * list Started :=
  match n with
  | O => (f, [])
  | S n' =>
      let '(f1, started) := onConnectionOpen f in
      let '(f2, later) := opens n' f1 in
      (f2, started ++ later)
  end.

Definition Started_eqb (a b : Started) : bool :=
  match a, b with
  | SyncTimer, SyncTimer | SchedulerLoop, SchedulerLoop
  | IpcWatcher, IpcWatcher | MessageLoop, MessageLoop => true
  | _, _ => false
  end.

Definition starts (what : Started) (l : list Started) : nat :=
  length (List.filter (Started_eqb what) l).

End Startup.

(** ** More sample collaborators and states *)

Module ScanSamples.
Import Samples.

Definition discordGroup : Router.RegisteredGroup :=
  Router.mkGroup "Zero" "g0" (Some "@bot") "2026-01-01T00:00:00.000Z" None.

(** Three group folders with a plan each: g0 is registered for a Discord
    chat, g1 for a WhatsApp chat, ghost for none. *)
Definition scanHost : HostChanges.Host :=
  HostChanges.mkHost "/srv/nanoclaw/groups" (Some ["g0"; "g1"; "ghost"])
    (fun _ => "Add a channel") true (fun _ => true) (fun _ _ => true)
    (fun n => ("170000000000" ++ String (ascii_of_nat (48 + n)) "")%string)
    (fun _ => "2026-11-03T09:00:00.000Z").

Definition scanState : HostChanges.State :=
  HostChanges.mkState [] 0
    {[ "/srv/nanoclaw/groups/g0/PENDING_HOST_CHANGES.md" := "plan zero";
       "/srv/nanoclaw/groups/g1/PENDING_HOST_CHANGES.md" := "plan one";
       "/srv/nanoclaw/groups/ghost/PENDING_HOST_CHANGES.md" := "plan" ]}
    [("discord:42", discordGroup); ("chat1", group1)] [] [].

Definition denyById : Router.NewMessage :=
  Router.mkMessage "m3" "chat1" "Ann" " deny hc-12 " "2026-11-03T10:00:02.000Z".

Definition senderHost : Email.Host :=
  Email.mkHost Email.sender None agentOk (fun _ _ => false)
    (fun _ => "2026-11-03T00:00:00.000Z") (fun _ => true).

Definition senderInput : ContainerInput :=
  mkContainerInput (Email.emailPrompt email1) None
    "email-sender-ann@example.org" "email:Ann <ann@example.org>" false.

End ScanSamples.

(** * Part II: properties *)

Lemma truthy_Some (o : option string) :
  truthy o = true <-> exists s, o = Some s /\ s <> "".
Proof.
  destruct o as [s|]; simpl.
  - rewrite negb_true_iff. split.
    + intros H. exists s. split; [reflexivity|]. intros ->. discriminate.
    + intros (s' & [= <-] & Hne). apply String.eqb_neq. exact Hne.
  - split; [discriminate|]. intros (s & H & _). discriminate.
Qed.

(** ** The chunker *)

Module ChunkerSpec.
Import Chunker.

Lemma lastIndexOf_range c s from :
  -1 <= lastIndexOf c s from <= Z.of_nat from /\
  lastIndexOf c s from < Z.of_nat (length s).
Proof.
  revert from. induction s as [|x s IH]; intros from; simpl.
  - lia.
  - destruct from as [|from].
    + destruct (Ascii.eqb x c); lia.
    + specialize (IH from).
      destruct (0 <=? lastIndexOf c s from) eqn:E.
      * apply Z.leb_le in E. lia.
      * destruct (Ascii.eqb x c); lia.
Qed.

Lemma lastIndexOf_hit c s from :
  0 <= lastIndexOf c s from ->
  nth_error s (Z.to_nat (lastIndexOf c s from)) = Some c.
Proof.
  revert from. induction s as [|x s IH]; intros from; simpl.
  - lia.
  - destruct from as [|from].
    + destruct (Ascii.eqb x c) eqn:E; [|lia].
      apply Ascii.eqb_eq in E. subst. reflexivity.
    + destruct (0 <=? lastIndexOf c s from) eqn:E.
      * apply Z.leb_le in E. intros _.
        replace (Z.to_nat (lastIndexOf c s from + 1))
          with (S (Z.to_nat (lastIndexOf c s from))) by lia.
        simpl. apply IH. exact E.
      * destruct (Ascii.eqb x c) eqn:E'; [|lia].
        apply Ascii.eqb_eq in E'. subst. reflexivity.
Qed.

Lemma lastIndexOf_max c s from j :
  (j <= from)%nat -> nth_error s j = Some c ->
  Z.of_nat j <= lastIndexOf c s from.
Proof.
  revert from j. induction s as [|x s IH]; intros from j Hj Hn.
  - destruct j; discriminate.
  - simpl. destruct from as [|from].
    + assert (j = 0%nat) by lia. subst. simpl in Hn. injection Hn as ->.
      rewrite Ascii.eqb_refl. lia.
    + destruct j as [|j].
      * simpl in Hn. injection Hn as ->. rewrite Ascii.eqb_refl.
        pose proof (lastIndexOf_range c s from).
        destruct (0 <=? lastIndexOf c s from); lia.
      * simpl in Hn. assert (Hle : (j <= from)%nat) by lia.
        specialize (IH from j Hle Hn).
        destruct (0 <=? lastIndexOf c s from) eqn:E.
        -- lia.
        -- apply Z.leb_gt in E. lia.
Qed.

Lemma lastIndexOf_none c s max :
  lastIndexOf c s max <= 0 -> noneIn c s 1 max.
Proof.
  intros H j Hj Hn.
  pose proof (lastIndexOf_max c s max j (proj2 Hj) Hn). lia.
Qed.

Lemma lastIndexOf_lastIn c s max :
  0 < lastIndexOf c s max ->
  lastIn c s max (Z.to_nat (lastIndexOf c s max)).
Proof.
  intros H. pose proof (lastIndexOf_range c s max) as [Hr _].
  split; [lia|]. split.
  - apply lastIndexOf_hit. lia.
  - intros j Hj Hn.
    pose proof (lastIndexOf_max c s max j (proj2 Hj) Hn). lia.
Qed.

Lemma splitPoint_case max r :
  splitCase max r (Z.to_nat (splitPoint max r)).
Proof.
  unfold splitPoint.
  destruct (lastIndexOf newline r max <=? 0) eqn:En.
  - apply Z.leb_le in En.
    destruct (lastIndexOf space r max <=? 0) eqn:Es.
    + apply Z.leb_le in Es. apply case_hard.
      * apply lastIndexOf_none; exact En.
      * apply lastIndexOf_none; exact Es.
      * lia.
    + apply Z.leb_gt in Es. apply case_space.
      * apply lastIndexOf_none; exact En.
      * apply lastIndexOf_lastIn; exact Es.
  - rewrite En. apply Z.leb_gt in En. apply case_newline.
    apply lastIndexOf_lastIn; exact En.
Qed.

Lemma splitCase_bounds max r k :
  (0 < max)%nat -> splitCase max r k -> (1 <= k <= max)%nat.
Proof.
  intros Hmax [H|_ H|_ _ ->]; [apply H|apply H|lia].
Qed.

Lemma skipn_nth_error (r : list ascii) k c :
  nth_error r k = Some c -> skipn k r = c :: skipn (S k) r.
Proof.
  revert k. induction r as [|x r IH]; intros [|k] H; try discriminate.
  - simpl in H. injection H as ->. reflexivity.
  - simpl in H. change (skipn (S k) (x :: r)) with (skipn k r).
    rewrite (IH k H). reflexivity.
Qed.

Lemma dropLeadingNewline_other c s :
  c <> newline -> dropLeadingNewline (c :: s) = c :: s.
Proof.
  intros H. simpl. destruct (Ascii.eqb c newline) eqn:E; [|reflexivity].
  apply Ascii.eqb_eq in E. contradiction.
Qed.

Lemma nth_error_in_range (r : list ascii) k :
  (k < length r)%nat -> exists c, nth_error r k = Some c.
Proof.
  intros H. destruct (nth_error r k) eqn:E; [eauto|].
  apply nth_error_None in E. lia.
Qed.

Section Loop.
Variable max : nat.
Hypothesis max_pos : (0 < max)%nat.

Lemma splitLoop_chunked fuel : forall r,
  (length r <= fuel)%nat ->
  exists chunks, splitLoop max fuel r = Some chunks /\ chunked max r chunks.
Proof.
  induction fuel as [|fuel IH]; intros r Hlen.
  - destruct r; [|simpl in Hlen; lia]. exists []. split; [reflexivity|constructor].
  - cbn [splitLoop].
    destruct (length r =? 0)%nat eqn:E0.
    { apply Nat.eqb_eq in E0. destruct r; [|discriminate].
      exists []. split; [reflexivity|constructor]. }
    apply Nat.eqb_neq in E0.
    destruct (length r <=? max)%nat eqn:Em.
    { apply Nat.leb_le in Em. exists [r]. split; [reflexivity|].
      apply chunked_last. lia. }
    apply Nat.leb_gt in Em.
    pose proof (splitPoint_case max r) as Hc.
    pose proof (splitCase_bounds _ _ _ max_pos Hc) as Hk.
    set (k := Z.to_nat (splitPoint max r)) in *.
    assert (Hsk : length (skipn k r) = (length r - k)%nat) by apply length_skipn.
    destruct Hc as [Hn|Hnn Hs|Hnn Hns Hkm].
    + destruct Hn as (Hb & Hnth & Hlast).
      rewrite (skipn_nth_error r k newline Hnth). simpl dropLeadingNewline.
      destruct (IH (skipn (S k) r)) as (chunks & -> & Hch).
      { rewrite length_skipn. lia. }
      exists (firstn k r :: chunks). split; [reflexivity|].
      apply chunked_newline; [lia| |exact Hch]. repeat split; try tauto; lia.
    + destruct Hs as (Hb & Hnth & Hlast).
      assert (Hd : dropLeadingNewline (skipn k r) = skipn k r).
      { rewrite (skipn_nth_error r k space Hnth).
        apply dropLeadingNewline_other. discriminate. }
      rewrite Hd.
      destruct (IH (skipn k r)) as (chunks & -> & Hch); [lia|].
      exists (firstn k r :: chunks). split; [reflexivity|].
      apply chunked_space; [lia|exact Hnn| |exact Hch]. repeat split; try tauto; lia.
    + destruct (nth_error_in_range r k) as [c Hnth]; [lia|].
      assert (Hd : dropLeadingNewline (skipn k r) = skipn k r).
      { rewrite (skipn_nth_error r k c Hnth).
        apply dropLeadingNewline_other. intros ->.
        apply (Hnn k); [lia|exact Hnth]. }
      rewrite Hd.
      destruct (IH (skipn k r)) as (chunks & -> & Hch); [lia|].
      exists (firstn k r :: chunks). split; [reflexivity|].
      rewrite Hkm in *. apply chunked_hard; [lia|exact Hnn|exact Hns|exact Hch].
Qed.

Lemma chunked_bounded r chunks :
  chunked max r chunks -> Forall (fun c => (length c <= max)%nat) chunks.
Proof.
  induction 1 as [|r Hr|r k chunks Hlen Hk _ IH|r k chunks Hlen _ Hk _ IH
                 |r chunks Hlen _ _ _ IH].
  - constructor.
  - constructor; [lia|constructor].
  - constructor; [|exact IH]. rewrite length_firstn. destruct Hk as (? & _). lia.
  - constructor; [|exact IH]. rewrite length_firstn. destruct Hk as (? & _). lia.
  - constructor; [|exact IH]. rewrite length_firstn. lia.
Qed.

Lemma chunked_restores r chunks : chunked max r chunks -> restores chunks r.
Proof.
  induction 1 as [|r Hr|r k chunks Hlen Hk _ IH|r k chunks Hlen _ Hk _ IH
                 |r chunks Hlen _ _ _ IH].
  - constructor.
  - rewrite <- (app_nil_r r) at 2.
    apply (restores_cons r [] [] []); [left; reflexivity|constructor].
  - destruct Hk as (_ & Hnth & _).
    rewrite <- (firstn_skipn k r) at 2.
    rewrite (skipn_nth_error r k newline Hnth).
    apply (restores_cons _ [newline]); [right; reflexivity|exact IH].
  - rewrite <- (firstn_skipn k r) at 2.
    apply (restores_cons _ []); [left; reflexivity|exact IH].
  - rewrite <- (firstn_skipn max r) at 2.
    apply (restores_cons _ []); [left; reflexivity|exact IH].
Qed.

Lemma splitMessage_total text :
  exists chunks,
    splitMessage max text = Some chunks /\
    Forall (fun c => (length c <= max)%nat) chunks /\
    ((length text <= max)%nat -> chunks = [text]) /\
    ((max < length text)%nat -> chunked max text chunks) /\
    restores chunks text.
Proof.
  unfold splitMessage. destruct (length text <=? max)%nat eqn:E.
  - apply Nat.leb_le in E. exists [text]. split; [reflexivity|].
    split; [constructor; [exact E|constructor]|].
    split; [reflexivity|]. split; [lia|].
    rewrite <- (app_nil_r text) at 2.
    apply (restores_cons text [] [] []); [left; reflexivity|constructor].
  - apply Nat.leb_gt in E.
    destruct (splitLoop_chunked (length text) text) as (chunks & Heq & Hch); [lia|].
    exists chunks. split; [exact Heq|].
    split; [exact (chunked_bounded _ _ Hch)|].
    split; [lia|]. split; [intros _; exact Hch|].
    exact (chunked_restores _ _ Hch).
Qed.

End Loop.

Lemma length_list_ascii_of_string (s : string) :
  length (list_ascii_of_string s) = String.length s.
Proof. induction s as [|c s IH]; simpl; [reflexivity|now rewrite IH]. Qed.

Lemma map_list_ascii_of_string (l : list (list ascii)) :
  map list_ascii_of_string (map string_of_list_ascii l) = l.
Proof.
  induction l as [|c l IH]; simpl; [reflexivity|].
  now rewrite list_ascii_of_string_of_list_ascii, IH.
Qed.

Lemma DISCORD_MAX_LENGTH_pos : (0 < DISCORD_MAX_LENGTH)%nat.
Proof. unfold DISCORD_MAX_LENGTH. lia. Qed.

(** Small runs of the loop (limit 5 instead of 1900). *)
Example splitMessage_newline_first :
  splitMessage 5 (list_ascii_of_string "ab cd
efgh ij")
  = Some (map list_ascii_of_string ["ab cd"; "efgh"; " ij"]).
Proof. reflexivity. Qed.

Example splitMessage_hard :
  splitMessage 5 (list_ascii_of_string "abcdefghijkl")
  = Some (map list_ascii_of_string ["abcde"; "fghij"; "kl"]).
Proof. reflexivity. Qed.

Example splitMessage_newline_at_limit :
  splitMessage 5 (list_ascii_of_string "abcde
")
  = Some (map list_ascii_of_string ["abcde"]).
Proof. reflexivity. Qed.

(** C9. For every outbound text the chunker terminates with chunks of at most
    1900 code units each; a text within the limit is one chunk; a longer text
    is cut, iteration by iteration, at the last newline at an index 1..1900,
    otherwise at the last space at such an index, otherwise at exactly 1900;
    and the chunks concatenate back to the text once the newline removed at
    each newline cut is put back. *)
Theorem splitDiscordMessage_chunks (text : string) :
  exists chunks,
    splitDiscordMessage text = Some chunks /\
    Forall (fun c => (String.length c <= DISCORD_MAX_LENGTH)%nat) chunks /\
    ((String.length text <= DISCORD_MAX_LENGTH)%nat -> chunks = [text]) /\
    ((DISCORD_MAX_LENGTH < String.length text)%nat ->
       chunked DISCORD_MAX_LENGTH (list_ascii_of_string text)
         (map list_ascii_of_string chunks)) /\
    restores (map list_ascii_of_string chunks) (list_ascii_of_string text).
Proof.
  destruct (splitMessage_total DISCORD_MAX_LENGTH DISCORD_MAX_LENGTH_pos
              (list_ascii_of_string text))
    as (chunks & Heq & Hb & Hone & Hch & Hre).
  rewrite length_list_ascii_of_string in Hone, Hch.
  exists (map string_of_list_ascii chunks).
  unfold splitDiscordMessage. rewrite Heq. simpl.
  rewrite map_list_ascii_of_string.
  split; [reflexivity|]. split.
  - apply Forall_map. eapply Forall_impl; [exact Hb|].
    intros c Hc. simpl.
    rewrite <- length_list_ascii_of_string,
      list_ascii_of_string_of_list_ascii. exact Hc.
  - split; [|split; [exact Hch|exact Hre]].
    intros Hle. rewrite (Hone Hle). simpl.
    now rewrite string_of_list_ascii_of_string.
Qed.

(** A text of 1907 code units whose last space at an index up to 1900 is at
    index 1895. *)
Example splitDiscordMessage_long :
  splitDiscordMessage Samples.longText
  = Some [string_of_list_ascii (repeat "a"%char 1895); " hello world"].
Proof. vm_compute. reflexivity. Qed.

Lemma splitDiscordMessage_chunks_witness :
  (DISCORD_MAX_LENGTH < String.length Samples.longText)%nat /\
  exists chunks,
    splitDiscordMessage Samples.longText = Some chunks /\
    Forall (fun c => (String.length c <= DISCORD_MAX_LENGTH)%nat) chunks.
Proof.
  split; [vm_compute; lia|].
  destruct (splitDiscordMessage_chunks Samples.longText) as (chunks & H & Hb & _).
  exists chunks. split; [exact H|exact Hb].
Defined.

End ChunkerSpec.

(** ** The IPC command bus *)

Module IpcSpec.
Import Ipc.

Lemma lookupGroup_assignGroup j k g groups :
  Router.lookupGroup j (Router.assignGroup k g groups)
  = if (k =? j)%string then Some g else Router.lookupGroup j groups.
Proof.
  induction groups as [|[k0 g0] rest IH]; simpl.
  - reflexivity.
  - destruct (k0 =? k)%string eqn:E.
    + apply String.eqb_eq in E. subst k0. simpl.
      destruct (k =? j)%string; reflexivity.
    + simpl. destruct (k0 =? j)%string eqn:E'.
      * apply String.eqb_eq in E'. subst k0.
        rewrite String.eqb_sym in E. rewrite E. reflexivity.
      * exact IH.
Qed.

Ltac break_if :=
  match goal with
  | |- context [if ?b then _ else _] => destruct b eqn:?
  | |- context [match ?x with Some _ => _ | None => _ end] => destruct x eqn:?
  end.

Lemma present_truthy o : truthy o = true <-> present o.
Proof. apply truthy_Some. Qed.

Lemma processTaskIpc_frame host w data sourceGroup isMain :
  let w' := fst (processTaskIpc host w data sourceGroup isMain) in
  mailboxes w' = mailboxes w /\ errors w' = errors w.
Proof.
  unfold processTaskIpc, scheduleTask, registerGroup.
  repeat break_if; simpl; auto.
Qed.

(** What a command can do to the registry: nothing, or one assignment made
    by a register_group from the main group with all four fields present. *)
Lemma processTaskIpc_groups host w data sourceGroup isMain :
  let w' := fst (processTaskIpc host w data sourceGroup isMain) in
  registeredGroups w' = registeredGroups w \/
  (type data = "register_group" /\ isMain = true /\
   present (jid data) /\ present (name data) /\ present (folder data) /\
   present (trigger data) /\
   exists stamp,
     registeredGroups w' =
       Router.assignGroup (default "" (jid data))
         (Router.mkGroup (default "" (name data)) (default "" (folder data))
            (trigger data) stamp (containerConfig data))
         (registeredGroups w)).
Proof.
  unfold processTaskIpc, scheduleTask, registerGroup.
  repeat break_if; simpl; auto; right;
    repeat match goal with
           | H : (_ && _)%bool = true |- _ => apply andb_true_iff in H; destruct H
           | H : negb _ = false |- _ => apply negb_false_iff in H
           | H : (_ =? _)%string = true |- _ => apply String.eqb_eq in H
           | H : truthy _ = true |- _ => apply present_truthy in H
           end;
    repeat split; try assumption; eexists; reflexivity.
Qed.

Lemma addsOnlyTriggered_refl groups : addsOnlyTriggered groups groups.
Proof. intros j g H. left. exact H. Qed.

Lemma addsOnlyTriggered_trans g1 g2 g3 :
  addsOnlyTriggered g1 g2 -> addsOnlyTriggered g2 g3 -> addsOnlyTriggered g1 g3.
Proof.
  intros H12 H23 j g H. destruct (H23 j g H) as [H2|Hp]; [|right; exact Hp].
  exact (H12 j g H2).
Qed.

Lemma processTaskIpc_addsOnlyTriggered host w data sourceGroup isMain :
  addsOnlyTriggered (registeredGroups w)
    (registeredGroups (fst (processTaskIpc host w data sourceGroup isMain))).
Proof.
  destruct (processTaskIpc_groups host w data sourceGroup isMain)
    as [->|(_ & _ & _ & _ & _ & Ht & stamp & ->)].
  - apply addsOnlyTriggered_refl.
  - intros j g. rewrite lookupGroup_assignGroup.
    destruct (_ =? j)%string.
    + intros [= <-]. right. exact Ht.
    + intros H. left. exact H.
Qed.

Lemma processTaskFile_groups host sourceGroup isMain w entry :
  addsOnlyTriggered (registeredGroups w)
    (registeredGroups (processTaskFile host sourceGroup isMain w entry)).
Proof.
  destruct entry as [file raw]. unfold processTaskFile.
  destruct (JSON_parse host raw) as [data|]; [|apply addsOnlyTriggered_refl].
  pose proof (processTaskIpc_addsOnlyTriggered host w data sourceGroup isMain) as H.
  destruct (processTaskIpc host w data sourceGroup isMain) as [w' []]; exact H.
Qed.

Lemma processMessageFile_groups host sourceGroup isMain w entry :
  registeredGroups (processMessageFile host sourceGroup isMain w entry)
  = registeredGroups w.
Proof.
  destruct entry as [file raw]. unfold processMessageFile.
  repeat break_if; reflexivity.
Qed.

Lemma fold_left_addsOnlyTriggered {A} (f : State -> A -> State) l :
  (forall w x, addsOnlyTriggered (registeredGroups w) (registeredGroups (f w x))) ->
  forall w, addsOnlyTriggered (registeredGroups w) (registeredGroups (fold_left f l w)).
Proof.
  intros Hf. induction l as [|x l IH]; intros w; simpl.
  - apply addsOnlyTriggered_refl.
  - eapply addsOnlyTriggered_trans; [apply Hf|apply IH].
Qed.

Lemma processIpcFiles_groups host w :
  addsOnlyTriggered (registeredGroups w) (registeredGroups (processIpcFiles host w)).
Proof.
  unfold processIpcFiles. apply fold_left_addsOnlyTriggered.
  intros w0 sourceGroup. unfold processGroup.
  set (isMain := (sourceGroup =? MAIN_GROUP_FOLDER host)%string).
  set (w1 := fold_left (processMessageFile host sourceGroup isMain) _ w0).
  apply (addsOnlyTriggered_trans _ (registeredGroups w1)).
  - apply fold_left_addsOnlyTriggered. intros w2 x.
    rewrite processMessageFile_groups. apply addsOnlyTriggered_refl.
  - apply fold_left_addsOnlyTriggered. intros w2 x.
    apply processTaskFile_groups.
Qed.

(** C10. A register_group command changes the registry only when it comes
    from the main group with jid, name, folder and trigger all present and
    not empty; with an empty trigger it is refused with the missing-fields
    warning; and whatever files a run of the bus processes, every group it
    leaves in the registry was there before or has a non-empty trigger. *)
Theorem register_group_requires_trigger host w data sourceGroup isMain :
  let w' := fst (processTaskIpc host w data sourceGroup isMain) in
  (registeredGroups w' <> registeredGroups w ->
     type data = "register_group" /\ isMain = true /\
     present (jid data) /\ present (name data) /\ present (folder data) /\
     present (trigger data)) /\
  (type data = "register_group" -> trigger data = Some "" ->
     registeredGroups w' = registeredGroups w /\
     (isMain = true ->
      w' = emit [LogWarn "Invalid register_group request - missing required fields"] w)) /\
  addsOnlyTriggered (registeredGroups w)
    (registeredGroups (processIpcFiles host w)).
Proof.
  cbv zeta. split; [|split].
  - intros Hne.
    destruct (processTaskIpc_groups host w data sourceGroup isMain)
      as [Heq|(Ht & Hm & Hj & Hn & Hf & Htr & _)]; [contradiction|].
    repeat split; assumption.
  - intros Ht Htr. unfold processTaskIpc. rewrite Ht, Htr. simpl.
    rewrite andb_false_r. destruct isMain; simpl; split; auto; discriminate.
  - apply processIpcFiles_groups.
Qed.

(** What a schedule_task command can do to the task table. *)
Lemma scheduleTask_tasks host w data sourceGroup isMain :
  let w' := fst (scheduleTask host w data sourceGroup isMain) in
  tasks w' = tasks w \/
  exists t,
    tasks w' = <[Store.id t := t]> (tasks w) /\
    groupFolder data = Some (Store.group_folder t) /\
    findJidByFolder (Store.group_folder t) (registeredGroups w)
      = Some (Store.chat_jid t) /\
    (isMain = true \/ Store.group_folder t = sourceGroup).
Proof.
  unfold scheduleTask.
  destruct (truthy (prompt data) && truthy (schedule_type data)
            && truthy (schedule_value data) && truthy (groupFolder data)) eqn:Hf;
    [|left; reflexivity].
  apply andb_true_iff in Hf. destruct Hf as [_ Hg].
  apply present_truthy in Hg. destruct Hg as (tf & Hg & _).
  rewrite Hg. change (default "" (Some tf)) with tf.
  destruct (negb isMain && negb (tf =? sourceGroup)%string) eqn:Hauth;
    [left; reflexivity|].
  assert (Hok : isMain = true \/ tf = sourceGroup).
  { apply andb_false_iff in Hauth. destruct Hauth as [H|H].
    - left. now apply negb_false_iff in H.
    - right. apply negb_false_iff in H. now apply String.eqb_eq in H. }
  destruct (truthy (findJidByFolder tf (registeredGroups w))) eqn:Hj;
    [|left; reflexivity].
  apply present_truthy in Hj. destruct Hj as (j & Hj & _). rewrite Hj.
  change (default "" (Some j)) with j. cbn [negb].
  repeat break_if; cbn [fst tasks emit set_tasks]; auto; right;
    (eexists (Store.mkTask _ tf j _ _ _ _ _ _ _); split; [reflexivity|];
     cbn [Store.group_folder Store.chat_jid]; auto).
Qed.

(** C3. A schedule_task command from a group other than the main one whose
    groupFolder is not the source directory leaves the task table as it was
    (it is dropped, with a warning when its fields are complete); a task that
    a schedule_task command creates carries the chat identity found in the
    registry for its target folder; and the chatJid of the payload has no
    influence on the outcome. *)
Theorem schedule_task_authorization host w data sourceGroup isMain :
  type data = "schedule_task" ->
  let w' := fst (processTaskIpc host w data sourceGroup isMain) in
  (isMain = false -> groupFolder data <> Some sourceGroup ->
     tasks w' = tasks w /\
     (w' = w \/
      w' = emit [LogWarn "Unauthorized schedule_task attempt blocked"] w)) /\
  (forall tid t,
     tasks w' !! tid = Some t ->
     tasks w !! tid = Some t \/
     (groupFolder data = Some (Store.group_folder t) /\
      findJidByFolder (Store.group_folder t) (registeredGroups w)
        = Some (Store.chat_jid t))) /\
  (forall claimed,
     processTaskIpc host w (set_chatJid claimed data) sourceGroup isMain
     = processTaskIpc host w data sourceGroup isMain).
Proof.
  intros Ht. cbv zeta.
  assert (Hs : processTaskIpc host w data sourceGroup isMain
               = scheduleTask host w data sourceGroup isMain).
  { unfold processTaskIpc. rewrite Ht. reflexivity. }
  rewrite Hs. split; [|split].
  - intros -> Hne. unfold scheduleTask.
    destruct (truthy (prompt data) && truthy (schedule_type data)
              && truthy (schedule_value data) && truthy (groupFolder data)) eqn:Hf;
      [|split; [reflexivity|left; reflexivity]].
    apply andb_true_iff in Hf. destruct Hf as [_ Hg].
    apply present_truthy in Hg. destruct Hg as (tf & Hg & _).
    rewrite Hg. change (default "" (Some tf)) with tf.
    assert (Hn : (tf =? sourceGroup)%string = false).
    { apply String.eqb_neq. intros ->. apply Hne. exact Hg. }
    rewrite Hn. cbn. split; [reflexivity|right; reflexivity].
  - intros tid t Hl.
    destruct (scheduleTask_tasks host w data sourceGroup isMain)
      as [Heq|(t' & Heq & Hg & Hj & _)]; cbv zeta in Heq; rewrite Heq in Hl.
    + left. exact Hl.
    + rewrite lookup_insert in Hl. case_decide as Hd.
      * injection Hl as <-. right. split; assumption.
      * left. exact Hl.
  - intros claimed. rewrite <- Hs. clear Hs Ht. destruct data. reflexivity.
Qed.

Lemma fileOf_unlink sourceGroup sub file w :
  fileOf sourceGroup sub file (unlink sourceGroup sub file w) = None.
Proof.
  unfold fileOf, unlink. cbn [mailboxes set_mailboxes].
  induction (mailboxes w) as [|[g m] rest IH]; [reflexivity|].
  cbn [map fst snd]. destruct (g =? sourceGroup)%string eqn:E.
  - cbn [find fst]. rewrite E.
    assert (Hgone : forall dir,
              find (fun e : string * string => (fst e =? file)%string)
                (removeFile file dir) = None).
    { intros dir. induction dir as [|[f r] dir IHd]; [reflexivity|].
      unfold removeFile in *. cbn [List.filter fst].
      destruct (f =? file)%string eqn:Ef; cbn [negb]; [exact IHd|].
      cbn [find fst]. rewrite Ef. exact IHd. }
    destruct sub; cbn [removeFrom messagesDir tasksDir]; rewrite Hgone; reflexivity.
  - cbn [find fst]. rewrite E. exact IH.
Qed.

(** C7. A pause_task, resume_task or cancel_task command read from the tasks
    mailbox of a group other than the main one, naming a task of another
    group, returns normally; the task table, the registry and the quarantine
    directory are unchanged, the file is gone from the mailbox, and the only
    effect is the warning. *)
Theorem unauthorized_task_command_dropped
    host w data sourceGroup file raw tid t :
  In (type data) ["pause_task"; "resume_task"; "cancel_task"] ->
  sourceGroup <> MAIN_GROUP_FOLDER host ->
  JSON_parse host raw = Some data ->
  taskId data = Some tid -> tid <> "" ->
  tasks w !! tid = Some t ->
  Store.group_folder t <> sourceGroup ->
  let isMain := (sourceGroup =? MAIN_GROUP_FOLDER host)%string in
  let w' := processTaskFile host sourceGroup isMain w (file, raw) in
  snd (processTaskIpc host w data sourceGroup isMain) = Router.Returned /\
  tasks w' = tasks w /\
  registeredGroups w' = registeredGroups w /\
  errors w' = errors w /\
  fileOf sourceGroup tasksSub file w' = None /\
  trace w' = trace w ++ [LogWarn (refusal (type data))].
Proof.
  intros Hty Hsrc Hparse Hid Hne Hlook Hown. cbv zeta.
  assert (Hmain : (sourceGroup =? MAIN_GROUP_FOLDER host)%string = false)
    by (now apply String.eqb_neq).
  assert (Htruthy : truthy (taskId data) = true).
  { apply present_truthy. exists tid. split; assumption. }
  assert (Hauth : authorizedFor false sourceGroup
                    (Store.getTaskById (default "" (taskId data)) (tasks w)) = false).
  { rewrite Hid. change (default "" (Some tid)) with tid.
    unfold Store.getTaskById.
    rewrite Hlook. cbn. now apply String.eqb_neq. }
  assert (Hrun : processTaskIpc host w data sourceGroup false
                 = (emit [LogWarn (refusal (type data))] w, Router.Returned)).
  { unfold processTaskIpc.
    destruct Hty as [<-|[<-|[<-|[]]]]; cbn [String.eqb Ascii.eqb Bool.eqb];
      rewrite Htruthy, Hauth; reflexivity. }
  unfold processTaskFile. rewrite Hparse, Hmain, Hrun.
  cbn [snd]. repeat split.
  apply fileOf_unlink.
Qed.

Lemma quarantine_quarantinedAs sourceGroup sub file raw w :
  quarantinedAs sourceGroup sub file raw (quarantine sourceGroup sub file raw w).
Proof.
  split.
  - unfold quarantine. cbn [errors set_errors]. apply lookup_insert_eq.
  - unfold quarantine, fileOf. cbn [mailboxes set_errors].
    apply fileOf_unlink.
Qed.





Import Samples.

(** One run of the bus over the sample mailboxes: the unauthorized message,
    pause and schedule commands of g2 and the register_group without a
    trigger of the main group are dropped with a warning, the file that does
    not parse is quarantined, and every mailbox is left empty. *)
Example bus_run :
  let w' := processIpcFiles ipcHost ipcState in
  mailboxes w' = [("g2", mkMailbox [] []); ("main", mkMailbox [] [])] /\
  errors w' = {[ "g2-9.json" := rawGarbage ]} /\
  tasks w' = tasks ipcState /\
  registeredGroups w' = registeredGroups ipcState /\
  trace w' =
    [LogWarn "Unauthorized IPC message attempt blocked";
     LogError "Error processing IPC message";
     LogWarn "Unauthorized task pause attempt";
     LogWarn "Unauthorized schedule_task attempt blocked";
     LogWarn "Invalid register_group request - missing required fields"].
Proof. cbv zeta. repeat split; reflexivity. Qed.

Example sample_parse_pause : JSON_parse ipcHost rawPause = Some dataPause.
Proof. reflexivity. Qed.

Example sample_parse_garbage : JSON_parse ipcHost rawGarbage = None.
Proof. reflexivity. Qed.



(** The main group registers g9 and the folder of g9 cannot be created:
    the registry has the group, nothing is logged but the error of the
    watcher, and the file is quarantined. *)
Example register_group_without_folder_is_quarantined :
  let w' :=
    processTaskFile readOnlyHost "main" true ipcState' ("5.json", rawRegisterFull) in
  Router.lookupGroup "chat9" (registeredGroups w') = Some group9 /\
  trace w' = [LogError "Error processing IPC task"] /\
  errors w' = {[ "main-5.json" := rawRegisterFull ]} /\
  fileOf "main" tasksSub "5.json" w' = None.
Proof. cbv zeta. repeat split; reflexivity. Qed.

(** The messages and tasks directories of a group share the names of the
    quarantine directory: of two files named alike that do not parse, the
    quarantine directory keeps the content of the one moved last. *)
Example quarantine_names_are_shared :
  let w' := processGroup ipcHost collidingState "g2" in
  fileOf "g2" messages "9.json" collidingState = Some rawGarbage /\
  fileOf "g2" tasksSub "9.json" collidingState = Some rawGarbage' /\
  errors w' = {[ "g2-9.json" := rawGarbage' ]} /\
  mailboxes w' = [("g2", mkMailbox [] [])].
Proof. cbv zeta. repeat split; reflexivity. Qed.

Lemma register_group_requires_trigger_witness :
  type dataRegister = "register_group" /\
  trigger dataRegister = Some "" /\
  registeredGroups (fst (processTaskIpc ipcHost ipcState dataRegister "main" true))
  = registeredGroups ipcState.
Proof.
  split; [reflexivity|]. split; [reflexivity|].
  exact (proj1 (proj1 (proj2 (register_group_requires_trigger
                                ipcHost ipcState dataRegister "main" true))
                  eq_refl eq_refl)).
Defined.

(** The main group schedules a task for g3 and names the chat of g2 in the
    payload: the task is created for the chat the registry has for g3. *)
Example schedule_task_uses_registry :
  tasks (fst (processTaskIpc ipcHost ipcState dataSchedule "main" true))
    !! "task-1-abc123"
  = Some (Store.mkTask "task-1-abc123" "g3" "chat3" "report" "once"
            "2027-01-01T00:00:00.000Z" "isolated"
            (Some "2027-01-01T00:00:00.000Z") Store.active
            "2026-11-03T00:00:00.000Z").
Proof. reflexivity. Qed.

Lemma schedule_task_authorization_witness :
  type dataSchedule = "schedule_task" /\
  groupFolder dataSchedule <> Some "g2" /\
  tasks (fst (processTaskIpc ipcHost ipcState dataSchedule "g2" false))
  = tasks ipcState.
Proof.
  split; [reflexivity|]. split; [discriminate|].
  refine (proj1 (proj1 (schedule_task_authorization
                          ipcHost ipcState dataSchedule "g2" false eq_refl)
                   eq_refl _)).
  discriminate.
Defined.

Lemma unauthorized_task_command_dropped_witness :
  tasks ipcState !! "t1" = Some task1 /\
  Store.group_folder task1 <> "g2" /\
  fileOf "g2" tasksSub "2.json" ipcState = Some rawPause /\
  let w' := processTaskFile ipcHost "g2" false ipcState ("2.json", rawPause) in
  tasks w' = tasks ipcState /\
  fileOf "g2" tasksSub "2.json" w' = None /\
  trace w' = [LogWarn "Unauthorized task pause attempt"].
Proof.
  split; [reflexivity|]. split; [discriminate|]. split; [reflexivity|].
  assert (Hsrc : "g2" <> MAIN_GROUP_FOLDER ipcHost) by discriminate.
  assert (Hne : "t1" <> "") by discriminate.
  assert (Hown : Store.group_folder task1 <> "g2") by discriminate.
  destruct (unauthorized_task_command_dropped ipcHost ipcState dataPause "g2"
              "2.json" rawPause "t1" task1 (or_introl eq_refl) Hsrc eq_refl
              eq_refl Hne eq_refl Hown)
    as (_ & Ht & _ & _ & Hf & Htr).
  cbv zeta. split; [exact Ht|]. split; [exact Hf|exact Htr].
Defined.
End IpcSpec.

(** ** The approval machine *)

Module ApprovalSpec.
Import Approval.

Lemma get_update rid (f : HostModificationRequest -> HostModificationRequest) reqs :
  (forall r, id (f r) = id r) ->
  get rid (update rid f reqs) = option_map f (get rid reqs).
Proof.
  intros Hid. unfold get. induction reqs as [|r rest IH]; [reflexivity|].
  cbn [update find]. destruct (id r =? rid)%string eqn:E.
  - cbn [find]. rewrite Hid, E. reflexivity.
  - cbn [find]. rewrite E. exact IH.
Qed.

Lemma update_Forall2 (R : HostModificationRequest -> HostModificationRequest -> Prop)
    rid f reqs :
  (forall r, R r r) ->
  (forall r, get rid reqs = Some r -> R r (f r)) ->
  Forall2 R reqs (update rid f reqs).
Proof.
  intros Hrefl. unfold get. induction reqs as [|r rest IH]; intros Hf.
  - constructor.
  - cbn [update find] in *. destruct (id r =? rid)%string eqn:E.
    + constructor; [apply Hf; reflexivity|].
      clear - Hrefl. induction rest; constructor; auto.
    + constructor; [apply Hrefl|]. apply IH. exact Hf.
Qed.

Lemma update_update rid f g reqs :
  (forall r, id (f r) = id r) ->
  update rid g (update rid f reqs) = update rid (fun r => g (f r)) reqs.
Proof.
  intros Hid. induction reqs as [|r rest IH]; [reflexivity|].
  cbn [update]. destruct (id r =? rid)%string eqn:E.
  - cbn [update]. rewrite Hid, E. reflexivity.
  - cbn [update]. rewrite E, IH. reflexivity.
Qed.

Lemma update_absent rid f reqs : get rid reqs = None -> update rid f reqs = reqs.
Proof.
  unfold get. induction reqs as [|r rest IH]; [reflexivity|].
  cbn [update find]. destruct (id r =? rid)%string; [discriminate|].
  intros H. now rewrite IH.
Qed.

Lemma stepwise_refl reqs : stepwise reqs reqs.
Proof.
  induction reqs; constructor; auto. split; [reflexivity|left; reflexivity].
Qed.

Lemma settledKept_refl reqs : settledKept reqs reqs.
Proof. induction reqs; constructor; auto. Qed.

Lemma settledKept_trans a b c :
  settledKept a b -> settledKept b c -> settledKept a c.
Proof.
  intros Hab. revert c. induction Hab as [|x y a b [Hid Hxy] _ IH]; intros c Hbc.
  - inversion Hbc. constructor.
  - inversion Hbc as [|y' z b' c' [Hid' Hyz] Hrest]; subst.
    constructor; [|apply IH; exact Hrest].
    split; [congruence|]. intros Hs. rewrite Hyz; [apply Hxy; exact Hs|].
    rewrite (Hxy Hs). exact Hs.
Qed.


Lemma status_eqb_pending s : Status_eqb s pending = true <-> s = pending.
Proof. destruct s; simpl; split; congruence. Qed.

Section OneCall.
Variable applyPlan : string -> ApplyOutcome.
Variables (reqs : Requests) (rid : string) (approve : bool) (who : string).

Let run := handleApproval applyPlan reqs rid approve who.

Lemma handleApproval_settled :
  (forall r, get rid reqs = Some r -> status r <> pending ->
     atNotice run = reqs /\ final run = reqs) /\
  (get rid reqs = None -> atNotice run = reqs /\ final run = reqs).
Proof.
  subst run. unfold handleApproval. split.
  - intros r Hg Hs. rewrite Hg.
    destruct (Status_eqb (status r) pending) eqn:E.
    + apply status_eqb_pending in E. contradiction.
    + cbn. split; reflexivity.
  - intros ->. split; reflexivity.
Qed.

Lemma handleApproval_pending r :
  get rid reqs = Some r -> status r = pending ->
  exists r1 r2,
    get rid (atNotice run) = Some r1 /\ get rid (final run) = Some r2 /\
    approvedBy r1 = Some who /\
    ((approve = false /\ status r1 = denied /\ r2 = r1) \/
     (approve = true /\ status r1 = approved /\
      ((exists output, applyPlan (filePath r) = ApplyOk output /\
                       status r2 = applied) \/
       ((forall output, applyPlan (filePath r) <> ApplyOk output) /\
        status r2 = failed /\ exists m, error r2 = Some m)))).
Proof.
  intros Hg Hs. subst run. unfold handleApproval. rewrite Hg, Hs.
  cbn [Status_eqb negb].
  destruct approve; cbn [negb].
  - destruct (applyPlan (filePath r)) as [m|m|o m|o] eqn:Ha; cbn [atNotice final];
      rewrite ?update_update by reflexivity;
      rewrite !get_update by reflexivity; rewrite Hg; cbn [option_map];
      eexists _, _; (split; [reflexivity|]); (split; [reflexivity|]);
      (split; [reflexivity|]); right; (split; [reflexivity|]);
      (split; [reflexivity|]).
    1-3: right; split; [intros output; discriminate|];
         split; [reflexivity|eexists; reflexivity].
    left. exists o. split; reflexivity.
  - cbn [atNotice final]. rewrite ?update_update by reflexivity.
    rewrite !get_update by reflexivity. rewrite Hg. cbn [option_map].
    eexists _, _. split; [reflexivity|]. split; [reflexivity|].
    split; [reflexivity|]. left. repeat split.
Qed.

Lemma handleApproval_stepwise :
  stepwise reqs (atNotice run) /\ stepwise (atNotice run) (final run).
Proof.
  subst run. unfold handleApproval.
  destruct (get rid reqs) as [request|] eqn:Hg;
    [|split; apply stepwise_refl].
  destruct (Status_eqb (status request) pending) eqn:Hs; cbn [negb];
    [|split; apply stepwise_refl].
  apply status_eqb_pending in Hs.
  assert (Hrefl : forall r : HostModificationRequest,
             id r = id r /\ stays_or_steps (status r) (status r))
    by (intros r; split; [reflexivity|left; reflexivity]).
  destruct approve; cbn [negb].
  - assert (H1 : stepwise reqs
                   (update rid (setStatus approved)
                      (update rid (setApprovedBy who) reqs))).
    { rewrite update_update by reflexivity.
      apply update_Forall2; [exact Hrefl|].
      intros r Hr. rewrite Hg in Hr. injection Hr as <-.
      split; [reflexivity|]. right. cbn. rewrite Hs. constructor. }
    assert (Hget : get rid (update rid (setStatus approved)
                              (update rid (setApprovedBy who) reqs))
                   = Some (setStatus approved (setApprovedBy who request))).
    { rewrite !get_update by reflexivity. rewrite Hg. reflexivity. }
    remember (update rid (setStatus approved)
                (update rid (setApprovedBy who) reqs)) as reqs2 eqn:E2.
    clear E2.
    destruct (applyPlan (filePath request)) as [m|m|o m|o];
      cbn [atNotice final]; (split; [exact H1|]);
      rewrite ?update_update by reflexivity;
      (apply update_Forall2; [exact Hrefl|]);
      intros r Hr; rewrite Hget in Hr; injection Hr as <-;
      (split; [reflexivity|]); right; cbn; constructor.
  - cbn [atNotice final]. split; [|apply stepwise_refl].
    rewrite update_update by reflexivity.
    apply update_Forall2; [exact Hrefl|].
    intros r Hr. rewrite Hg in Hr. injection Hr as <-.
    split; [reflexivity|]. right. cbn. rewrite Hs. constructor.
Qed.

Lemma handleApproval_settledKept : settledKept reqs (final run).
Proof.
  subst run. unfold handleApproval.
  destruct (get rid reqs) as [request|] eqn:Hg; [|apply settledKept_refl].
  destruct (Status_eqb (status request) pending) eqn:Hs; cbn [negb];
    [|apply settledKept_refl].
  apply status_eqb_pending in Hs.
  assert (Hrefl : forall r : HostModificationRequest,
             id r = id r /\ (status r <> pending -> r = r))
    by (intros r; split; reflexivity).
  destruct approve; cbn [negb];
    [destruct (applyPlan (filePath request)) as [m|m|o m|o]|];
    cbn [final]; rewrite ?update_update by reflexivity;
    (apply update_Forall2; [exact Hrefl|]);
    intros r Hr; rewrite Hg in Hr; injection Hr as <-;
    (split; [reflexivity|]); intros Hn; contradiction.
Qed.

End OneCall.

Lemma handleAll_settledKept applyPlan calls : forall reqs,
  settledKept reqs (handleAll applyPlan calls reqs).
Proof.
  unfold handleAll. induction calls as [|c calls IH]; intros reqs; cbn [fold_left].
  - apply settledKept_refl.
  - eapply settledKept_trans; [|apply IH]. apply handleApproval_settledKept.
Qed.

(** C8. Across one call of handleApproval each request keeps its identity
    and its status stays or moves along pending -> approved or pending ->
    denied up to the suspension, and along approved -> applied or approved
    -> failed from there to the end; a pending request ends denied, or goes
    through approved to applied or failed; a call on a request that is not
    pending, or on an unknown id, leaves every request as it was; and over
    any sequence of calls a request that has left pending is never changed
    again. *)
Theorem approval_transitions_one_way applyPlan reqs rid approve who :
  let run := handleApproval applyPlan reqs rid approve who in
  (stepwise reqs (atNotice run) /\ stepwise (atNotice run) (final run)) /\
  (forall r, get rid reqs = Some r -> status r = pending ->
     exists r1 r2,
       get rid (atNotice run) = Some r1 /\ get rid (final run) = Some r2 /\
       ((status r1 = denied /\ status r2 = denied) \/
        (status r1 = approved /\ (status r2 = applied \/ status r2 = failed)))) /\
  (forall r, get rid reqs = Some r -> status r <> pending ->
     atNotice run = reqs /\ final run = reqs) /\
  (get rid reqs = None -> atNotice run = reqs /\ final run = reqs) /\
  (forall calls, settledKept reqs (handleAll applyPlan calls reqs)).
Proof.
  cbv zeta. split; [apply handleApproval_stepwise|].
  split.
  - intros r Hg Hs.
    destruct (handleApproval_pending applyPlan reqs rid approve who r Hg Hs)
      as (r1 & r2 & H1 & H2 & _ & Hcases).
    exists r1, r2. split; [exact H1|]. split; [exact H2|].
    destruct Hcases as [(_ & Hd & ->)|(_ & Ha & [(o & _ & Hap)|(_ & Hf & _)])].
    + left. split; assumption.
    + right. split; [exact Ha|left; exact Hap].
    + right. split; [exact Ha|right; exact Hf].
  - split; [apply handleApproval_settled|].
    split; [apply handleApproval_settled|].
    intros calls. apply handleAll_settledKept.
Qed.

End ApprovalSpec.

(** ** The trigger pattern *)

Module TriggerSpec.
Import RegExp Trigger.

(** Runs of the matcher. *)
Example approval_pattern_runs :
  map (fun s => bool_decide (is_Some (exec true Approval.approvalRegExp s)))
    ["approve"; "DENY"; "approve hc-12"; "Deny   HC-7  "; "approve hc-";
     "approvehc-1"; "approve hc-12 now"; "please approve"; "approved"]
  = [true; true; true; true; false; false; false; false; false].
Proof. reflexivity. Qed.

Example approval_pattern_captures :
  option_map (fun m => (group "Deny   HC-7  " m 1, group "Deny   HC-7  " m 2))
    (exec true Approval.approvalRegExp "Deny   HC-7  ")
  = Some (Some "Deny", Some "HC-7").
Proof. reflexivity. Qed.

Example address_pattern_is_lazy :
  map Email.bareAddress ["Ann <ann@example.org>"; "ann@example.org"; "A <b> <c>"; "<>"]
  = ["ann@example.org"; "ann@example.org"; "b"; "<>"].
Proof. reflexivity. Qed.

Example trim_strips_both_ends :
  trim (String newline "  @bot hi  ") = "@bot hi".
Proof. reflexivity. Qed.

Lemma skipn_cons_nth (s : list ascii) i x :
  nth_error s i = Some x -> skipn i s = x :: skipn (S i) s.
Proof. apply ChunkerSpec.skipn_nth_error. Qed.

Lemma skipn_none (s : list ascii) i : nth_error s i = None -> skipn i s = [].
Proof. intros H. apply nth_error_None in H. apply skipn_all2. exact H. Qed.

(** A run of pattern characters consumes a case-insensitive prefix. *)
Lemma run_literal s cs : forall i caps k,
  run true s (literal cs) i caps k
  = if prefixIgnoringCase cs (skipn i s) then k (i + length cs)%nat caps else None.
Proof.
  induction cs as [|c cs IH]; intros i caps k; cbn [literal run prefixIgnoringCase].
  - rewrite Nat.add_0_r. reflexivity.
  - destruct (nth_error s i) as [x|] eqn:E.
    + rewrite (skipn_cons_nth s i x E).
      destruct (charEq true x c); cbn [andb]; [|reflexivity].
      rewrite IH. cbn [length]. rewrite Nat.add_succ_r. reflexivity.
    + rewrite (skipn_none s i E). reflexivity.
Qed.

Lemma matchAt_triggerPattern s trigger i :
  matchAt true s (triggerPattern trigger) i
  = if (i =? 0)%nat
    then if prefixIgnoringCase (list_ascii_of_string trigger) s
              && isWordBoundary s (length (list_ascii_of_string trigger))
         then Some (length (list_ascii_of_string trigger), [])
         else None
    else None.
Proof.
  unfold matchAt, triggerPattern, lit. cbn [run].
  destruct (i =? 0)%nat eqn:E; [|reflexivity].
  apply Nat.eqb_eq in E. subst i. rewrite run_literal, drop_0.
  cbn [Nat.add run].
  destruct (prefixIgnoringCase _ s); cbn [andb]; [|reflexivity].
  destruct (isWordBoundary s _); reflexivity.
Qed.

Lemma searchFrom_later s trigger fuel : forall i,
  (0 < i)%nat -> searchFrom true s (triggerPattern trigger) i fuel = None.
Proof.
  induction fuel as [|fuel IH]; intros i Hi; cbn [searchFrom];
    rewrite matchAt_triggerPattern;
    destruct (i =? 0)%nat eqn:E; try (apply Nat.eqb_eq in E; lia); [reflexivity|].
  apply IH. lia.
Qed.

(** The pattern of a trigger matches exactly the contents that start with the
    trigger at a word boundary. *)
Lemma exec_triggerPattern trigger content :
  bool_decide (is_Some (exec true (triggerPattern trigger) content))
  = wordBoundaryPrefix trigger content.
Proof.
  unfold exec, wordBoundaryPrefix.
  set (s := list_ascii_of_string content).
  destruct (length s) as [|n] eqn:En; cbn [searchFrom];
    rewrite matchAt_triggerPattern; cbn [Nat.eqb];
    destruct (prefixIgnoringCase _ s && isWordBoundary s _); cbn [option_map];
    try reflexivity.
  rewrite searchFrom_later by lia. reflexivity.
Qed.

Lemma matchesTrigger_literal hostRegExp trigger content :
  isLiteralPattern trigger = true ->
  matchesTrigger hostRegExp trigger content
  = Some (wordBoundaryPrefix trigger content).
Proof.
  intros H. unfold matchesTrigger. rewrite H, exec_triggerPattern. reflexivity.
Qed.

Lemma passesTrigger_iff hostRegExp trigger content :
  passesTrigger hostRegExp trigger content = Some true <->
  (trigger = None \/ trigger = Some "" \/
   exists t, trigger = Some t /\ t <> "" /\
             matchesTrigger hostRegExp t content = Some true).
Proof.
  unfold passesTrigger. destruct trigger as [t|].
  - cbn [truthy]. destruct (t =? "")%string eqn:E; cbn [negb].
    + apply String.eqb_eq in E. subst t. split; [intros _; right; left; reflexivity|reflexivity].
    + apply String.eqb_neq in E. split.
      * intros H. right. right. exists t. auto.
      * intros [H|[H|(t' & [= <-] & _ & H)]]; [discriminate|congruence|exact H].
  - split; [intros _; left; reflexivity|reflexivity].
Qed.

Example trigger_at_bot :
  map (wordBoundaryPrefix "@bot") ["@bot hi"; "@BOT, hi"; "@bot"; "@botany"; "hello @bot"; " @bot"]
  = [true; true; true; false; false; false].
Proof. reflexivity. Qed.

End TriggerSpec.

(** ** The latest pending request *)

Module LatestSpec.
Import Approval.

Lemma ltb_lt a b : String.ltb a b = true <-> String_as_OT.lt a b.
Proof.
  unfold String.ltb. rewrite <- String_as_OT.cmp_lt. unfold String_as_OT.cmp.
  destruct (a ?= b)%string; split; congruence.
Qed.

Lemma ltb_irrefl a : String.ltb a a = false.
Proof.
  destruct (String.ltb a a) eqn:E; [|reflexivity].
  apply ltb_lt in E. exfalso. exact (String_as_OT.lt_not_eq _ _ E eq_refl).
Qed.

Lemma ltb_trans a b c :
  String.ltb a b = true -> String.ltb b c = true -> String.ltb a c = true.
Proof.
  rewrite !ltb_lt. apply String_as_OT.lt_trans.
Qed.

Lemma candidate_dec chat r :
  (chatJid r =? chat)%string && Status_eqb (status r) pending = true
  <-> candidate chat r.
Proof.
  unfold candidate. rewrite andb_true_iff, String.eqb_eq.
  rewrite ApprovalSpec.status_eqb_pending. reflexivity.
Qed.

Lemma laterPending_step chat seen latest req :
  latestAmong chat seen latest ->
  latestAmong chat (seen ++ [req]) (laterPending chat latest req).
Proof.
  intros H. unfold laterPending.
  destruct ((chatJid req =? chat)%string && Status_eqb (status req) pending) eqn:E.
  - apply candidate_dec in E. destruct latest as [l|]; cbn [latestAmong] in *.
    + destruct H as (Hin & Hc & Hmax).
      destruct (String.ltb (timestamp l) (timestamp req)) eqn:Hlt.
      * split; [apply in_or_app; right; left; reflexivity|]. split; [exact E|].
        intros r Hr Hcr. apply in_app_or in Hr. destruct Hr as [Hr|[<-|[]]].
        -- destruct (String.ltb (timestamp req) (timestamp r)) eqn:Hreq;
             [|reflexivity].
           rewrite <- (Hmax r Hr Hcr). symmetry.
           exact (ltb_trans _ _ _ Hlt Hreq).
        -- apply ltb_irrefl.
      * split; [apply in_or_app; left; exact Hin|]. split; [exact Hc|].
        intros r Hr Hcr. apply in_app_or in Hr. destruct Hr as [Hr|[<-|[]]].
        -- exact (Hmax r Hr Hcr).
        -- exact Hlt.
    + split; [apply in_or_app; right; left; reflexivity|]. split; [exact E|].
      intros r Hr Hcr. apply in_app_or in Hr. destruct Hr as [Hr|[<-|[]]].
      * exfalso. exact (H r Hr Hcr).
      * apply ltb_irrefl.
  - assert (Hn : ~ candidate chat req).
    { intros Hc. apply candidate_dec in Hc. congruence. }
    destruct latest as [l|]; cbn [latestAmong] in *.
    + destruct H as (Hin & Hc & Hmax).
      split; [apply in_or_app; left; exact Hin|]. split; [exact Hc|].
      intros r Hr Hcr. apply in_app_or in Hr. destruct Hr as [Hr|[<-|[]]].
      * exact (Hmax r Hr Hcr).
      * contradiction.
    + intros r Hr. apply in_app_or in Hr. destruct Hr as [Hr|[<-|[]]].
      * exact (H r Hr).
      * exact Hn.
Qed.

Lemma fold_laterPending chat reqs : forall seen latest,
  latestAmong chat seen latest ->
  latestAmong chat (seen ++ reqs) (fold_left (laterPending chat) reqs latest).
Proof.
  induction reqs as [|req reqs IH]; intros seen latest H; cbn [fold_left].
  - rewrite app_nil_r. exact H.
  - replace (seen ++ req :: reqs) with ((seen ++ [req]) ++ reqs)
      by (rewrite <- app_assoc; reflexivity).
    apply IH. apply laterPending_step. exact H.
Qed.

Lemma latestPending_latest chat reqs :
  latestAmong chat reqs (latestPending chat reqs).
Proof.
  unfold latestPending.
  apply (fold_laterPending chat reqs [] None). intros r [].
Qed.

End LatestSpec.

(** ** The message router *)

Module RouterSpec.
Import Router.

Lemma agentRuns_app t es : agentRuns (t ++ es) = (agentRuns t + agentRuns es)%nat.
Proof. unfold agentRuns. rewrite List.filter_app, length_app. reflexivity. Qed.

Ltac count_runs :=
  unfold agentRuns in *; cbn in *;
  repeat rewrite List.filter_app in *; repeat rewrite length_app in *;
  cbn in *; try lia.

Lemma runAgent_runs host w group prompt chatJid :
  let w' := fst (runAgent host w group prompt chatJid) in
  agentRuns (trace w') = S (agentRuns (trace w)) /\
  lastTimestamp w' = lastTimestamp w /\
  pendingRequests w' = pendingRequests w /\
  lastAgentTimestamp w' = lastAgentTimestamp w /\
  storedMessages w' = storedMessages w /\
  registeredGroups w' = registeredGroups w.
Proof.
  unfold runAgent.
  destruct (runContainerAgent host _ _) as [output|]; cbn.
  - destruct (truthy (out_newSessionId output)), (out_status output); cbn;
      repeat split; count_runs.
  - repeat split; count_runs.
Qed.

Lemma buildPrompt_not_empty missed : (buildPrompt missed =? "")%string = false.
Proof. reflexivity. Qed.

Lemma approval_effects_no_run applyPlan reqs rid approve who :
  agentRuns (Approval.effects (Approval.handleApproval applyPlan reqs rid approve who)) = 0%nat.
Proof.
  unfold Approval.handleApproval.
  destruct (Approval.get rid reqs) as [r|]; [|reflexivity].
  destruct (negb _); [reflexivity|].
  destruct (negb approve); [reflexivity|].
  destruct (applyPlan _); reflexivity.
Qed.

(** What [processMessage] does with a message of a registered group that is
    not taken as an approval, by the outcome of the trigger check. *)
Lemma processMessage_gate host w msg group :
  lookupGroup (chat_jid msg) (registeredGroups w) = Some group ->
  Approval.isApproval
    (Approval.checkApprovalMessage (RegExp.trim (content msg)) (chat_jid msg)
       (pendingRequests w)) = false ->
  match Trigger.passesTrigger (hostRegExp host) (trigger group)
          (RegExp.trim (content msg)) with
  | Some true =>
      agentRuns (trace (fst (processMessage host w msg))) = S (agentRuns (trace w)) /\
      pendingRequests (fst (processMessage host w msg)) = pendingRequests w /\
      lastTimestamp (fst (processMessage host w msg)) = lastTimestamp w /\
      snd (processMessage host w msg) = Returned
  | Some false => processMessage host w msg = (w, Returned)
  | None => processMessage host w msg = (w, Thrown)
  end.
Proof.
  intros Hg Ha. unfold processMessage. rewrite Hg, Ha.
  destruct (Trigger.passesTrigger _ _ _) as [[|]|]; try reflexivity.
  rewrite buildPrompt_not_empty.
  set (w1 := emit _ w).
  pose proof (runAgent_runs host w1 group
                (buildPrompt (getMessagesSince (storedMessages w) (chat_jid msg)
                   (default "" (lastAgentTimestamp w !! chat_jid msg))
                   (ASSISTANT_NAME host))) (chat_jid msg)) as H.
  cbv zeta in H. destruct H as (Hr & Hl & Hp & _).
  destruct (runAgent host w1 group _ (chat_jid msg)) as [w2 response].
  cbn [fst] in Hr, Hl, Hp.
  assert (H1 : agentRuns (trace w1) = agentRuns (trace w))
    by (subst w1; count_runs).
  destruct (truthy response); cbn [fst snd]; repeat split;
    try (cbn; congruence); count_runs; assumption.
Qed.

Lemma processMessage_approval host w msg group :
  lookupGroup (chat_jid msg) (registeredGroups w) = Some group ->
  let check :=
    Approval.checkApprovalMessage (RegExp.trim (content msg)) (chat_jid msg)
      (pendingRequests w) in
  Approval.isApproval check = true ->
  let run :=
    Approval.handleApproval (applyPlan host) (pendingRequests w)
      (Approval.requestId check) (Approval.isApproved check) (sender_name msg) in
  processMessage host w msg
  = (emit (Approval.effects run) (set_pendingRequests (Approval.final run) w),
     Returned) /\
  agentRuns (trace (fst (processMessage host w msg))) = agentRuns (trace w).
Proof.
  intros Hg check Ha run. unfold processMessage. rewrite Hg.
  fold check. rewrite Ha. fold run. split; [reflexivity|].
  cbn [fst emit trace set_pendingRequests]. rewrite agentRuns_app. subst run.
  rewrite approval_effects_no_run. lia.
Qed.

Lemma onDiscordMessage_gate host now w message group :
  author_bot message = false ->
  lookupGroup (discordJid message) (registeredGroups w) = Some group ->
  match Trigger.passesTrigger (hostRegExp host) (trigger group)
          (default "" (message_content message)) with
  | Some true =>
      agentRuns (trace (fst (onDiscordMessage host now w message)))
      = S (agentRuns (trace w))
  | _ =>
      agentRuns (trace (fst (onDiscordMessage host now w message)))
      = agentRuns (trace w)
  end.
Proof.
  intros Hb Hg. unfold onDiscordMessage. rewrite Hb, Hg.
  destruct (Trigger.passesTrigger _ _ _) as [[|]|]; try count_runs.
  destruct (runContainerAgent host _ _) as [output|].
  - destruct (truthy (out_newSessionId output)), (out_status output);
      try destruct (truthy (out_result output)); count_runs.
  - count_runs.
Qed.


(** C4, as the code has it. The trigger check lets a content through
    exactly when the trigger is absent or the empty string, or the content
    matches the pattern made of the trigger between a start anchor and a
    word boundary, letter case ignored; for a trigger without pattern syntax
    that is: the content starts with the trigger, case ignored, at a word
    boundary. In the message loop the check is made on the body with the
    white space at its ends removed, and after the approval check: the
    agent runs for a message of a registered group exactly when the message
    is not taken as an approval and its trimmed body passes the check; a
    message that is not taken as an approval and fails the check is skipped
    with no effect. The Discord handler checks the body as it is and makes
    no approval check: there the agent runs exactly when the body passes. *)
Theorem trigger_decides_eligibility host :
  (forall trigger content,
     Trigger.passesTrigger (hostRegExp host) trigger content = Some true <->
     (trigger = None \/ trigger = Some "" \/
      exists t, trigger = Some t /\ t <> "" /\
                Trigger.matchesTrigger (hostRegExp host) t content = Some true)) /\
  (forall t content,
     Trigger.isLiteralPattern t = true ->
     Trigger.matchesTrigger (hostRegExp host) t content
     = Some (Trigger.wordBoundaryPrefix t content)) /\
  (forall w msg group,
     lookupGroup (chat_jid msg) (registeredGroups w) = Some group ->
     (agentRuns (trace (fst (processMessage host w msg))) = S (agentRuns (trace w))
      <-> Approval.isApproval
            (Approval.checkApprovalMessage (RegExp.trim (content msg))
               (chat_jid msg) (pendingRequests w)) = false /\
          Trigger.passesTrigger (hostRegExp host) (trigger group)
            (RegExp.trim (content msg)) = Some true) /\
     (Approval.isApproval
        (Approval.checkApprovalMessage (RegExp.trim (content msg))
           (chat_jid msg) (pendingRequests w)) = false ->
      Trigger.passesTrigger (hostRegExp host) (trigger group)
        (RegExp.trim (content msg)) = Some false ->
      processMessage host w msg = (w, Returned))) /\
  (forall now w message group,
     author_bot message = false ->
     lookupGroup (discordJid message) (registeredGroups w) = Some group ->
     (agentRuns (trace (fst (onDiscordMessage host now w message)))
      = S (agentRuns (trace w))
      <-> Trigger.passesTrigger (hostRegExp host) (trigger group)
            (default "" (message_content message)) = Some true)).
Proof.
  split; [intros; apply TriggerSpec.passesTrigger_iff|].
  split; [intros; apply TriggerSpec.matchesTrigger_literal; assumption|].
  split.
  - intros w msg group Hg.
    destruct (Approval.isApproval
                (Approval.checkApprovalMessage (RegExp.trim (content msg))
                   (chat_jid msg) (pendingRequests w))) eqn:Ha.
    + destruct (processMessage_approval host w msg group Hg Ha) as [_ Hr].
      split; [|discriminate].
      split; [intros H; rewrite Hr in H; lia|intros [H _]; discriminate].
    + pose proof (processMessage_gate host w msg group Hg Ha) as H.
      destruct (Trigger.passesTrigger _ _ _) as [[|]|].
      * destruct H as (Hr & _).
        split; [split; [auto|intros _; exact Hr]|discriminate].
      * rewrite H. cbn [fst].
        split; [split; [lia|intros [_ ?]; discriminate]|reflexivity].
      * rewrite H. cbn [fst].
        split; [split; [lia|intros [_ ?]; discriminate]|discriminate].
  - intros now w message group Hb Hg.
    pose proof (onDiscordMessage_gate host now w message group Hb Hg) as H.
    destruct (Trigger.passesTrigger _ _ _) as [[|]|]; rewrite H;
      split; try reflexivity; try discriminate; lia.
Qed.

Import Samples.

(** Two messages one second apart in a chat whose trigger is the
    assistant's handle: only the second reaches the agent, with both in its
    prompt. *)
Example second_message_carries_both :
  let w := set_storedMessages [hello; message1] routerState in
  List.filter isAgentRun (trace (messageLoopCycle routerHost w))
  = [AgentRun (mkContainerInput (buildPrompt [hello; message1]) None "g1"
                 "chat1" false)] /\
  lastTimestamp (messageLoopCycle routerHost w) = timestamp message1 /\
  lastAgentTimestamp (messageLoopCycle routerHost w) !! "chat1"
  = Some (timestamp message1).
Proof. cbv zeta. repeat split; reflexivity. Qed.

Example hello_is_skipped :
  processMessage routerHost routerState hello = (routerState, Returned).
Proof. reflexivity. Qed.

Example at_bot_reaches_agent :
  agentRuns (trace (fst (processMessage routerHost routerState message1))) = 1%nat.
Proof. reflexivity. Qed.

Lemma trigger_decides_eligibility_witness :
  lookupGroup (chat_jid hello) (registeredGroups routerState) = Some group1 /\
  Trigger.passesTrigger (hostRegExp routerHost) (trigger group1)
    (RegExp.trim (content hello)) = Some false /\
  processMessage routerHost routerState hello = (routerState, Returned).
Proof.
  split; [reflexivity|]. split; [reflexivity|].
  exact (proj2 (proj1 (proj2 (proj2 (trigger_decides_eligibility routerHost)))
                  routerState hello group1 eq_refl) eq_refl eq_refl).
Defined.

(** C4, the claim as written fails, in both directions. The body of
    [spacedMessage] starts with a space, so it does not match the pattern of
    the trigger of its group, and the agent runs for it: the loop matches
    the trimmed body. The chat of the open group, whose trigger is empty,
    has pending requests, so the body approve is taken as the approval and
    the agent does not run. *)
Lemma body_match_does_not_decide :
  (lookupGroup (chat_jid spacedMessage) (registeredGroups routerState)
   = Some group1 /\
   trigger group1 = Some "@bot" /\
   content spacedMessage = " @bot hi" /\
   Trigger.matchesTrigger (hostRegExp routerHost) "@bot" (content spacedMessage)
   = Some false /\
   agentRuns (trace routerState) = 0%nat /\
   agentRuns (trace (fst (processMessage routerHost routerState spacedMessage)))
   = 1%nat) /\
  (lookupGroup (chat_jid approveMessage) (registeredGroups pendingState)
   = Some openGroup /\
   trigger openGroup = Some "" /\
   agentRuns (trace pendingState) = 0%nat /\
   agentRuns (trace (fst (processMessage routerHost pendingState approveMessage)))
   = 0%nat).
Proof. repeat split; reflexivity. Qed.

(** C5, as the code has it. A message taken as an approval is handled by
    handleApproval before the trigger check and the agent is not run for it.
    A keyword with an explicit id is always taken as an approval of that id.
    A bare keyword resolves to a pending request of the chat that no other
    pending request of the chat is later than; when the chat has no pending
    request it is not taken as an approval: no request changes, and the
    message goes through the trigger check like any other, so the agent runs
    for it exactly when the check passes. *)
Theorem approval_interception host w msg group :
  lookupGroup (chat_jid msg) (registeredGroups w) = Some group ->
  let text := RegExp.trim (content msg) in
  let check :=
    Approval.checkApprovalMessage text (chat_jid msg) (pendingRequests w) in
  let run :=
    Approval.handleApproval (applyPlan host) (pendingRequests w)
      (Approval.requestId check) (Approval.isApproved check) (sender_name msg) in
  (Approval.isApproval check = true ->
     processMessage host w msg
     = (emit (Approval.effects run) (set_pendingRequests (Approval.final run) w),
        Returned) /\
     agentRuns (trace (fst (processMessage host w msg))) = agentRuns (trace w)) /\
  (forall m,
     RegExp.exec true Approval.approvalRegExp text = Some m ->
     truthy (RegExp.group text m 2) = true ->
     Approval.isApproval check = true /\
     RegExp.group text m 2 = Some (Approval.requestId check)) /\
  (forall m,
     RegExp.exec true Approval.approvalRegExp text = Some m ->
     truthy (RegExp.group text m 2) = false ->
     Approval.latestAmong (chat_jid msg) (pendingRequests w)
       (Approval.latestPending (chat_jid msg) (pendingRequests w)) /\
     match Approval.latestPending (chat_jid msg) (pendingRequests w) with
     | Some latest =>
         Approval.isApproval check = true /\
         Approval.requestId check = Approval.id latest
     | None =>
         Approval.isApproval check = false /\
         pendingRequests (fst (processMessage host w msg)) = pendingRequests w /\
         (agentRuns (trace (fst (processMessage host w msg)))
          = S (agentRuns (trace w))
          <-> Trigger.passesTrigger (hostRegExp host) (trigger group) text
              = Some true)
     end).
Proof.
  intros Hg text check run. split; [|split].
  - intros Ha. exact (processMessage_approval host w msg group Hg Ha).
  - intros m Hm Hid. subst check. unfold Approval.checkApprovalMessage.
    rewrite Hm, Hid. cbn [Approval.isApproval Approval.requestId].
    split; [reflexivity|].
    apply truthy_Some in Hid. destruct Hid as (s & -> & _). reflexivity.
  - intros m Hm Hid.
    split; [apply LatestSpec.latestPending_latest|].
    assert (Hc : check =
              match Approval.latestPending (chat_jid msg) (pendingRequests w) with
              | Some latest =>
                  Approval.mkCheck true (Approval.id latest)
                    match RegExp.group text m 1 with
                    | Some kw => (RegExp.toLowerCase kw =? "approve")%string
                    | None => false
                    end
              | None => Approval.mkCheck false "" false
              end).
    { subst check. unfold Approval.checkApprovalMessage. rewrite Hm, Hid.
      reflexivity. }
    destruct (Approval.latestPending (chat_jid msg) (pendingRequests w)) as [l|].
    + rewrite Hc. split; reflexivity.
    + assert (Ha : Approval.isApproval check = false) by (rewrite Hc; reflexivity).
      split; [exact Ha|].
      pose proof (processMessage_gate host w msg group Hg Ha) as H.
      fold text in H.
      destruct (Trigger.passesTrigger _ _ _) as [[|]|].
      * destruct H as (Hr & Hp & _). split; [exact Hp|].
        split; [reflexivity|intros _; exact Hr].
      * rewrite H. cbn [fst]. split; [reflexivity|]. split; [lia|discriminate].
      * rewrite H. cbn [fst]. split; [reflexivity|]. split; [lia|discriminate].
Qed.

Lemma approval_interception_witness :
  lookupGroup (chat_jid approveMessage) (registeredGroups pendingState)
    = Some openGroup /\
  Approval.requestId
    (Approval.checkApprovalMessage (RegExp.trim (content approveMessage))
       (chat_jid approveMessage) (pendingRequests pendingState))
  = Approval.id request2.
Proof.
  split; [reflexivity|].
  exact (proj2 (proj2 (proj2 (proj2 (approval_interception routerHost pendingState
                                       approveMessage openGroup eq_refl))
                         [(1%nat, (0%nat, 7%nat))] eq_refl eq_refl))).
Defined.

(** C5, the claim as written fails: the chat has no pending request and its
    group answers every message, so the bare keyword is handed to the
    agent. *)
Lemma bare_approve_reaches_agent :
  let w' := fst (processMessage routerHost openState approveMessage) in
  pendingRequests openState = [] /\
  lookupGroup (chat_jid approveMessage) (registeredGroups openState)
    = Some openGroup /\
  Approval.isApproval
    (Approval.checkApprovalMessage (RegExp.trim (content approveMessage))
       (chat_jid approveMessage) (pendingRequests openState)) = false /\
  pendingRequests w' = [] /\
  trace w' =
    [LogInfo "Processing message"; Typing "chat0" true;
     AgentRun (mkContainerInput (buildPrompt [approveMessage]) None "g0"
                 "chat0" false);
     Typing "chat0" false; Sent "chat0" "Hello!"] /\
  agentRuns (trace w') = 1%nat.
Proof.
  cbv zeta. repeat split; reflexivity.
Qed.


(** The call of [processMessage] throws only when the trigger pattern cannot
    be built; what the agent does has no part in it. *)
Lemma processMessage_thrown host w msg :
  snd (processMessage host w msg) = Thrown <->
  exists group,
    lookupGroup (chat_jid msg) (registeredGroups w) = Some group /\
    Approval.isApproval
      (Approval.checkApprovalMessage (RegExp.trim (content msg)) (chat_jid msg)
         (pendingRequests w)) = false /\
    Trigger.passesTrigger (hostRegExp host) (trigger group)
      (RegExp.trim (content msg)) = None.
Proof.
  split.
  - intros Ht.
    destruct (lookupGroup (chat_jid msg) (registeredGroups w)) as [group|] eqn:Hg;
      [|unfold processMessage in Ht; rewrite Hg in Ht; discriminate].
    exists group. split; [reflexivity|].
    destruct (Approval.isApproval _) eqn:Ha.
    + destruct (processMessage_approval host w msg group Hg Ha) as [H _].
      rewrite H in Ht. discriminate.
    + split; [reflexivity|].
      pose proof (processMessage_gate host w msg group Hg Ha) as H.
      destruct (Trigger.passesTrigger _ _ _) as [[|]|]; [| |reflexivity].
      * destruct H as (_ & _ & _ & H). congruence.
      * rewrite H in Ht. discriminate.
  - intros (group & Hg & Ha & Hp).
    pose proof (processMessage_gate host w msg group Hg Ha) as H.
    rewrite Hp in H. rewrite H. reflexivity.
Qed.

(** Whatever the agent answers, a message that passes the trigger check
    moves the watermark to its timestamp. *)
Lemma watermark_moves_whatever_the_agent_does host w msg group rest :
  lookupGroup (chat_jid msg) (registeredGroups w) = Some group ->
  Trigger.passesTrigger (hostRegExp host) (trigger group)
    (RegExp.trim (content msg)) <> None ->
  processBatch host w (msg :: rest)
  = processBatch host
      (set_lastTimestamp (timestamp msg) (fst (processMessage host w msg))) rest.
Proof.
  intros Hg Hp. cbn [processBatch].
  destruct (processMessage host w msg) as [w' c] eqn:E.
  destruct c; [reflexivity|].
  assert (Ht : snd (processMessage host w msg) = Thrown) by (rewrite E; reflexivity).
  apply processMessage_thrown in Ht. destruct Ht as (g & Hg' & _ & Hn).
  rewrite Hg in Hg'. injection Hg' as <-. contradiction.
Qed.

Example rejected_agent_call_advances_watermark :
  lastTimestamp (messageLoopCycle crashingHost routerState) = timestamp message1 /\
  In (LogError "Agent error") (trace (messageLoopCycle crashingHost routerState)).
Proof. split; [reflexivity|]. vm_compute. tauto. Qed.

(** C1, the code at the failing input: the agent answers the one new
    message with the status error; the cycle still moves the watermark to
    that message, the next fetch is empty, and the next cycle does nothing,
    so the message is not tried again. *)
Theorem agent_error_advances_watermark :
  let w1 := messageLoopCycle failingHost routerState in
  getNewMessages (batchLimit failingHost) (storedMessages routerState)
    (map fst (registeredGroups routerState)) (lastTimestamp routerState)
    (ASSISTANT_NAME failingHost) = [message1] /\
  lastTimestamp routerState = "" /\
  trace w1 =
    [LogInfo "New messages"; LogInfo "Processing message"; Typing "chat1" true;
     AgentRun (mkContainerInput (buildPrompt [message1]) None "g1" "chat1" false);
     LogError "Container agent error"; Typing "chat1" false] /\
  lastTimestamp w1 = timestamp message1 /\
  lastAgentTimestamp w1 = ∅ /\
  getNewMessages (batchLimit failingHost) (storedMessages w1)
    (map fst (registeredGroups w1)) (lastTimestamp w1)
    (ASSISTANT_NAME failingHost) = [] /\
  messageLoopCycle failingHost w1 = w1.
Proof.
  cbv zeta. repeat split; reflexivity.
Qed.

End RouterSpec.

(** ** The e-mail loop *)

Module EmailSpec.
Import Email.

Lemma replyAttempts_app i t es :
  replyAttempts i (t ++ es) = (replyAttempts i t + replyAttempts i es)%nat.
Proof. unfold replyAttempts. rewrite List.filter_app, length_app. reflexivity. Qed.

Ltac count_replies :=
  unfold replyAttempts in *; cbn in *;
  repeat rewrite List.filter_app in *; repeat rewrite length_app in *;
  cbn in *; try lia.

Lemma runEmailAgent_frame host w group prompt chatJid i :
  let w' := fst (runEmailAgent host w group prompt chatJid) in
  processedEmails w' = processedEmails w /\
  replyAttempts i (trace w') = replyAttempts i (trace w).
Proof.
  unfold runEmailAgent.
  destruct (runContainerAgent host _ _) as [output|]; cbn.
  - destruct (truthy (Router.out_newSessionId output)), (Router.out_status output);
      cbn; split; try reflexivity; count_replies.
  - split; [reflexivity|count_replies].
Qed.

Lemma sendEmailReply_frame host to subj text thread inReplyTo w i :
  let w' := sendEmailReply host to subj text thread inReplyTo w in
  processedEmails w' = processedEmails w /\
  replyAttempts i (trace w')
  = (replyAttempts i (trace w) + if (inReplyTo =? i)%string then 1 else 0)%nat.
Proof.
  unfold sendEmailReply. split; [reflexivity|].
  cbn [trace emit]. rewrite replyAttempts_app. f_equal.
  unfold replyAttempts. cbn.
  destruct (inReplyTo =? i)%string; destruct (sendResolves host _ _); reflexivity.
Qed.

Lemma isEmailProcessed_mark now i j th f s emails :
  Store.isEmailProcessed j (Store.markEmailProcessed now i th f s emails)
  = (i =? j)%string || Store.isEmailProcessed j emails.
Proof.
  unfold Store.isEmailProcessed, Store.markEmailProcessed.
  destruct (i =? j)%string eqn:E.
  - apply String.eqb_eq in E. subst j. rewrite lookup_insert_eq.
    apply bool_decide_eq_true. eauto.
  - apply String.eqb_neq in E. rewrite lookup_insert_ne by exact E. reflexivity.
Qed.

Lemma isEmailProcessed_responded i j emails :
  Store.isEmailProcessed j (Store.markEmailResponded i emails)
  = Store.isEmailProcessed j emails.
Proof.
  unfold Store.isEmailProcessed, Store.markEmailResponded.
  apply bool_decide_ext. rewrite lookup_alter. case_decide.
  - subst. rewrite <- !not_eq_None_Some.
    destruct (emails !! j); cbn; split; congruence.
  - reflexivity.
Qed.

(** One email: a processed id is skipped; otherwise the id becomes processed,
    the ids processed before stay so, and only this id can gain a reply
    attempt, at most one. *)
Lemma processEmail_step host w email :
  (Store.isEmailProcessed (id email) (processedEmails w) = true ->
   processEmail host w email = w) /\
  (forall j,
     Store.isEmailProcessed j (processedEmails (processEmail host w email))
     = (id email =? j)%string || Store.isEmailProcessed j (processedEmails w)) /\
  (forall j,
     Store.isEmailProcessed (id email) (processedEmails w) = false ->
     (replyAttempts j (trace w) <= replyAttempts j (trace (processEmail host w email))
      <= replyAttempts j (trace w) + if (id email =? j)%string then 1 else 0)%nat).
Proof.
  unfold processEmail.
  destruct (Store.isEmailProcessed (id email) (processedEmails w)) eqn:Hp.
  - split; [reflexivity|]. split; [|discriminate].
    intros j. destruct (id email =? j)%string eqn:E; [|reflexivity].
    apply String.eqb_eq in E. subst j. exact Hp.
  - split; [discriminate|].
    set (w1 := set_processedEmails _ (emit [LogInfo "Processing email"] w)).
    set (grp := Router.mkGroup _ _ _ _ _).
    assert (Hw1 : forall j, replyAttempts j (trace w1) = replyAttempts j (trace w)).
    { intros j. subst w1. count_replies. }
    destruct (negb (folderReady host _)).
    { split.
      - intros j. subst w1. cbn [processedEmails set_processedEmails].
        apply isEmailProcessed_mark.
      - intros j _. rewrite Hw1. destruct (id email =? j)%string; lia. }
    assert (Hagent := fun j => runEmailAgent_frame host w1 grp (emailPrompt email)
                                 ("email:" ++ from email) j).
    cbv zeta in Hagent.
    destruct (runEmailAgent host w1 grp (emailPrompt email) ("email:" ++ from email))
      as [w2 response].
    cbn [fst] in Hagent.
    destruct (truthy response).
    + set (w3 := sendEmailReply host _ _ _ _ _ w2).
      assert (Hsend := fun j => sendEmailReply_frame host (from email) (subject email)
                                  (default "" response) (threadId email) (id email) w2 j).
      cbv zeta in Hsend. fold w3 in Hsend.
      split.
      * intros j. cbn [processedEmails set_processedEmails].
        rewrite isEmailProcessed_responded.
        rewrite (proj1 (Hsend j)), (proj1 (Hagent j)). subst w1.
        cbn [processedEmails set_processedEmails]. apply isEmailProcessed_mark.
      * intros j _. cbn [trace set_processedEmails].
        rewrite (proj2 (Hsend j)), (proj2 (Hagent j)), Hw1. lia.
    + split.
      * intros j. rewrite (proj1 (Hagent j)). subst w1.
        cbn [processedEmails set_processedEmails]. apply isEmailProcessed_mark.
      * intros j _. rewrite (proj2 (Hagent j)), Hw1.
        destruct (id email =? j)%string; lia.
Qed.

Lemma processEmail_atMostOnce host w email :
  atMostOnce w -> atMostOnce (processEmail host w email).
Proof.
  intros Hw.
  destruct (processEmail_step host w email) as (Hskip & Hproc & Hcount).
  destruct (Store.isEmailProcessed (id email) (processedEmails w)) eqn:Hp.
  - rewrite (Hskip eq_refl). exact Hw.
  - intros j. specialize (Hcount j eq_refl). destruct (Hw j) as [Hzero Hone].
    rewrite Hproc. split.
    + intros Hn. apply orb_false_iff in Hn. destruct Hn as [Hne Hnp].
      rewrite Hne in Hcount. rewrite (Hzero Hnp) in Hcount. lia.
    + destruct (id email =? j)%string eqn:E; [|lia].
      apply String.eqb_eq in E. subst j. rewrite (Hzero Hp) in Hcount. lia.
Qed.

Lemma processEmail_processed_kept host w email i :
  Store.isEmailProcessed i (processedEmails w) = true ->
  Store.isEmailProcessed i (processedEmails (processEmail host w email)) = true /\
  replyAttempts i (trace (processEmail host w email)) = replyAttempts i (trace w).
Proof.
  intros Hi. destruct (processEmail_step host w email) as (Hskip & Hproc & Hcount).
  split; [rewrite Hproc, Hi; apply orb_true_r|].
  destruct (Store.isEmailProcessed (id email) (processedEmails w)) eqn:Hp.
  - rewrite (Hskip eq_refl). reflexivity.
  - specialize (Hcount i eq_refl).
    destruct (id email =? i)%string eqn:E; [|lia].
    apply String.eqb_eq in E. subst i. congruence.
Qed.

Lemma atMostOnce_logged w m : atMostOnce w -> atMostOnce (emit [LogError m] w).
Proof.
  intros Hw i. destruct (Hw i) as [Hzero Hone].
  cbn [processedEmails trace emit]. rewrite replyAttempts_app.
  change (replyAttempts i [LogError m]) with 0%nat. rewrite Nat.add_0_r.
  split; assumption.
Qed.

Lemma emailLoopCycle_atMostOnce host emails : forall w,
  atMostOnce w -> atMostOnce (emailLoopCycle host w emails).
Proof.
  induction emails as [|e emails IH]; intros w Hw; cbn [emailLoopCycle].
  - exact Hw.
  - pose proof (processEmail_atMostOnce host w e Hw) as He.
    destruct (folderFails host w e); [apply atMostOnce_logged, He|apply IH, He].
Qed.

Lemma emailLoopCycle_processed_kept host emails i : forall w,
  Store.isEmailProcessed i (processedEmails w) = true ->
  Store.isEmailProcessed i (processedEmails (emailLoopCycle host w emails)) = true /\
  replyAttempts i (trace (emailLoopCycle host w emails)) = replyAttempts i (trace w).
Proof.
  induction emails as [|e emails IH]; intros w Hi; cbn [emailLoopCycle].
  - split; [exact Hi|reflexivity].
  - destruct (processEmail_processed_kept host w e i Hi) as [Hp Hc].
    destruct (folderFails host w e).
    + cbn [processedEmails trace emit]. rewrite replyAttempts_app.
      change (replyAttempts i [LogError "Error in email loop"]) with 0%nat.
      rewrite Nat.add_0_r. split; assumption.
    + destruct (IH _ Hp) as [Hp' Hc']. split; [exact Hp'|congruence].
Qed.

(** C2, as the code has it. An email whose id is recorded as processed is
    skipped; processing an email records its id; so once an email has been
    processed, whether its reply was delivered or not, no later poll
    attempts a reply for it, and over any polls at most one reply is
    attempted per message id. *)
Theorem email_reply_never_retried host w :
  (forall email,
     Store.isEmailProcessed (id email) (processedEmails w) = true ->
     processEmail host w email = w) /\
  (forall email,
     Store.isEmailProcessed (id email)
       (processedEmails (processEmail host w email)) = true) /\
  (forall polls i,
     Store.isEmailProcessed i (processedEmails w) = true ->
     replyAttempts i (trace (emailLoop host polls w)) = replyAttempts i (trace w)) /\
  (forall polls, atMostOnce w -> atMostOnce (emailLoop host polls w)).
Proof.
  split; [intros email; apply processEmail_step|].
  split.
  - intros email. destruct (processEmail_step host w email) as (_ & Hproc & _).
    rewrite Hproc, String.eqb_refl. reflexivity.
  - split.
    + intros polls. revert w. unfold emailLoop.
      induction polls as [|p polls IH]; intros w i Hi; cbn; [reflexivity|].
      destruct (emailLoopCycle_processed_kept host p i w Hi) as [Hp Hc].
      rewrite (IH _ i Hp). exact Hc.
    + intros polls. revert w. unfold emailLoop.
      induction polls as [|p polls IH]; intros w Hw; cbn; [exact Hw|].
      apply IH. apply emailLoopCycle_atMostOnce. exact Hw.
Qed.

Import Samples.

Example atMostOnce_initially : atMostOnce emailState.
Proof. intros i. split; [reflexivity|cbn; lia]. Qed.

(** C2, the claim as written fails: the agent answers, the send is rejected,
    the record is marked responded all the same, and the next poll, which
    returns the same email, does nothing. *)
Lemma failed_reply_is_not_retried :
  let w1 := emailLoopCycle emailHost emailState [email1] in
  let w2 := emailLoopCycle emailHost w1 [email1] in
  In (EmailSend "m1" "ann@example.org" "Re: Question" "Hello!" false) (trace w1) /\
  option_map Store.responded (processedEmails w1 !! "m1") = Some true /\
  w2 = w1 /\
  replyAttempts "m1" (trace w2) = 1%nat.
Proof.
  cbv zeta. split; [vm_compute; tauto|]. repeat split; reflexivity.
Qed.

(** When the folder of the conversation cannot be created, the id is
    recorded all the same, the agent is not run, the error ends the poll
    before the second email, and the next poll skips the first one. *)
Example folder_failure_ends_the_poll :
  let w1 := emailLoopCycle emailHostReadOnly emailState [email1; email2] in
  let w2 := emailLoopCycle emailHostReadOnly w1 [email1] in
  trace w1 = [LogInfo "Processing email"; LogError "Error in email loop"] /\
  Store.isEmailProcessed "m1" (processedEmails w1) = true /\
  Store.isEmailProcessed "m2" (processedEmails w1) = false /\
  w2 = w1.
Proof. cbv zeta. repeat split; reflexivity. Qed.

Lemma email_reply_never_retried_witness :
  let w1 := emailLoopCycle emailHost emailState [email1] in
  Store.isEmailProcessed "m1" (processedEmails w1) = true /\
  replyAttempts "m1" (trace (emailLoop emailHost [[email1]; [email1]] w1))
  = replyAttempts "m1" (trace w1).
Proof.
  cbv zeta. split; [reflexivity|].
  exact (proj1 (proj2 (proj2 (email_reply_never_retried emailHost
                                (emailLoopCycle emailHost emailState [email1]))))
           [[email1]; [email1]] "m1" eq_refl).
Defined.

End EmailSpec.

(** ** Runs of the approval machine *)

Module ApprovalExamples.
Import Approval Samples.

Example approve_then_applied :
  let run := handleApproval (fun _ => ApplyOk "done") [request1; request2] "hc-1" true "Ann" in
  map status (atNotice run) = [approved; pending] /\
  map status (final run) = [applied; pending] /\
  map approvedBy (final run) = [Some "Ann"; None].
Proof. repeat split; reflexivity. Qed.

Example rename_throws_then_failed :
  let run :=
    handleApproval (fun _ => RenameThrows "done" "ENOENT") [request1] "hc-1" true "Ann" in
  map status (atNotice run) = [approved] /\
  map status (final run) = [failed] /\
  map error (final run) = [Some "ENOENT"].
Proof. repeat split; reflexivity. Qed.

Example deny_then_denied :
  let run := handleApproval (fun _ => ApplyOk "done") [request1] "hc-1" false "Ann" in
  map status (atNotice run) = [denied] /\ map status (final run) = [denied].
Proof. repeat split; reflexivity. Qed.

Lemma approval_transitions_one_way_witness :
  let settled := final (handleApproval (fun _ => ApplyOk "done") [request1] "hc-1" false "Ann") in
  option_map status (get "hc-1" settled) = Some denied /\
  final (handleApproval (fun _ => ApplyOk "done") settled "hc-1" true "Bob") = settled.
Proof.
  cbv zeta. split; [reflexivity|].
  refine (proj2 (proj1 (proj2 (proj2 (ApprovalSpec.approval_transitions_one_way
            (fun _ => ApplyOk "done")
            (final (handleApproval (fun _ => ApplyOk "done") [request1] "hc-1" false "Ann"))
            "hc-1" true "Bob"))) _ eq_refl _)).
  discriminate.
Defined.

End ApprovalExamples.

(** ** Strings *)

Module StringFacts.

Lemma substring_all (s : string) : substring 0 (String.length s) s = s.
Proof. induction s as [|c s IH]; simpl; [reflexivity|now rewrite IH]. Qed.

Lemma prefix_app (pat s : string) : String.prefix pat (pat ++ s) = true.
Proof.
  induction pat as [|c pat IH]; simpl; [now destruct s|].
  destruct (Ascii.ascii_dec c c); [exact IH|contradiction].
Qed.

Lemma substring_app_skip (pat s : string) n :
  substring (String.length pat) n (pat ++ s) = substring 0 n s.
Proof. induction pat as [|c pat IH]; simpl; [reflexivity|exact IH]. Qed.

Lemma length_app_string (a b : string) :
  String.length (a ++ b) = (String.length a + String.length b)%nat.
Proof. induction a as [|c a IH]; simpl; [reflexivity|now rewrite IH]. Qed.

Lemma append_assoc_string (a b c : string) :
  ((a ++ b) ++ c)%string = (a ++ b ++ c)%string.
Proof.
  induction a as [|x a IH]; [reflexivity|].
  change (String x ((a ++ b) ++ c) = String x (a ++ b ++ c))%string.
  now rewrite IH.
Qed.

Lemma substring_prefix (pre s : string) :
  substring 0 (String.length pre) (pre ++ s) = pre.
Proof.
  induction pre as [|c pre IH]; simpl; [now destruct s|now rewrite IH].
Qed.

Lemma startsWith_app (pre s : string) : Email.startsWith pre (pre ++ s) = true.
Proof. unfold Email.startsWith. rewrite substring_prefix. apply String.eqb_refl. Qed.

(** Removing a prefix with [replace]. *)
Lemma replaceFirst_prefix (pat s : string) :
  JsString.replaceFirst pat "" (pat ++ s) = s.
Proof.
  assert (H : forall x, JsString.replaceFirst pat "" x
              = if String.prefix pat x
                then ("" ++ substring (String.length pat)
                              (String.length x - String.length pat) x)%string
                else match x with
                     | EmptyString => EmptyString
                     | String c x' => String c (JsString.replaceFirst pat "" x')
                     end)
    by (intros x; destruct x; reflexivity).
  rewrite H, prefix_app. cbn [append].
  rewrite substring_app_skip, length_app_string.
  replace (String.length pat + String.length s - String.length pat)%nat
    with (String.length s) by lia.
  apply substring_all.
Qed.

Lemma substring_app_offset (p s : string) k n :
  substring (String.length p + k) n (p ++ s) = substring k n s.
Proof. induction p as [|c p IH]; simpl; [reflexivity|exact IH]. Qed.

Lemma endsWith_app (p suffix : string) : Ipc.endsWith suffix (p ++ suffix) = true.
Proof.
  unfold Ipc.endsWith. rewrite length_app_string.
  replace (String.length p + String.length suffix - String.length suffix)%nat
    with (String.length p + 0)%nat by lia.
  rewrite substring_app_offset, substring_all, String.eqb_refl.
  rewrite andb_true_r. apply Nat.leb_le. lia.
Qed.

Lemma list_ascii_of_string_app (a b : string) :
  list_ascii_of_string (a ++ b)
  = (list_ascii_of_string a ++ list_ascii_of_string b)%list.
Proof.
  induction a as [|c a IH]; [reflexivity|].
  change (c :: list_ascii_of_string (a ++ b)
          = c :: (list_ascii_of_string a ++ list_ascii_of_string b)%list).
  now rewrite IH.
Qed.

Lemma startsWith_split (pre s : string) :
  Email.startsWith pre s = true -> exists rest, s = (pre ++ rest)%string.
Proof.
  unfold Email.startsWith. intros H. apply String.eqb_eq in H.
  revert s H. induction pre as [|c pre IH]; intros s H.
  - exists s. reflexivity.
  - destruct s as [|x s]; [discriminate|].
    cbn [String.length substring] in H. injection H as -> H.
    destruct (IH s H) as (rest & ->). exists rest. reflexivity.
Qed.
End StringFacts.

(** ** More of the matcher *)

Module RegExpFacts.
Import RegExp StarLoop.

Lemma run_Star ic input r i cs k :
  run ic input (Star r) i cs k = starLoop ic input r k (S (length input)) i cs.
Proof. reflexivity. Qed.

Lemma run_Seq ic input r1 r2 i cs k :
  run ic input (Seq r1 r2) i cs k
  = run ic input r1 i cs (fun j cs' => run ic input r2 j cs' k).
Proof. reflexivity. Qed.

Lemma run_Class ic input p i cs k :
  run ic input (Class p) i cs k
  = match nth_error input i with
    | Some x => if p x then k (S i) cs else None
    | None => None
    end.
Proof. reflexivity. Qed.

Lemma skipn_nth (input : list ascii) i x :
  nth_error input i = Some x -> skipn i input = x :: skipn (S i) input.
Proof.
  revert i. induction input as [|a input IH]; intros [|i]; cbn; try discriminate.
  - intros [= ->]. reflexivity.
  - intros H. rewrite (IH i H). reflexivity.
Qed.

Lemma skipn_end (input : list ascii) i :
  nth_error input i = None -> skipn i input = [].
Proof.
  revert i. induction input as [|a input IH]; intros [|i]; cbn; try discriminate;
    try reflexivity.
  apply IH.
Qed.

(** A greedy star over a class, followed by something that matches at the
    end of the input: when the rest of the input is in the class, the match
    is the one that consumes it all. *)
Lemma starLoop_class_all ic input p k res : forall fuel i cs,
  (length input - i <= fuel)%nat ->
  allFrom p input i = true ->
  k (length input) cs = Some res ->
  (i <= length input)%nat ->
  starLoop ic input (Class p) k fuel i cs = Some res.
Proof.
  induction fuel as [|fuel IH]; intros i cs Hfuel Hall Hk Hi.
  - cbn [starLoop]. replace i with (length input) by lia. exact Hk.
  - cbn [starLoop]. rewrite run_Class.
    destruct (nth_error input i) as [x|] eqn:Hx.
    + unfold allFrom in Hall. rewrite (skipn_nth _ _ _ Hx) in Hall.
      cbn [forallb] in Hall. apply andb_true_iff in Hall. destruct Hall as [Hp Hrest].
      rewrite Hp.
      assert (Hlt : (i <? S i)%nat = true) by (apply Nat.ltb_lt; lia).
      rewrite Hlt.
      assert (Hlen : (i < length input)%nat)
        by (apply nth_error_Some; congruence).
      rewrite (IH (S i) cs); [reflexivity|lia|exact Hrest|exact Hk|lia].
    + apply nth_error_None in Hx. replace i with (length input) by lia. exact Hk.
Qed.

(** A greedy star over a class, followed by the end of the input only. *)
Lemma starLoop_class_end ic input p : forall fuel i cs,
  (length input - i <= fuel)%nat ->
  (i <= length input)%nat ->
  starLoop ic input (Class p)
    (fun j cs' => if (j =? length input)%nat then Some (j, cs') else None)
    fuel i cs
  = if allFrom p input i then Some (length input, cs) else None.
Proof.
  induction fuel as [|fuel IH]; intros i cs Hfuel Hi.
  - cbn [starLoop]. assert (i = length input) by lia. subst i.
    rewrite Nat.eqb_refl. unfold allFrom. rewrite skipn_all. reflexivity.
  - cbn [starLoop]. rewrite run_Class.
    destruct (nth_error input i) as [x|] eqn:Hx.
    + assert (Hlen : (i < length input)%nat)
        by (apply nth_error_Some; congruence).
      unfold allFrom. rewrite (skipn_nth _ _ _ Hx). cbn [forallb].
      assert (Hne : (i =? length input)%nat = false) by (apply Nat.eqb_neq; lia).
      destruct (p x); cbn [andb].
      * assert (Hlt : (i <? S i)%nat = true) by (apply Nat.ltb_lt; lia).
        rewrite Hlt, (IH (S i) cs) by lia. unfold allFrom.
        destruct (forallb p (skipn (S i) input)); [reflexivity|].
        rewrite Hne. reflexivity.
      * rewrite Hne. reflexivity.
    + apply nth_error_None in Hx. assert (i = length input) by lia. subst i.
      rewrite Nat.eqb_refl. unfold allFrom. rewrite skipn_all. reflexivity.
Qed.

(** A pattern anchored at the start matches at no later position. *)
Lemma searchFrom_anchored ic input r : forall fuel i,
  searchFrom ic input (Seq AssertStart r) (S i) fuel = None.
Proof.
  induction fuel as [|fuel IH]; intros i; cbn [searchFrom];
    unfold matchAt; cbn [run Nat.eqb]; [reflexivity|apply IH].
Qed.

Lemma exec_anchored ic r s :
  exec ic (Seq AssertStart r) s
  = option_map snd (matchAt ic (list_ascii_of_string s) (Seq AssertStart r) 0).
Proof.
  unfold exec.
  destruct (length (list_ascii_of_string s)) as [|n];
    cbn [searchFrom]; destruct (matchAt _ _ _ 0); try reflexivity.
  rewrite searchFrom_anchored. reflexivity.
Qed.
Lemma run_Alt ic input r1 r2 i cs k :
  run ic input (Alt r1 r2) i cs k
  = match run ic input r1 i cs k with
    | Some res => Some res
    | None => run ic input r2 i cs k
    end.
Proof. reflexivity. Qed.

Lemma run_Group ic input n r i cs k :
  run ic input (Group n r) i cs k
  = run ic input r i cs (fun j cs' => k j ((n, (i, j)) :: cs')).
Proof. reflexivity. Qed.

Lemma run_AssertStart ic input i cs k :
  run ic input AssertStart i cs k = if (i =? 0)%nat then k i cs else None.
Proof. reflexivity. Qed.

Lemma run_AssertEnd ic input i cs k :
  run ic input AssertEnd i cs k
  = if (i =? length input)%nat then k i cs else None.
Proof. reflexivity. Qed.

Lemma run_Empty ic input i cs k : run ic input Empty i cs k = k i cs.
Proof. reflexivity. Qed.

(** A greedy star over a class stops where the class does. *)
Lemma starLoop_class_stop ic input p k fuel i cs x :
  nth_error input i = Some x -> p x = false ->
  starLoop ic input (Class p) k fuel i cs = k i cs.
Proof.
  intros Hx Hp. destruct fuel; cbn [starLoop]; [reflexivity|].
  rewrite RegExpFacts.run_Class, Hx, Hp. reflexivity.
Qed.

Lemma nth_error_skipn (input : list ascii) i j :
  nth_error input (i + j) = nth_error (skipn i input) j.
Proof.
  revert input. induction i as [|i IH]; intros input; [reflexivity|].
  destruct input as [|a input]; [now destruct j|]. apply IH.
Qed.

Lemma skipn_skipn (input : list ascii) i j :
  skipn (i + j) input = skipn j (skipn i input).
Proof.
  revert input. induction i as [|i IH]; intros input; [reflexivity|].
  destruct input as [|a input]; [now destruct j|]. apply IH.
Qed.

Lemma run_LazyStar ic input r i cs k :
  run ic input (LazyStar r) i cs k = lazyLoop ic input r k (S (length input)) i cs.
Proof. reflexivity. Qed.

Lemma run_Char input c i cs k :
  run false input (Char c) i cs k
  = match nth_error input i with
    | Some x => if Ascii.eqb x c then k (S i) cs else None
    | None => None
    end.
Proof. reflexivity. Qed.

(** A lazy star over a class, followed by something that fails on the
    code units of [mid] and succeeds right after them. *)
Lemma lazyLoop_class_scan input p k res : forall mid fuel i cs,
  (length mid <= fuel)%nat ->
  firstn (length mid) (skipn i input) = mid ->
  (length mid <= length (skipn i input))%nat ->
  forallb p mid = true ->
  (forall j, (i <= j < i + length mid)%nat -> k j cs = None) ->
  k (i + length mid)%nat cs = Some res ->
  lazyLoop false input (Class p) k fuel i cs = Some res.
Proof.
  induction mid as [|x mid IH]; intros fuel i cs Hfuel Hmid Hlen Hp Hfail Hk.
  - cbn [length] in Hk. rewrite Nat.add_0_r in Hk.
    destruct fuel; cbn [lazyLoop]; rewrite Hk; reflexivity.
  - destruct fuel as [|fuel]; [cbn in Hfuel; lia|].
    cbn [lazyLoop]. rewrite (Hfail i) by (cbn [length]; lia).
    rewrite run_Class.
    destruct (skipn i input) as [|y rest] eqn:Hskip; [cbn in Hlen; lia|].
    cbn [firstn length] in Hmid. injection Hmid as -> Hmid.
    assert (Hnth : nth_error input i = Some x).
    { rewrite <- (Nat.add_0_r i), nth_error_skipn, Hskip. reflexivity. }
    rewrite Hnth. cbn [forallb] in Hp. apply andb_true_iff in Hp.
    destruct Hp as [Hx Hp]. rewrite Hx.
    assert (Hlt : (i <? S i)%nat = true) by (apply Nat.ltb_lt; lia).
    rewrite Hlt.
    assert (Hskip' : skipn (S i) input = rest).
    { replace (S i) with (i + 1)%nat by lia.
      rewrite skipn_skipn, Hskip. reflexivity. }
    apply IH.
    + cbn [length] in Hfuel. lia.
    + rewrite Hskip'. exact Hmid.
    + rewrite Hskip'. cbn [length] in Hlen. lia.
    + exact Hp.
    + intros j Hj. apply Hfail. cbn [length]. lia.
    + replace (S i + length mid)%nat with (i + length (x :: mid))%nat
        by (cbn [length]; lia).
      exact Hk.
Qed.

(** A pattern that begins with a character finds no match at the
    positions of a prefix that does not hold the character. *)
Lemma searchFrom_skip input c r (pre : list ascii) : forall fuel i,
  firstn (length pre) input = pre ->
  (length pre <= length input)%nat ->
  forallb (fun x => negb (Ascii.eqb x c)) pre = true ->
  (i <= length pre)%nat -> (length pre - i <= fuel)%nat ->
  searchFrom false input (Seq (Char c) r) i fuel
  = searchFrom false input (Seq (Char c) r) (length pre) (fuel - (length pre - i)).
Proof.
  induction fuel as [|fuel IH]; intros i Hpre Hlen Hall Hi Hfuel.
  - replace i with (length pre) by lia. reflexivity.
  - destruct (Nat.eq_dec i (length pre)) as [->|Hne].
    + rewrite Nat.sub_diag, Nat.sub_0_r. reflexivity.
    + cbn [searchFrom]. unfold matchAt at 1.
      rewrite run_Seq, run_Char.
      assert (Hnth : exists x, nth_error input i = Some x /\ Ascii.eqb x c = false).
      { assert (Hi' : (i < length pre)%nat) by lia.
        destruct (nth_error pre i) as [x|] eqn:Hx;
          [|apply nth_error_None in Hx; lia].
        exists x. split.
        - rewrite <- Hpre in Hx. rewrite nth_error_firstn in Hx.
          destruct (i <? length pre)%nat eqn:E; [exact Hx|].
          apply Nat.ltb_ge in E. lia.
        - rewrite forallb_forall in Hall. apply nth_error_In in Hx.
          specialize (Hall x Hx). now apply negb_true_iff in Hall. }
      destruct Hnth as (x & -> & ->).
      rewrite (IH (S i)) by (try assumption; lia).
      f_equal. lia.
Qed.
End RegExpFacts.

(** ** More of the IPC command bus *)

Module IpcFacts.
Import Ipc Confinement.

Ltac break_if := IpcSpec.break_if.

Ltac bools :=
  repeat match goal with
         | H : (_ && _)%bool = true |- _ => apply andb_true_iff in H; destruct H
         | H : (_ || _)%bool = false |- _ => apply orb_false_iff in H; destruct H
         | H : (_ || _)%bool = true |- _ => apply orb_true_iff in H
         | H : negb _ = false |- _ => apply negb_false_iff in H
         | H : negb _ = true |- _ => apply negb_true_iff in H
         | H : (_ =? _)%string = true |- _ => apply String.eqb_eq in H
         | H : (_ =? _)%string = false |- _ => apply String.eqb_neq in H
         | H : truthy _ = true |- _ => apply IpcSpec.present_truthy in H
         end.

Lemma only_warning (w : State) (m : string) (e : Event) :
  In e (trace (emit [LogWarn m] w)) -> In e (trace w) \/ exists m', e = LogWarn m'.
Proof.
  cbn. intros He. apply in_app_or in He. destruct He as [He|[<-|[]]]; eauto.
Qed.

(** The task a schedule_task command creates, whenever it creates one. *)
Lemma scheduleTask_cases host w data sourceGroup isMain :
  let w' := fst (scheduleTask host w data sourceGroup isMain) in
  (tasks w' = tasks w /\
   forall e, In e (trace w') -> In e (trace w) \/ exists m, e = LogWarn m) \/
  exists t,
    w' = emit [LogInfo "Task created via IPC"]
           (set_tasks (Store.createTask t (tasks w)) w) /\
    prompt data = Some (Store.prompt t) /\
    schedule_type data = Some (Store.schedule_type t) /\
    schedule_value data = Some (Store.schedule_value t) /\
    groupFolder data = Some (Store.group_folder t) /\
    (isMain = true \/ Store.group_folder t = sourceGroup) /\
    Store.status t = Store.active /\
    (Store.context_mode t = "group" \/ Store.context_mode t = "isolated") /\
    (context_mode data = Some "group" -> Store.context_mode t = "group") /\
    (Store.schedule_type t = "cron" ->
       cronNext host (Store.schedule_value t) = Store.next_run t /\
       Store.next_run t <> None) /\
    (Store.schedule_type t = "interval" ->
       exists ms, parseInt host (Store.schedule_value t) = Some ms /\ 0 < ms /\
                  dateAfter host ms = Store.next_run t /\ Store.next_run t <> None) /\
    (Store.schedule_type t = "once" ->
       parseDate host (Store.schedule_value t) = Store.next_run t /\
       Store.next_run t <> None) /\
    (Store.schedule_type t <> "cron" -> Store.schedule_type t <> "interval" ->
     Store.schedule_type t <> "once" -> Store.next_run t = None).
Proof.
  unfold scheduleTask.
  destruct (truthy (prompt data) && truthy (schedule_type data)
            && truthy (schedule_value data) && truthy (groupFolder data)) eqn:Hf;
    [|left; split; [reflexivity|intros e He; left; exact He]].
  apply andb_true_iff in Hf. destruct Hf as [Hf Hg].
  apply andb_true_iff in Hf. destruct Hf as [Hf Hv].
  apply andb_true_iff in Hf. destruct Hf as [Hp Hs].
  apply IpcSpec.present_truthy in Hp, Hs, Hv, Hg.
  destruct Hp as (p & Hp & _), Hs as (st & Hs & _), Hv as (v & Hv & _),
    Hg as (tf & Hg & _).
  rewrite Hp, Hs, Hv, Hg. cbn [default from_option id].
  destruct (negb isMain && negb (tf =? sourceGroup)%string) eqn:Hauth.
  { left. split; [reflexivity|]. apply only_warning. }
  assert (Hok : isMain = true \/ tf = sourceGroup).
  { apply andb_false_iff in Hauth. destruct Hauth; bools; auto. }
  clear Hauth.
  destruct (truthy (findJidByFolder tf (registeredGroups w))) eqn:Hj; cbn [negb].
  2:{ left. split; [reflexivity|]. apply only_warning. }
  set (mode := match context_mode data with
               | Some m => if (m =? "group")%string || (m =? "isolated")%string
                           then m else "isolated"
               | None => "isolated" end).
  assert (Hmode : (mode = "group" \/ mode = "isolated") /\
                  (context_mode data = Some "group" -> mode = "group")).
  { subst mode. destruct (context_mode data) as [m|].
    - destruct ((m =? "group")%string || (m =? "isolated")%string) eqn:E.
      + bools. split; [destruct E as [E|E]; bools; auto|]. now intros [= ->].
      + split; [auto|]. intros [= ->]. discriminate.
    - split; [auto|discriminate]. }
  destruct Hmode as [Hm1 Hm2].
  destruct (st =? "cron")%string eqn:Ecron.
  { bools. subst st. destruct (cronNext host v) as [next|] eqn:Hn.
    - right. eexists (Store.mkTask _ tf _ p "cron" v mode (Some next) Store.active _).
      cbn [fst]. split; [reflexivity|]. cbn.
      repeat split; auto; try discriminate; try congruence.
    - left. split; [reflexivity|]. apply only_warning. }
  destruct (st =? "interval")%string eqn:Eint.
  { bools. subst st. destruct (parseInt host v) as [ms|] eqn:Hn.
    2:{ left. split; [reflexivity|]. apply only_warning. }
    destruct (ms <=? 0) eqn:Hms.
    { left. split; [reflexivity|]. apply only_warning. }
    apply Z.leb_gt in Hms.
    destruct (dateAfter host ms) as [next|] eqn:Hd.
    - right. eexists (Store.mkTask _ tf _ p "interval" v mode (Some next) Store.active _).
      cbn [fst]. split; [reflexivity|]. cbn.
      repeat split; auto; try discriminate; try congruence.
      intros _. exists ms. repeat split; auto; discriminate.
    - left. split; [reflexivity|]. intros e He. left. exact He. }
  destruct (st =? "once")%string eqn:Eonce.
  { bools. subst st. destruct (parseDate host v) as [next|] eqn:Hn.
    - right. eexists (Store.mkTask _ tf _ p "once" v mode (Some next) Store.active _).
      cbn [fst]. split; [reflexivity|]. cbn.
      repeat split; auto; try discriminate; try congruence.
    - left. split; [reflexivity|]. apply only_warning. }
  bools. right.
  eexists (Store.mkTask _ tf _ p st v mode None Store.active _).
  cbn [fst]. split; [reflexivity|]. cbn.
  repeat split; auto; try discriminate; try congruence; intros; contradiction.
Qed.

Lemma contextMode_cases (o : option string) :
  match o with
  | Some m =>
      if (m =? "group")%string || (m =? "isolated")%string then m else "isolated"
  | None => "isolated"
  end
  = if decide (o = Some "group") then "group" else "isolated".
Proof.
  destruct o as [m|]; [|destruct (decide _); [discriminate|reflexivity]].
  destruct (m =? "group")%string eqn:E.
  - apply String.eqb_eq in E. subst m. cbn [orb].
    destruct (decide _); [reflexivity|contradiction].
  - apply String.eqb_neq in E. cbn [orb].
    destruct (decide _) as [H|_]; [injection H as ->; contradiction|].
    destruct (m =? "isolated")%string eqn:E2; [|reflexivity].
    apply String.eqb_eq in E2. exact E2.
Qed.

Lemma truthy_present_value (s : string) : s <> "" -> truthy (Some s) = true.
Proof. intros H. apply IpcSpec.present_truthy. exists s. auto. Qed.

(** X1. A schedule_task command creates a task exactly when it is complete
    (prompt, schedule type, schedule value and target folder present and
    not empty), comes from the main group or aims at the folder of its
    source, aims at a folder that the registry has a chat for, and carries
    an accepted schedule: a cron expression that parses, an interval that
    parses to a positive number, a timestamp that parses, or any other
    schedule type. The command then returns, the creation is logged, and
    the one task created is active, has the id and the creation time drawn
    from the host, the folder, prompt and schedule of the payload, the chat
    of the registry, the next run of the schedule (none for another
    schedule type), and the context mode group when the payload says group
    and isolated for anything else. Every other schedule_task command
    leaves the task table as it was and adds nothing but a warning to the
    log. *)
Theorem schedule_task_creates host w data sourceGroup isMain :
  type data = "schedule_task" ->
  (forall p st v tf j nextRun,
     acceptedCommand host w data sourceGroup isMain p st v tf j nextRun ->
     processTaskIpc host w data sourceGroup isMain
     = (emit [LogInfo "Task created via IPC"]
          (set_tasks
             (Store.createTask
                (Store.mkTask (newTaskId host (length (trace w))) tf j p st v
                   (if decide (context_mode data = Some "group")
                    then "group" else "isolated")
                   nextRun Store.active (now host (length (trace w))))
                (tasks w)) w),
        Router.Returned)) /\
  ((exists p st v tf j nextRun,
      acceptedCommand host w data sourceGroup isMain p st v tf j nextRun) \/
   (tasks (fst (processTaskIpc host w data sourceGroup isMain)) = tasks w /\
    forall e,
      In e (trace (fst (processTaskIpc host w data sourceGroup isMain))) ->
      In e (trace w) \/ exists m, e = LogWarn m)).
Proof.
  intros Ht.
  replace (processTaskIpc host w data sourceGroup isMain)
    with (scheduleTask host w data sourceGroup isMain)
    by (unfold processTaskIpc; rewrite Ht; reflexivity).
  split.
  - intros p st v tf j nextRun
      (Hp & Hpn & Hs & Hsn & Hv & Hvn & Hg & Hgn & Hok & Hj & Hjn & Hacc).
    unfold scheduleTask. rewrite Hp, Hs, Hv, Hg, !truthy_present_value by assumption.
    cbn [andb default from_option id].
    assert (Hauth : negb isMain && negb (tf =? sourceGroup)%string = false).
    { destruct Hok as [->| ->]; [reflexivity|].
      rewrite String.eqb_refl. apply andb_false_r. }
    rewrite Hauth, Hj, truthy_present_value by assumption.
    cbn [negb default from_option id]. rewrite contextMode_cases.
    destruct Hacc as [v next Hn|v ms next Hn Hms Hd|v next Hn|st v H1 H2 H3].
    + cbn [String.eqb Ascii.eqb Bool.eqb]. rewrite Hn. reflexivity.
    + cbn [String.eqb Ascii.eqb Bool.eqb]. rewrite Hn.
      apply Z.leb_gt in Hms. rewrite Hms, Hd. reflexivity.
    + cbn [String.eqb Ascii.eqb Bool.eqb]. rewrite Hn. reflexivity.
    + apply String.eqb_neq in H1, H2, H3. rewrite H1, H2, H3. reflexivity.
  - unfold scheduleTask, acceptedCommand.
    destruct (truthy (prompt data) && truthy (schedule_type data)
              && truthy (schedule_value data) && truthy (groupFolder data)) eqn:Hf;
      [|right; split; [reflexivity|intros e He; left; exact He]].
    apply andb_true_iff in Hf. destruct Hf as [Hf Hg].
    apply andb_true_iff in Hf. destruct Hf as [Hf Hv].
    apply andb_true_iff in Hf. destruct Hf as [Hp Hs].
    apply IpcSpec.present_truthy in Hp, Hs, Hv, Hg.
    destruct Hp as (p & Hp & Hpn), Hs as (st & Hs & Hsn), Hv as (v & Hv & Hvn),
      Hg as (tf & Hg & Hgn).
    rewrite Hp, Hs, Hv, Hg. cbn [default from_option id].
    destruct (negb isMain && negb (tf =? sourceGroup)%string) eqn:Hauth.
    { right. split; [reflexivity|]. apply only_warning. }
    assert (Hok : isMain = true \/ tf = sourceGroup).
    { apply andb_false_iff in Hauth. destruct Hauth; bools; auto. }
    clear Hauth.
    destruct (truthy (findJidByFolder tf (registeredGroups w))) eqn:Hj; cbn [negb].
    2:{ right. split; [reflexivity|]. apply only_warning. }
    apply IpcSpec.present_truthy in Hj. destruct Hj as (j & Hj & Hjn).
    assert (Hgo : forall nextRun,
              acceptedSchedule host st v nextRun ->
              exists p0 st0 v0 tf0 j0 nextRun0,
                Some p = Some p0 /\ p0 <> "" /\ Some st = Some st0 /\ st0 <> "" /\
                Some v = Some v0 /\ v0 <> "" /\ Some tf = Some tf0 /\ tf0 <> "" /\
                (isMain = true \/ tf0 = sourceGroup) /\
                findJidByFolder tf0 (registeredGroups w) = Some j0 /\ j0 <> "" /\
                acceptedSchedule host st0 v0 nextRun0).
    { intros nextRun Hacc. exists p, st, v, tf, j, nextRun. repeat split; auto. }
    destruct (st =? "cron")%string eqn:Ecron.
    { bools. subst st. destruct (cronNext host v) as [next|] eqn:Hn.
      - left. apply (Hgo (Some next)). now constructor.
      - right. split; [reflexivity|]. apply only_warning. }
    destruct (st =? "interval")%string eqn:Eint.
    { bools. subst st. destruct (parseInt host v) as [ms|] eqn:Hn.
      2:{ right. split; [reflexivity|]. apply only_warning. }
      destruct (ms <=? 0) eqn:Hms.
      { right. split; [reflexivity|]. apply only_warning. }
      apply Z.leb_gt in Hms.
      destruct (dateAfter host ms) as [next|] eqn:Hd.
      - left. apply (Hgo (Some next)). econstructor; eassumption.
      - right. split; [reflexivity|]. intros e He. left. exact He. }
    destruct (st =? "once")%string eqn:Eonce.
    { bools. subst st. destruct (parseDate host v) as [next|] eqn:Hn.
      - left. apply (Hgo (Some next)). now constructor.
      - right. split; [reflexivity|]. apply only_warning. }
    bools. left. apply (Hgo None). now constructor.
Qed.

Import Samples.

Lemma schedule_task_creates_witness :
  type dataSchedule = "schedule_task" /\
  processTaskIpc ipcHost ipcState dataSchedule "main" true
  = (emit [LogInfo "Task created via IPC"]
       (set_tasks
          (Store.createTask
             (Store.mkTask "task-1-abc123" "g3" "chat3" "report" "once"
                "2027-01-01T00:00:00.000Z" "isolated"
                (Some "2027-01-01T00:00:00.000Z") Store.active
                "2026-11-03T00:00:00.000Z")
             (tasks ipcState)) ipcState),
     Router.Returned).
Proof.
  split; [reflexivity|].
  refine (proj1 (schedule_task_creates ipcHost ipcState dataSchedule "main" true
                   eq_refl)
            "report" "once" "2027-01-01T00:00:00.000Z" "g3" "chat3"
            (Some "2027-01-01T00:00:00.000Z") _).
  repeat split; try discriminate; try (left; reflexivity).
  constructor. reflexivity.
Defined.

Lemma authorizedFor_own sourceGroup o :
  authorizedFor false sourceGroup o = true ->
  exists t, o = Some t /\ Store.group_folder t = sourceGroup.
Proof.
  destruct o as [t|]; cbn; [|discriminate].
  intros H. bools. eauto.
Qed.

(** X2. A command read from the mailbox of a group other than the main one
    never changes the registry, never sends a message, and does to the task
    table at most one operation, on a task of its own folder: it creates a
    task for its folder, or pauses, resumes or deletes a task that the store
    holds for its folder. *)
Theorem non_main_command_is_confined host w data sourceGroup :
  let w' := fst (processTaskIpc host w data sourceGroup false) in
  registeredGroups w' = registeredGroups w /\
  (forall jid text, In (Sent jid text) (trace w') -> In (Sent jid text) (trace w)) /\
  ownTaskOperation sourceGroup (tasks w) (tasks w').
Proof.
  cbv zeta. split; [|split].
  - destruct (IpcSpec.processTaskIpc_groups host w data sourceGroup false)
      as [H|(_ & H & _)]; [exact H|discriminate].
  - intros j t. unfold processTaskIpc. cbn [negb].
    destruct (type data =? "schedule_task")%string.
    { destruct (scheduleTask_cases host w data sourceGroup false)
        as [[_ H]|(t' & -> & _)].
      - intros Hin. destruct (H _ Hin) as [H1|[m H1]]; [exact H1|discriminate].
      - cbn. intros Hin. apply in_app_or in Hin.
        destruct Hin as [Hin|[Hin|[]]]; [exact Hin|discriminate]. }
    repeat break_if; cbn; intros Hin; try exact Hin;
      apply in_app_or in Hin; destruct Hin as [Hin|[Hin|[]]];
        try exact Hin; discriminate.
  - unfold processTaskIpc.
    destruct (type data =? "schedule_task")%string.
    { destruct (IpcSpec.scheduleTask_tasks host w data sourceGroup false)
        as [H|(t & H & _ & _ & [Hm|Hown])]; cbv zeta in H.
      - left. exact H.
      - discriminate.
      - right. left. exists t. split; [exact Hown|exact H]. }
    cbn [negb].
    repeat break_if; cbn [fst tasks emit set_tasks]; try (left; reflexivity);
      match goal with
      | H : authorizedFor false _ _ = true |- _ =>
          apply authorizedFor_own in H; destruct H as (t & Hget & Hown)
      end;
      right; right; exists (default "" (taskId data)), t; auto.
Qed.
End IpcFacts.

Module BusFacts.
Import Ipc Confinement.

Ltac break_if := IpcSpec.break_if.

Lemma confinedStep_refl sourceGroup w : confinedStep sourceGroup w w.
Proof.
  split; [reflexivity|]. exists []. split; [now rewrite app_nil_r|constructor].
Qed.

Lemma confinedStep_trans sourceGroup w1 w2 w3 :
  confinedStep sourceGroup w1 w2 -> confinedStep sourceGroup w2 w3 ->
  confinedStep sourceGroup w1 w3.
Proof.
  intros [Hg1 (es1 & Ht1 & Hf1)] [Hg2 (es2 & Ht2 & Hf2)]. split.
  - congruence.
  - exists (es1 ++ es2). split.
    + rewrite Ht2, Ht1. now rewrite <- app_assoc.
    + apply Forall_app. split; [exact Hf1|]. rewrite <- Hg1. exact Hf2.
Qed.

Lemma confinedStep_fold {A} sourceGroup (f : State -> A -> State) l :
  (forall w x, confinedStep sourceGroup w (f w x)) ->
  forall w, confinedStep sourceGroup w (fold_left f l w).
Proof.
  intros Hf. induction l as [|x l IH]; intros w; cbn [fold_left].
  - apply confinedStep_refl.
  - eapply confinedStep_trans; [apply Hf|apply IH].
Qed.

Lemma confinedStep_mail sourceGroup w w' :
  registeredGroups w' = registeredGroups w -> trace w' = trace w ->
  confinedStep sourceGroup w w'.
Proof.
  intros Hg Ht. split; [exact Hg|]. exists []. split; [now rewrite app_nil_r|constructor].
Qed.

Lemma confinedStep_emit sourceGroup w es :
  Forall (ownChat sourceGroup (registeredGroups w)) es ->
  confinedStep sourceGroup w (emit es w).
Proof. intros H. split; [reflexivity|]. exists es. split; [reflexivity|exact H]. Qed.

Lemma confinedStep_unlink sourceGroup sub file w w0 :
  confinedStep sourceGroup w0 w ->
  confinedStep sourceGroup w0 (unlink sourceGroup sub file w).
Proof. intros H. exact H. Qed.

Lemma confinedStep_quarantine sourceGroup sub file raw w w0 :
  confinedStep sourceGroup w0 w ->
  confinedStep sourceGroup w0 (quarantine sourceGroup sub file raw w).
Proof. intros H. exact H. Qed.

Lemma processMessageFile_confined host sourceGroup w entry :
  confinedStep sourceGroup w (processMessageFile host sourceGroup false w entry).
Proof.
  destruct entry as [file raw]. unfold processMessageFile.
  destruct (JSON_parse host raw) as [data|].
  2:{ apply confinedStep_quarantine, confinedStep_emit. repeat constructor. }
  apply confinedStep_unlink. cbn [orb].
  destruct ((type data =? "message")%string && truthy (chatJid data)
            && truthy (text data)).
  - destruct (Router.lookupGroup _ _) as [g|] eqn:Hg.
    + destruct (Router.folder g =? sourceGroup)%string eqn:Hf.
      * apply String.eqb_eq in Hf. apply confinedStep_emit.
        constructor; [|repeat constructor]. exists g. auto.
      * apply confinedStep_emit. repeat constructor.
    + apply confinedStep_emit. repeat constructor.
  - destruct (_ && _).
    + apply confinedStep_emit. repeat constructor.
    + apply confinedStep_refl.
Qed.

Lemma processTaskIpc_confined host sourceGroup w data :
  confinedStep sourceGroup w (fst (processTaskIpc host w data sourceGroup false)).
Proof.
  unfold processTaskIpc, scheduleTask.
  repeat break_if; cbn [fst negb]; try discriminate;
    try apply confinedStep_refl;
    (split; [reflexivity|]; cbn [trace emit set_tasks];
     eexists; split; [reflexivity|repeat constructor]).
Qed.

Lemma processTaskFile_confined host sourceGroup w entry :
  confinedStep sourceGroup w (processTaskFile host sourceGroup false w entry).
Proof.
  destruct entry as [file raw]. unfold processTaskFile.
  destruct (JSON_parse host raw) as [data|].
  2:{ apply confinedStep_quarantine, confinedStep_emit. repeat constructor. }
  pose proof (processTaskIpc_confined host sourceGroup w data) as H.
  destruct (processTaskIpc host w data sourceGroup false) as [w' []]; cbn [fst] in H.
  - apply confinedStep_unlink. exact H.
  - apply confinedStep_quarantine.
    eapply confinedStep_trans; [exact H|]. apply confinedStep_emit. repeat constructor.
Qed.

(** X3. Whatever files the mailbox of a group other than the main one
    holds, processing it leaves the registry as it was, and every message it
    sends goes to a chat that the registry has for that group's folder. *)
Theorem mailbox_speaks_only_in_own_chats host w sourceGroup :
  sourceGroup <> MAIN_GROUP_FOLDER host ->
  let w' := processGroup host w sourceGroup in
  registeredGroups w' = registeredGroups w /\
  exists es,
    trace w' = trace w ++ es /\
    forall jid text,
      In (Sent jid text) es ->
      exists g, Router.lookupGroup jid (registeredGroups w) = Some g /\
                Router.folder g = sourceGroup.
Proof.
  intros Hsrc. cbv zeta. apply String.eqb_neq in Hsrc.
  assert (H : confinedStep sourceGroup w (processGroup host w sourceGroup)).
  { unfold processGroup. rewrite Hsrc.
    set (w1 := fold_left (processMessageFile host sourceGroup false) _ w).
    apply (confinedStep_trans _ _ w1).
    - apply confinedStep_fold. intros w0 x. apply processMessageFile_confined.
    - apply confinedStep_fold. intros w0 x. apply processTaskFile_confined. }
  destruct H as [Hg (es & Ht & Hf)]. split; [exact Hg|].
  exists es. split; [exact Ht|]. intros j t Hin.
  rewrite List.Forall_forall in Hf. exact (Hf _ Hin).
Qed.

Import Samples MoreSamples.

(** The message of g3 for its own chat is sent. *)
Example own_chat_message_is_sent :
  trace (processGroup ipcHost ownMailState "g3")
  = [Sent "chat3" "hi"; LogInfo "IPC message sent"].
Proof. reflexivity. Qed.

Lemma mailbox_speaks_only_in_own_chats_witness :
  "g3" <> MAIN_GROUP_FOLDER ipcHost /\
  registeredGroups (processGroup ipcHost ownMailState "g3")
  = registeredGroups ownMailState.
Proof.
  assert (Hsrc : "g3" <> MAIN_GROUP_FOLDER ipcHost) by discriminate.
  split; [exact Hsrc|].
  exact (proj1 (mailbox_speaks_only_in_own_chats ipcHost ownMailState "g3" Hsrc)).
Defined.
End BusFacts.


Module DrainFacts.
Import Ipc Confinement.

Lemma processMessageFile_mailboxes host sourceGroup isMain w file raw :
  mailboxes (processMessageFile host sourceGroup isMain w (file, raw))
  = mailboxes (unlink sourceGroup messages file w).
Proof.
  unfold processMessageFile.
  destruct (JSON_parse host raw) as [data|]; [|reflexivity].
  repeat IpcSpec.break_if; reflexivity.
Qed.

Lemma processTaskFile_mailboxes host sourceGroup isMain w file raw :
  mailboxes (processTaskFile host sourceGroup isMain w (file, raw))
  = mailboxes (unlink sourceGroup tasksSub file w).
Proof.
  unfold processTaskFile.
  destruct (JSON_parse host raw) as [data|]; [|reflexivity].
  pose proof (IpcSpec.processTaskIpc_frame host w data sourceGroup isMain) as [Hm _].
  destruct (processTaskIpc host w data sourceGroup isMain) as [w' []];
    cbn [fst] in Hm; cbn [unlink quarantine mailboxes set_mailboxes set_errors emit];
    rewrite Hm; reflexivity.
Qed.

Lemma dirOf_unlink sourceGroup sub sub' file w :
  dirOf sourceGroup sub' (mailboxes (unlink sourceGroup sub file w))
  = if Subdir_eqb sub sub'
    then removeFile file (dirOf sourceGroup sub' (mailboxes w))
    else dirOf sourceGroup sub' (mailboxes w).
Proof.
  unfold unlink, dirOf. cbn [mailboxes set_mailboxes].
  induction (mailboxes w) as [|[g m] rest IH].
  - cbn. destruct (Subdir_eqb sub sub'); reflexivity.
  - cbn [map fst snd find]. destruct (g =? sourceGroup)%string eqn:E.
    + cbn [find fst]. rewrite E. destruct sub, sub'; reflexivity.
    + cbn [find fst]. rewrite E. exact IH.
Qed.

Lemma dirOf_unlink_other sourceGroup other sub sub' file w :
  other <> sourceGroup ->
  dirOf other sub' (mailboxes (unlink sourceGroup sub file w))
  = dirOf other sub' (mailboxes w).
Proof.
  intros Hne. unfold unlink, dirOf. cbn [mailboxes set_mailboxes].
  induction (mailboxes w) as [|[g m] rest IH]; [reflexivity|].
  cbn [map fst snd find]. destruct (g =? sourceGroup)%string eqn:E.
  - apply String.eqb_eq in E. subst g. cbn [find fst].
    assert (E' : (sourceGroup =? other)%string = false)
      by (apply String.eqb_neq; congruence).
    rewrite E'. exact IH.
  - cbn [find fst]. destruct (g =? other)%string; [reflexivity|exact IH].
Qed.

Lemma map_fst_unlink sourceGroup sub file w :
  map fst (mailboxes (unlink sourceGroup sub file w)) = map fst (mailboxes w).
Proof.
  unfold unlink. cbn [mailboxes set_mailboxes].
  induction (mailboxes w) as [|[g m] rest IH]; [reflexivity|].
  cbn [map fst]. destruct (g =? sourceGroup)%string; cbn [fst]; now rewrite IH.
Qed.

Lemma filter_removeFile file names (d : list (string * string)) :
  List.filter (fun e => negb (existsb (String.eqb (fst e)) names))
    (removeFile file d)
  = List.filter (fun e => negb (existsb (String.eqb (fst e)) (file :: names))) d.
Proof.
  unfold removeFile. induction d as [|e d IH]; [reflexivity|].
  cbn [List.filter existsb].
  destruct (fst e =? file)%string; cbn [negb orb List.filter].
  - exact IH.
  - destruct (negb (existsb (String.eqb (fst e)) names)); [now rewrite IH|exact IH].
Qed.

(** What a fold of a per-file step over a list of files does to the
    directories, when each step removes its file from one subdirectory of
    the source group and nothing else. *)
Lemma fold_removes (f : State -> string * string -> State) sourceGroup sub :
  (forall w file raw,
     mailboxes (f w (file, raw)) = mailboxes (unlink sourceGroup sub file w)) ->
  forall l w,
    let w' := fold_left f l w in
    map fst (mailboxes w') = map fst (mailboxes w) /\
    (forall sub',
       dirOf sourceGroup sub' (mailboxes w')
       = if Subdir_eqb sub sub'
         then List.filter (fun e => negb (existsb (String.eqb (fst e)) (map fst l)))
                (dirOf sourceGroup sub' (mailboxes w))
         else dirOf sourceGroup sub' (mailboxes w)) /\
    (forall other sub', other <> sourceGroup ->
       dirOf other sub' (mailboxes w') = dirOf other sub' (mailboxes w)).
Proof.
  intros Hf. induction l as [|[file raw] l IH]; intros w; cbv zeta.
  - cbn [fold_left map existsb negb]. split; [reflexivity|]. split; [|reflexivity].
    intros sub'. destruct (Subdir_eqb sub sub'); [|reflexivity].
    induction (dirOf sourceGroup sub' (mailboxes w)) as [|e d IHd]; [reflexivity|].
    cbn [List.filter]. now rewrite <- IHd.
  - cbn [fold_left]. destruct (IH (f w (file, raw))) as (Hn & Hd & Ho).
    cbv zeta in Hn, Hd, Ho. split; [|split].
    + rewrite Hn, Hf. apply map_fst_unlink.
    + intros sub'. rewrite Hd, Hf, dirOf_unlink.
      destruct (Subdir_eqb sub sub'); [|reflexivity].
      cbn [map fst]. apply filter_removeFile.
    + intros other sub' Hne. rewrite Ho, Hf by exact Hne.
      apply dirOf_unlink_other. exact Hne.
Qed.

Lemma jsonFiles_removed (d : list (string * string)) :
  jsonFiles
    (List.filter
       (fun e => negb (existsb (String.eqb (fst e)) (map fst (jsonFiles d)))) d)
  = [].
Proof.
  assert (H : forall names d',
            (forall e, In e d' -> endsWith ".json" (fst e) = true ->
                       existsb (String.eqb (fst e)) names = true) ->
            jsonFiles
              (List.filter (fun e => negb (existsb (String.eqb (fst e)) names)) d')
            = []).
  { intros names d' Hin. induction d' as [|e d' IH]; [reflexivity|].
    cbn [List.filter].
    destruct (existsb (String.eqb (fst e)) names) eqn:E; cbn [negb].
    - apply IH. intros x Hx. apply Hin. right. exact Hx.
    - unfold jsonFiles in *. cbn [List.filter].
      destruct (endsWith ".json" (fst e)) eqn:Ej.
      + rewrite (Hin e (or_introl eq_refl) Ej) in E. discriminate.
      + apply IH. intros x Hx. apply Hin. right. exact Hx. }
  apply H. intros e He Hj.
  apply existsb_exists. exists (fst e). split; [|apply String.eqb_refl].
  apply in_map. unfold jsonFiles. apply filter_In. split; assumption.
Qed.

Lemma nonjson_kept (d : list (string * string)) :
  List.filter (fun e => negb (endsWith ".json" (fst e)))
    (List.filter
       (fun e => negb (existsb (String.eqb (fst e)) (map fst (jsonFiles d)))) d)
  = List.filter (fun e => negb (endsWith ".json" (fst e))) d.
Proof.
  assert (H : forall names,
            Forall (fun n => endsWith ".json" n = true) names ->
            List.filter (fun e => negb (endsWith ".json" (fst e)))
              (List.filter (fun e => negb (existsb (String.eqb (fst e)) names)) d)
            = List.filter (fun e => negb (endsWith ".json" (fst e))) d).
  { intros names Hall. induction d as [|e d IH]; [reflexivity|].
    cbn [List.filter].
    destruct (existsb (String.eqb (fst e)) names) eqn:E; cbn [negb].
    - apply existsb_exists in E. destruct E as (n & Hn & En).
      apply String.eqb_eq in En. rewrite List.Forall_forall in Hall.
      rewrite En, (Hall n Hn). cbn [negb]. exact IH.
    - cbn [List.filter]. destruct (negb (endsWith ".json" (fst e)));
        [now rewrite IH|exact IH]. }
  apply H. apply List.Forall_forall. intros n Hn.
  apply in_map_iff in Hn. destruct Hn as (e & <- & He).
  unfold jsonFiles in He. apply filter_In in He. apply He.
Qed.

Lemma readJsonFiles_dirOf sourceGroup sub w :
  readJsonFiles sourceGroup sub w = jsonFiles (dirOf sourceGroup sub (mailboxes w)).
Proof.
  unfold readJsonFiles, dirOf.
  destruct (find _ (mailboxes w)) as [[g m]|]; reflexivity.
Qed.

(** X4. After the bus has processed the mailbox of a group, no .json file
    is left in the group's messages and tasks directories: every envelope
    is deleted or quarantined in the cycle that reads it, whatever it holds
    and whether it is authorized, so none is processed twice. The files
    that do not end in .json, the directories of the other groups and the
    list of group directories are as they were. *)
Theorem mailbox_is_drained host w sourceGroup :
  let w' := processGroup host w sourceGroup in
  readJsonFiles sourceGroup messages w' = [] /\
  readJsonFiles sourceGroup tasksSub w' = [] /\
  map fst (mailboxes w') = map fst (mailboxes w) /\
  (forall sub,
     List.filter (fun e => negb (endsWith ".json" (fst e)))
       (dirOf sourceGroup sub (mailboxes w'))
     = List.filter (fun e => negb (endsWith ".json" (fst e)))
         (dirOf sourceGroup sub (mailboxes w))) /\
  (forall other sub, other <> sourceGroup ->
     dirOf other sub (mailboxes w') = dirOf other sub (mailboxes w)).
Proof.
  cbv zeta. unfold processGroup.
  set (isMain := (sourceGroup =? MAIN_GROUP_FOLDER host)%string).
  set (w1 := fold_left (processMessageFile host sourceGroup isMain) _ w).
  destruct (fold_removes (processMessageFile host sourceGroup isMain)
              sourceGroup messages
              (fun w0 file raw =>
                 processMessageFile_mailboxes host sourceGroup isMain w0 file raw)
              (readJsonFiles sourceGroup messages w) w) as (Hn1 & Hd1 & Ho1).
  cbv zeta in Hn1, Hd1, Ho1. fold w1 in Hn1, Hd1, Ho1.
  destruct (fold_removes (processTaskFile host sourceGroup isMain)
              sourceGroup tasksSub
              (fun w0 file raw =>
                 processTaskFile_mailboxes host sourceGroup isMain w0 file raw)
              (readJsonFiles sourceGroup tasksSub w1) w1) as (Hn2 & Hd2 & Ho2).
  cbv zeta in Hn2, Hd2, Ho2.
  set (w2 := fold_left (processTaskFile host sourceGroup isMain) _ w1) in *.
  pose proof (Hd1 messages) as Hm1. pose proof (Hd1 tasksSub) as Ht1.
  pose proof (Hd2 messages) as Hm2. pose proof (Hd2 tasksSub) as Ht2.
  cbn [Subdir_eqb] in Hm1, Ht1, Hm2, Ht2.
  rewrite !readJsonFiles_dirOf in *.
  split; [|split; [|split; [|split]]].
  - rewrite Hm2, Hm1. apply jsonFiles_removed.
  - rewrite Ht2. apply jsonFiles_removed.
  - now rewrite Hn2, Hn1.
  - intros [|].
    + rewrite Hm2, Hm1. apply nonjson_kept.
    + rewrite Ht2, Ht1. apply nonjson_kept.
  - intros other sub Hne. now rewrite Ho2, Ho1.
Qed.
End DrainFacts.

(** ** More of the message router *)

Module RouterFacts.
Import Router.

Lemma last_cons {A} (a : A) (l : list A) (d : A) :
  List.last (a :: l) d = List.last l a.
Proof.
  revert a d. induction l as [|b l IH]; intros a d; [reflexivity|].
  change (List.last (a :: b :: l) d) with (List.last (b :: l) d).
  rewrite (IH b d). symmetry. apply (IH b a).
Qed.

Lemma processMessage_thrown_state host w msg :
  snd (processMessage host w msg) = Thrown -> fst (processMessage host w msg) = w.
Proof.
  intros Ht. apply RouterSpec.processMessage_thrown in Ht.
  destruct Ht as (group & Hg & Ha & Hp).
  pose proof (RouterSpec.processMessage_gate host w msg group Hg Ha) as H.
  rewrite Hp in H. rewrite H. reflexivity.
Qed.

(** X5. A batch is processed up to the first message whose handling throws:
    the messages before it are processed in order, the watermark ends at the
    timestamp of the last of them (where it was, when there is none), and
    the message that throws adds one error line to the log and nothing else;
    the messages after it are not touched. *)
Theorem batch_stops_at_first_throw host w messages :
  exists done rest,
    messages = done ++ rest /\
    lastTimestamp (processBatch host w messages)
    = List.last (map timestamp done) (lastTimestamp w) /\
    match rest with
    | [] => processBatch host w messages = processBatch host w done
    | msg :: _ =>
        snd (processMessage host (processBatch host w done) msg) = Thrown /\
        processBatch host w messages
        = emit [LogError "Error processing message, will retry"]
            (processBatch host w done)
    end.
Proof.
  revert w. induction messages as [|msg rest IH]; intros w.
  - exists [], []. repeat split.
  - destruct (processMessage host w msg) as [w' c] eqn:E. destruct c.
    + destruct (IH (set_lastTimestamp (timestamp msg) w')) as (done & rest' & -> & Hl & Hr).
      exists (msg :: done), rest'. split; [reflexivity|].
      cbn [processBatch app]. rewrite E. split.
      * rewrite Hl. cbn [map]. rewrite last_cons. reflexivity.
      * exact Hr.
    + exists [], (msg :: rest). split; [reflexivity|].
      assert (Ht : snd (processMessage host w msg) = Thrown) by (rewrite E; reflexivity).
      pose proof (processMessage_thrown_state host w msg Ht) as Hs.
      rewrite E in Hs. cbn [fst] in Hs. subst w'.
      cbn [processBatch map List.last]. rewrite E. cbn [fst snd]. repeat split.
Qed.

(** X6. The session id that an agent run returns is stored under the
    group's folder, whatever the status of the run, and every other folder
    keeps its session; the next run for that folder is started with it. *)
Theorem session_round_trip host w group prompt chatJid output token :
  let isMain := (folder group =? MAIN_GROUP_FOLDER host)%string in
  runContainerAgent host (agentRuns (trace w))
    (mkContainerInput prompt (sessions w !! folder group) (folder group)
       chatJid isMain) = Some output ->
  out_newSessionId output = Some token -> token <> "" ->
  let w' := fst (runAgent host w group prompt chatJid) in
  sessions w' = <[folder group := token]> (sessions w) /\
  forall prompt' chatJid',
    In (AgentRun (mkContainerInput prompt' (Some token) (folder group)
                    chatJid' isMain))
       (trace (fst (runAgent host w' group prompt' chatJid'))).
Proof.
  intros isMain Hrun Hid Hne. cbv zeta.
  assert (Ht : truthy (out_newSessionId output) = true).
  { apply truthy_Some. exists token. auto. }
  assert (Hs : sessions (fst (runAgent host w group prompt chatJid))
               = <[folder group := token]> (sessions w)).
  { unfold runAgent. fold isMain. rewrite Hrun, Ht, Hid.
    destruct (out_status output); reflexivity. }
  split; [exact Hs|].
  intros prompt' chatJid'.
  set (w' := fst (runAgent host w group prompt chatJid)) in *.
  clearbody w'. clear Hrun.
  unfold runAgent. fold isMain. rewrite Hs, lookup_insert_eq.
  destruct (runContainerAgent host _ _) as [o|]; cbn.
  - destruct (truthy (out_newSessionId o)), (out_status o); cbn;
      rewrite ?in_app_iff; cbn; auto.
  - rewrite ?in_app_iff; cbn; auto.
Qed.

(** The session table is left alone when the run is rejected or returns no
    session id. *)
Lemma session_kept host w group prompt chatJid :
  let isMain := (folder group =? MAIN_GROUP_FOLDER host)%string in
  match runContainerAgent host (agentRuns (trace w))
          (mkContainerInput prompt (sessions w !! folder group) (folder group)
             chatJid isMain) with
  | Some output => truthy (out_newSessionId output) = false
  | None => True
  end ->
  sessions (fst (runAgent host w group prompt chatJid)) = sessions w.
Proof.
  cbv zeta. unfold runAgent.
  destruct (runContainerAgent host _ _) as [o|]; [|reflexivity].
  intros ->. destruct (out_status o); reflexivity.
Qed.

(** X7. A message that passes the trigger check starts one agent run whose
    prompt holds the chat's messages since the last answered one. When the
    run succeeds with a non-empty result, the result is sent to the chat, as
    the only message, and the chat's mark moves to the message's timestamp;
    when the run is rejected, fails or returns nothing, no message is sent
    and the chat's mark stays, so the same messages are in the prompt of the
    chat's next run. *)
Theorem reply_moves_chat_mark host w msg group :
  lookupGroup (chat_jid msg) (registeredGroups w) = Some group ->
  Approval.isApproval
    (Approval.checkApprovalMessage (RegExp.trim (content msg)) (chat_jid msg)
       (pendingRequests w)) = false ->
  Trigger.passesTrigger (hostRegExp host) (trigger group)
    (RegExp.trim (content msg)) = Some true ->
  let w' := fst (processMessage host w msg) in
  let missed :=
    getMessagesSince (storedMessages w) (chat_jid msg)
      (default "" (lastAgentTimestamp w !! chat_jid msg)) (ASSISTANT_NAME host) in
  let input :=
    mkContainerInput (buildPrompt missed) (sessions w !! folder group)
      (folder group) (chat_jid msg)
      (folder group =? MAIN_GROUP_FOLDER host)%string in
  let answer :=
    match runContainerAgent host (agentRuns (trace w)) input with
    | Some output =>
        match out_status output with
        | success => out_result output
        | failure => None
        end
    | None => None
    end in
  List.filter isAgentRun (trace w')
  = (List.filter isAgentRun (trace w) ++ [AgentRun input])%list /\
  if truthy answer then
    lastAgentTimestamp w'
    = <[chat_jid msg := timestamp msg]> (lastAgentTimestamp w) /\
    List.filter isSent (trace w')
    = (List.filter isSent (trace w)
       ++ [Sent (chat_jid msg) (default "" answer)])%list
  else
    lastAgentTimestamp w' = lastAgentTimestamp w /\
    List.filter isSent (trace w') = List.filter isSent (trace w).
Proof.
  intros Hg Ha Hp. cbv zeta. unfold processMessage.
  rewrite Hg, Ha, Hp, RouterSpec.buildPrompt_not_empty.
  unfold runAgent.
  assert (Hn : agentRuns (trace (emit [LogInfo "Processing message";
                                        Typing (chat_jid msg) true] w))
               = agentRuns (trace w)).
  { cbn [trace emit]. rewrite RouterSpec.agentRuns_app. cbn. lia. }
  rewrite Hn. cbn [sessions emit].
  destruct (runContainerAgent host _ _) as [output|].
  - destruct (out_status output).
    + destruct (truthy (out_result output)) eqn:Hr;
        destruct (truthy (out_newSessionId output)); cbn;
        rewrite ?List.filter_app; cbn; rewrite ?app_nil_r, <- ?app_assoc; auto.
    + destruct (truthy (out_newSessionId output)); cbn;
        rewrite ?List.filter_app; cbn; rewrite ?app_nil_r, <- ?app_assoc; auto.
  - cbn. rewrite ?List.filter_app; cbn; rewrite ?app_nil_r, <- ?app_assoc; auto.
Qed.

Lemma passesTrigger_empty hostRegExp content :
  Trigger.passesTrigger hostRegExp (Some "") content = Some true.
Proof. apply TriggerSpec.passesTrigger_iff. auto. Qed.

Lemma onDiscordMessage_registry host now w message :
  let w' := fst (onDiscordMessage host now w message) in
  registeredGroups w' = registeredGroups w \/
  (author_bot message = false /\ truthy (guildId message) = false /\
   lookupGroup ("discord:" ++ author_id message) (registeredGroups w) = None /\
   registeredGroups w'
   = assignGroup ("discord:" ++ author_id message) (dmGroup now message)
       (registeredGroups w)).
Proof.
  cbv zeta. unfold onDiscordMessage, discordJid.
  destruct (author_bot message); [left; reflexivity|].
  destruct (truthy (guildId message)) eqn:Hguild; cbn [negb].
  - left. destruct (lookupGroup _ _) as [group|]; [|reflexivity].
    destruct (Trigger.passesTrigger _ _ _) as [[|]|]; try reflexivity.
    destruct (runContainerAgent host _ _) as [output|]; [|reflexivity].
    destruct (truthy (out_newSessionId output)), (out_status output);
      try destruct (truthy (out_result output)); reflexivity.
  - destruct (lookupGroup _ _) as [group|] eqn:Hl.
    + left.
      destruct (Trigger.passesTrigger _ _ _) as [[|]|]; try reflexivity.
      destruct (runContainerAgent host _ _) as [output|]; [|reflexivity].
      destruct (truthy (out_newSessionId output)), (out_status output);
        try destruct (truthy (out_result output)); reflexivity.
    + right. repeat split.
      cbn [trigger]. rewrite passesTrigger_empty.
      destruct (runContainerAgent host _ _) as [output|]; [|reflexivity].
      destruct (truthy (out_newSessionId output)), (out_status output);
        try destruct (truthy (out_result output)); reflexivity.
Qed.

(** X8. The Discord handler changes the registry in one way only: the first
    direct message of a user who is not a bot registers the chat
    discord:<user id> with the folder discord-dm-<user id> and the empty
    trigger, and that message is handed to the agent. A chat that is
    registered keeps its group, a message of a bot changes nothing, and a
    message in a server channel never registers anything. *)
Theorem discord_dm_auto_registration host now w message :
  let w' := fst (onDiscordMessage host now w message) in
  (forall j g,
     lookupGroup j (registeredGroups w) = Some g ->
     lookupGroup j (registeredGroups w') = Some g) /\
  (forall j g,
     lookupGroup j (registeredGroups w') = Some g ->
     lookupGroup j (registeredGroups w) = Some g \/
     (author_bot message = false /\ truthy (guildId message) = false /\
      j = ("discord:" ++ author_id message)%string /\
      g = dmGroup now message)) /\
  (author_bot message = true -> onDiscordMessage host now w message = (w, Returned)) /\
  (author_bot message = false -> truthy (guildId message) = false ->
   lookupGroup ("discord:" ++ author_id message) (registeredGroups w) = None ->
   lookupGroup ("discord:" ++ author_id message) (registeredGroups w')
   = Some (dmGroup now message) /\
   agentRuns (trace w') = S (agentRuns (trace w))).
Proof.
  cbv zeta.
  pose proof (onDiscordMessage_registry host now w message) as Hreg.
  cbv zeta in Hreg. split; [|split; [|split]].
  - intros j g Hl. destruct Hreg as [->|(_ & _ & Hnone & ->)]; [exact Hl|].
    rewrite IpcSpec.lookupGroup_assignGroup.
    destruct (_ =? j)%string eqn:E; [|exact Hl].
    apply String.eqb_eq in E. subst j. congruence.
  - intros j g Hl. destruct Hreg as [Heq|(Hb & Hguild & Hnone & Heq)];
      rewrite Heq in Hl; [left; exact Hl|].
    rewrite IpcSpec.lookupGroup_assignGroup in Hl.
    destruct (_ =? j)%string eqn:E.
    + apply String.eqb_eq in E. injection Hl as <-. right. auto.
    + left. exact Hl.
  - intros Hb. unfold onDiscordMessage. rewrite Hb. reflexivity.
  - intros Hb Hguild Hnone. unfold onDiscordMessage, discordJid.
    rewrite Hb, Hguild, Hnone. cbn [negb trigger].
    rewrite passesTrigger_empty. fold (dmGroup now message).
    assert (Hl : forall groups,
              lookupGroup ("discord:" ++ author_id message)
                (assignGroup ("discord:" ++ author_id message)
                   (dmGroup now message) groups)
              = Some (dmGroup now message)).
    { intros groups. rewrite IpcSpec.lookupGroup_assignGroup.
      now rewrite String.eqb_refl. }
    destruct (runContainerAgent host _ _) as [output|].
    + destruct (truthy (out_newSessionId output)), (out_status output);
        try destruct (truthy (out_result output));
        (split; [apply Hl|RouterSpec.count_runs]).
    + split; [apply Hl|RouterSpec.count_runs].
Qed.

Import Samples.

Lemma session_round_trip_witness :
  sessions (fst (runAgent routerHost routerState group1 "hi" "chat1"))
  = <[ "g1" := "session-1" ]> (sessions routerState).
Proof.
  assert (Hne : "session-1" <> "") by discriminate.
  exact (proj1 (session_round_trip routerHost routerState group1 "hi" "chat1"
                  (mkOutput success (Some "Hello!") (Some "session-1") None)
                  "session-1" eq_refl eq_refl Hne)).
Defined.

Lemma reply_moves_chat_mark_witness :
  lastAgentTimestamp (fst (processMessage routerHost routerState message1))
  = <[ "chat1" := timestamp message1 ]> (lastAgentTimestamp routerState) /\
  List.filter isSent (trace (fst (processMessage routerHost routerState message1)))
  = [Sent "chat1" "Hello!"].
Proof.
  exact (proj2 (reply_moves_chat_mark routerHost routerState message1 group1
                  eq_refl eq_refl eq_refl)).
Defined.

End RouterFacts.

(** ** Escaping for the prompt *)

Module EscapeFacts.
Import Router.

Lemma replaceAll_app c by_ (a b : string) :
  replaceAll c by_ (a ++ b) = (replaceAll c by_ a ++ replaceAll c by_ b)%string.
Proof.
  induction a as [|x a IH]; [reflexivity|].
  change (replaceAll c by_ (String x (a ++ b))
          = (replaceAll c by_ (String x a) ++ replaceAll c by_ b)%string).
  cbn [replaceAll]. rewrite IH. destruct (Ascii.eqb x c).
  - now rewrite StringFacts.append_assoc_string.
  - reflexivity.
Qed.

Lemma escapeXml_app (a b : string) :
  escapeXml (a ++ b) = (escapeXml a ++ escapeXml b)%string.
Proof. unfold escapeXml. now rewrite !replaceAll_app. Qed.

Lemma escapeXml_cons x s :
  escapeXml (String x s) = (escapeOne x ++ escapeXml s)%string.
Proof.
  change (String x s) with (String x "" ++ s)%string.
  rewrite escapeXml_app. f_equal.
  unfold escapeXml, escapeOne. cbn [replaceAll].
  destruct (Ascii.eqb x "&") eqn:Ea.
  - apply Ascii.eqb_eq in Ea. subst x. reflexivity.
  - cbn [replaceAll append]. destruct (Ascii.eqb x "<") eqn:El.
    + apply Ascii.eqb_eq in El. subst x. reflexivity.
    + cbn [replaceAll append]. destruct (Ascii.eqb x ">") eqn:Eg.
      * apply Ascii.eqb_eq in Eg. subst x. reflexivity.
      * cbn [replaceAll append]. destruct (Ascii.eqb x dquote) eqn:Eq.
        -- apply Ascii.eqb_eq in Eq. subst x. reflexivity.
        -- reflexivity.
Qed.

Lemma escapeOne_markup x :
  Forall (fun c => isMarkup c = false) (list_ascii_of_string (escapeOne x)).
Proof.
  unfold escapeOne.
  destruct (Ascii.eqb x "&") eqn:Ea; [repeat constructor|].
  destruct (Ascii.eqb x "<") eqn:El; [repeat constructor|].
  destruct (Ascii.eqb x ">") eqn:Eg; [repeat constructor|].
  destruct (Ascii.eqb x dquote) eqn:Eq; [repeat constructor|].
  constructor; [|constructor]. unfold isMarkup. now rewrite El, Eg, Eq.
Qed.

Lemma escapeOne_injective x y (s t : string) :
  (escapeOne x ++ s)%string = (escapeOne y ++ t)%string -> x = y /\ s = t.
Proof.
  unfold escapeOne.
  destruct (Ascii.eqb x "&") eqn:Xa;
    [apply Ascii.eqb_eq in Xa|
     destruct (Ascii.eqb x "<") eqn:Xl;
       [apply Ascii.eqb_eq in Xl|
        destruct (Ascii.eqb x ">") eqn:Xg;
          [apply Ascii.eqb_eq in Xg|
           destruct (Ascii.eqb x dquote) eqn:Xq;
             [apply Ascii.eqb_eq in Xq|]]]];
  (destruct (Ascii.eqb y "&") eqn:Ya;
    [apply Ascii.eqb_eq in Ya|
     destruct (Ascii.eqb y "<") eqn:Yl;
       [apply Ascii.eqb_eq in Yl|
        destruct (Ascii.eqb y ">") eqn:Yg;
          [apply Ascii.eqb_eq in Yg|
           destruct (Ascii.eqb y dquote) eqn:Yq;
             [apply Ascii.eqb_eq in Yq|]]]]);
  subst; cbn [append]; intros H; try (injection H; intros; subst);
    try discriminate; try (split; congruence);
    repeat match goal with
           | E : Ascii.eqb ?a ?a = false |- _ => rewrite Ascii.eqb_refl in E; discriminate
           end;
    (split; [reflexivity|first [assumption|congruence]]).
Qed.

(** X9. The text that escapeXml returns holds no angle bracket and no
    double quote, so the body and the sender of a message cannot close or
    open an element or end an attribute of the prompt; and escaping loses
    nothing: two texts with the same escaped form are the same text. *)
Theorem escapeXml_is_safe_and_lossless :
  (forall s, Forall (fun c => isMarkup c = false)
               (list_ascii_of_string (escapeXml s))) /\
  (forall s t, escapeXml s = escapeXml t -> s = t).
Proof.
  split.
  - induction s as [|x s IH]; [constructor|].
    rewrite escapeXml_cons, StringFacts.list_ascii_of_string_app.
    apply Forall_app. split; [apply escapeOne_markup|exact IH].
  - induction s as [|x s IH]; intros [|y t] H.
    + reflexivity.
    + rewrite escapeXml_cons in H. change (escapeXml "") with ""%string in H.
      exfalso. revert H. unfold escapeOne.
      repeat match goal with
             | |- context [if ?b then _ else _] => destruct b
             end; discriminate.
    + rewrite escapeXml_cons in H. change (escapeXml "") with ""%string in H.
      exfalso. revert H. unfold escapeOne.
      repeat match goal with
             | |- context [if ?b then _ else _] => destruct b
             end; discriminate.
    + rewrite !escapeXml_cons in H.
      apply escapeOne_injective in H. destruct H as [-> H].
      now rewrite (IH t H).
Qed.

Example escapeXml_sample :
  escapeXml ("<b a=" ++ String dquote "1" ++ String dquote ">&amp;</b>")
  = ("&lt;b a=&quot;1&quot;&gt;&amp;amp;&lt;/b&gt;")%string.
Proof. reflexivity. Qed.
End EscapeFacts.

(** ** More of the approval machine *)

Module ApprovalFacts.
Import Approval.

Lemma get_update_other other rid
    (f : HostModificationRequest -> HostModificationRequest) reqs :
  other <> rid -> (forall r, id (f r) = id r) ->
  get other (update rid f reqs) = get other reqs.
Proof.
  intros Hne Hid. unfold get. induction reqs as [|r rest IH]; [reflexivity|].
  cbn [update]. destruct (id r =? rid)%string eqn:E.
  - cbn [find]. rewrite Hid. apply String.eqb_eq in E.
    assert (Ho : (id r =? other)%string = false)
      by (apply String.eqb_neq; congruence).
    rewrite Ho. reflexivity.
  - cbn [find]. rewrite IH. reflexivity.
Qed.

(** X10. Every notice of a decision goes to the chat of the request decided:
    one for a denial, two for an approval (the announcement and the
    outcome), none for an unknown id or a request that is no longer pending.
    The request records who decided, and keeps its chat, folder and plan
    path; the requests under other ids are as they were. *)
Theorem approval_notices_go_to_request_chat applyPlan reqs rid approve who :
  let run := handleApproval applyPlan reqs rid approve who in
  (forall j t,
     In (Sent j t) (effects run) ->
     exists r, get rid reqs = Some r /\ status r = pending /\ j = chatJid r) /\
  (forall r,
     get rid reqs = Some r -> status r = pending ->
     length (List.filter isSent (effects run)) = (if approve then 2 else 1)%nat /\
     exists r',
       get rid (final run) = Some r' /\ approvedBy r' = Some who /\
       chatJid r' = chatJid r /\ groupFolder r' = groupFolder r /\
       filePath r' = filePath r /\ summary r' = summary r) /\
  (forall other, other <> rid -> get other (final run) = get other reqs).
Proof.
  cbv zeta. unfold handleApproval.
  destruct (get rid reqs) as [request|] eqn:Hg.
  2:{ cbn. repeat split; try discriminate; intros; intuition discriminate. }
  destruct (Status_eqb (status request) pending) eqn:Hs; cbn [negb].
  2:{ cbn. split; [intros j t [H|[]]; discriminate|].
      split; [|reflexivity].
      intros r [= <-] Hp. rewrite Hp in Hs. discriminate. }
  apply ApprovalSpec.status_eqb_pending in Hs.
  assert (Hsent : forall (j t : string) (es : list Event),
            Forall (fun e => match e with
                             | Sent j' _ => j' = chatJid request
                             | _ => True end) es ->
            In (Sent j t) es ->
            exists r, Some request = Some r /\ status r = pending /\ j = chatJid r).
  { intros j t es Hall Hin. rewrite List.Forall_forall in Hall.
    specialize (Hall _ Hin). cbn in Hall. exists request. auto. }
  destruct approve; cbn [negb].
  - destruct (applyPlan (filePath request)) as [m|m|o m|o]; cbn [effects final];
      (split; [intros j t; apply Hsent; repeat constructor|]);
      (split; [intros r [= <-] _; split; [reflexivity|];
               rewrite ?ApprovalSpec.update_update by reflexivity;
               rewrite !ApprovalSpec.get_update by reflexivity;
               rewrite Hg; cbn [option_map];
               eexists; split; [reflexivity|]; repeat split
              |intros other Hne;
               rewrite !get_update_other by (try assumption; reflexivity);
               reflexivity]).
  - cbn [effects final].
    split; [intros j t; apply Hsent; repeat constructor|].
    split; [intros r [= <-] _; split; [reflexivity|];
            rewrite ?ApprovalSpec.update_update by reflexivity;
            rewrite !ApprovalSpec.get_update by reflexivity;
            rewrite Hg; cbn [option_map];
            eexists; split; [reflexivity|]; repeat split
           |intros other Hne;
            rewrite !get_update_other by (try assumption; reflexivity);
            reflexivity].
Qed.
End ApprovalFacts.

(** ** Outbound delivery *)

Module DeliveryFacts.
Import Delivery.

Lemma chunked_not_empty max r chunks :
  (0 < max)%nat ->
  Chunker.chunked max r chunks -> Forall (fun c => (0 < length c)%nat) chunks.
Proof.
  intros Hmax.
  induction 1 as [|r Hr|r k chunks Hlen Hk _ IH|r k chunks Hlen _ Hk _ IH
                 |r chunks Hlen _ _ _ IH].
  - constructor.
  - constructor; [lia|constructor].
  - constructor; [|exact IH]. rewrite length_firstn. destruct Hk as (? & _). lia.
  - constructor; [|exact IH]. rewrite length_firstn. destruct Hk as (? & _). lia.
  - constructor; [|exact IH]. rewrite length_firstn. lia.
Qed.

(** X11. No chunk of a text that is not empty is empty, so the chunker never
    asks for an empty message to be sent on its own account; the empty text
    is one empty chunk. *)
Theorem chunks_are_not_empty (text : string) :
  text <> "" ->
  exists chunks,
    Chunker.splitDiscordMessage text = Some chunks /\
    chunks <> [] /\
    Forall (fun c => c <> "") chunks /\
    Chunker.splitDiscordMessage "" = Some [""].
Proof.
  intros Hne.
  destruct (ChunkerSpec.splitMessage_total Chunker.DISCORD_MAX_LENGTH
              ChunkerSpec.DISCORD_MAX_LENGTH_pos (list_ascii_of_string text))
    as (chunks & Heq & _ & Hone & Hch & _).
  exists (map string_of_list_ascii chunks).
  unfold Chunker.splitDiscordMessage at 1. rewrite Heq. cbn [option_map].
  split; [reflexivity|].
  assert (Hlen : (0 < length (list_ascii_of_string text))%nat).
  { destruct text; [contradiction|cbn; lia]. }
  assert (Hall : Forall (fun c => (0 < length c)%nat) chunks /\ chunks <> []).
  { destruct (Nat.le_gt_cases (length (list_ascii_of_string text))
                Chunker.DISCORD_MAX_LENGTH) as [Hle|Hgt].
    - rewrite (Hone Hle). split; [repeat constructor; exact Hlen|discriminate].
    - specialize (Hch Hgt). split.
      + exact (chunked_not_empty _ _ _ ChunkerSpec.DISCORD_MAX_LENGTH_pos Hch).
      + destruct Hch; first [discriminate|cbn in Hgt; lia]. }
  destruct Hall as [Hall Hnil].
  split; [destruct chunks; [contradiction|discriminate]|].
  split; [|reflexivity].
  apply Forall_map. eapply Forall_impl; [exact Hall|].
  intros c Hc E. cbn in E. destruct c; [cbn in Hc; lia|discriminate].
Qed.

Lemma chunks_are_not_empty_witness :
  exists chunks,
    Chunker.splitDiscordMessage Samples.longText = Some chunks /\
    chunks <> [] /\
    Forall (fun c => c <> "") chunks /\
    Chunker.splitDiscordMessage "" = Some [""].
Proof.
  apply chunks_are_not_empty. vm_compute. discriminate.
Defined.

(** The send loop: the chunks go out in order until one is rejected. *)
Lemma sendChunks_spec host channel chunks : forall t,
  exists n,
    (n <= length chunks)%nat /\
    (forall i chunk,
       (i < n)%nat -> chunks !! i = Some chunk ->
       channelSend host (length t + i) channel chunk = true) /\
    match chunks !! n with
    | None =>
        sendChunks host channel chunks t
        = ((t ++ accepted channel chunks)%list, Router.Returned)
    | Some chunk =>
        channelSend host (length t + n) channel chunk = false /\
        sendChunks host channel chunks t
        = ((t ++ accepted channel (firstn n chunks)
              ++ [ChannelSend channel chunk false])%list, Router.Thrown)
    end.
Proof.
  induction chunks as [|chunk rest IH]; intros t.
  - exists 0%nat. cbn. rewrite app_nil_r. repeat split; [lia|].
    intros i c Hi. lia.
  - cbn [sendChunks].
    destruct (channelSend host (length t) channel chunk) eqn:Hsend.
    + destruct (IH (t ++ [ChannelSend channel chunk true])%list)
        as (n & Hn & Hacc & Hend).
      rewrite length_app in Hacc, Hend. cbn [length] in Hacc, Hend.
      exists (S n). split; [cbn; lia|]. split.
      * intros [|i] c Hi Hc.
        -- cbn in Hc. injection Hc as <-. rewrite Nat.add_0_r. exact Hsend.
        -- cbn in Hc. replace (length t + S i)%nat with (length t + 1 + i)%nat by lia.
           apply Hacc; [lia|exact Hc].
      * change ((chunk :: rest) !! S n) with (rest !! n).
        destruct (rest !! n) as [c|].
        -- destruct Hend as [Hrej Heq]. split.
           ++ replace (length t + S n)%nat with (length t + 1 + n)%nat by lia.
              exact Hrej.
           ++ rewrite Heq. cbn [firstn accepted map]. rewrite <- app_assoc.
              reflexivity.
        -- rewrite Hend. cbn [accepted map]. rewrite <- app_assoc. reflexivity.
    + exists 0%nat. split; [cbn; lia|]. split; [intros i c Hi; lia|].
      cbn. rewrite Nat.add_0_r. split; [exact Hsend|reflexivity].
Qed.

(** X12. A message for a Discord chat is cut into the chunks of the text,
    each of at most 1900 code units, and goes to one channel: the text
    channel of the id that follows the prefix of the chat identity when the
    fetch gives a text-based channel, else the direct-message channel of
    the user of that id. The chunks are sent in order, each after the one
    before it was accepted, up to the first one that the channel rejects:
    when none is rejected every chunk is sent and the success line is
    logged; otherwise the chunks before the rejected one are sent, no later
    one is attempted, and the failure is logged. When no channel resolves
    nothing is sent and the failure is logged. Nothing goes to the WhatsApp
    socket, and the call always returns. *)
Theorem discord_delivery host id text t :
  let t' := sendMessage host ("discord:" ++ id) text t in
  exists chunks,
    Chunker.splitDiscordMessage text = Some chunks /\
    Forall (fun c => (String.length c <= Chunker.DISCORD_MAX_LENGTH)%nat) chunks /\
    (resolveDiscordChannel host id = None ->
       t' = (t ++ [Error "Failed to send Discord message"])%list) /\
    (forall channel,
       resolveDiscordChannel host id = Some channel ->
       channel = (if decide (fetchChannel host id = Some true)
                  then TextChannel id else DMChannel id) /\
       exists n,
         (n <= length chunks)%nat /\
         (forall i chunk,
            (i < n)%nat -> chunks !! i = Some chunk ->
            channelSend host (length t + i) channel chunk = true) /\
         match chunks !! n with
         | None =>
             t' = (t ++ accepted channel chunks
                     ++ [Info "Discord message sent"])%list
         | Some chunk =>
             channelSend host (length t + n) channel chunk = false /\
             t' = (t ++ accepted channel (firstn n chunks)
                     ++ [ChannelSend channel chunk false;
                         Error "Failed to send Discord message"])%list
         end).
Proof.
  cbv zeta.
  destruct (ChunkerSpec.splitMessage_total Chunker.DISCORD_MAX_LENGTH
              ChunkerSpec.DISCORD_MAX_LENGTH_pos (list_ascii_of_string text))
    as (raw & Heq & Hb & _).
  set (chunks := map string_of_list_ascii raw).
  assert (Hsplit : Chunker.splitDiscordMessage text = Some chunks).
  { unfold Chunker.splitDiscordMessage. rewrite Heq. reflexivity. }
  assert (Hbound : Forall (fun c => (String.length c <= Chunker.DISCORD_MAX_LENGTH)%nat)
                     chunks).
  { subst chunks. apply Forall_map. eapply Forall_impl; [exact Hb|].
    intros c Hc. cbn.
    rewrite <- ChunkerSpec.length_list_ascii_of_string,
      list_ascii_of_string_of_list_ascii. exact Hc. }
  exists chunks. split; [exact Hsplit|]. split; [exact Hbound|].
  unfold sendMessage.
  rewrite StringFacts.startsWith_app. rewrite StringFacts.replaceFirst_prefix.
  unfold sendDiscordMessage, sendDiscordChunked. rewrite Hsplit.
  split.
  - intros ->. reflexivity.
  - intros channel Hres. rewrite Hres. split.
    { revert Hres. unfold resolveDiscordChannel.
      destruct (negb (clientReady host)); [discriminate|].
      destruct (fetchChannel host id) as [[|]|];
        destruct (decide _) as [E|E]; try discriminate E; try contradiction;
        try (intros [= <-]; reflexivity);
        destruct (openDM host id); try discriminate; intros [= <-]; reflexivity. }
    destruct (sendChunks_spec host channel chunks t) as (n & Hn & Hacc & Hend).
    exists n. split; [exact Hn|]. split; [exact Hacc|].
    destruct (chunks !! n) as [chunk|].
    + destruct Hend as [Hrej ->]. split; [exact Hrej|].
      rewrite <- !app_assoc. reflexivity.
    + rewrite Hend. rewrite <- app_assoc. reflexivity.
Qed.

(** A message for any other chat is one send on the socket. *)
Lemma socket_delivery host jid text t :
  Email.startsWith "discord:" jid = false ->
  exists d,
    sendMessage host jid text t
    = (t ++ [SockSend jid text d;
             if d then Info "Message sent" else Error "Failed to send message"])%list.
Proof.
  intros H. unfold sendMessage. rewrite H.
  destruct (sockSend host (length t) jid text);
    [exists true|exists false]; reflexivity.
Qed.
End DeliveryFacts.

(** ** WhatsApp identities *)

Module WhatsAppFacts.
Import WhatsApp.

Lemma phone_is_not_lid (p : string) :
  Ipc.endsWith "@lid" (p ++ "@s.whatsapp.net") = false.
Proof.
  unfold Ipc.endsWith. rewrite StringFacts.length_app_string.
  change (String.length "@s.whatsapp.net") with 15%nat.
  change (String.length "@lid") with 4%nat.
  replace (String.length p + 15 - 4)%nat with (String.length p + 11)%nat by lia.
  rewrite StringFacts.substring_app_offset. cbn. apply andb_false_r.
Qed.

Lemma phone_is_truthy (p : string) :
  truthy (Some (p ++ "@s.whatsapp.net")%string) = true.
Proof.
  apply truthy_Some. eexists. split; [reflexivity|].
  destruct p; discriminate.
Qed.

Lemma onOpen_phoneValued user m : phoneValued m -> phoneValued (onOpen user m).
Proof.
  intros Hm. unfold onOpen. destruct user as [u|]; [|exact Hm].
  destruct (_ && _); [|exact Hm].
  unfold writeKey. destruct (_ =? "__proto__")%string; [exact Hm|].
  intros k v. rewrite lookup_insert. case_decide.
  - intros [= <-]. eauto.
  - apply Hm.
Qed.

Lemma mapAfter_phoneValued users : phoneValued (mapAfter users).
Proof.
  unfold mapAfter.
  assert (H : forall m, phoneValued m ->
                phoneValued (fold_left (fun m u => onOpen u m) users m)).
  { induction users as [|u users IH]; intros m Hm; [exact Hm|].
    cbn [fold_left]. apply IH, onOpen_phoneValued, Hm. }
  apply H. intros k v. rewrite lookup_empty. discriminate.
Qed.

Lemma translateJid_cases m jid :
  phoneValued m ->
  translateJid m jid = Jid jid \/
  (Ipc.endsWith "@lid" jid = true /\
   exists p, translateJid m jid = Jid (p ++ "@s.whatsapp.net")) \/
  (Ipc.endsWith "@lid" jid = true /\
   isPrototypeName (lidUserOf jid) = true /\
   translateJid m jid = NotAString (lidUserOf jid)).
Proof.
  intros Hm. unfold translateJid, readKey.
  destruct (Ipc.endsWith "@lid" jid) eqn:E; cbn [negb]; [|left; reflexivity].
  destruct (m !! _) as [v|] eqn:Hl.
  - destruct (Hm _ _ Hl) as [p ->]. rewrite phone_is_truthy.
    right. left. split; [reflexivity|]. eauto.
  - destruct (isPrototypeName _) eqn:Hp; [|left; reflexivity].
    right. right. auto.
Qed.

(** What comes before the first [c] holds no [c], and nothing that the
    string does not hold. *)
Lemma before_stops c s : ~ In c (list_ascii_of_string (JsString.before c s)).
Proof.
  induction s as [|x s IH]; cbn; [tauto|].
  destruct (Ascii.eqb x c) eqn:E; cbn; [tauto|].
  intros [H|H]; [|exact (IH H)].
  subst x. rewrite Ascii.eqb_refl in E. discriminate.
Qed.

Lemma before_keeps c s x :
  In x (list_ascii_of_string (JsString.before c s)) ->
  In x (list_ascii_of_string s).
Proof.
  induction s as [|y s IH]; cbn; [tauto|].
  destruct (Ascii.eqb y c); cbn; [tauto|].
  intros [H|H]; [left; exact H|right; exact (IH H)].
Qed.

Lemma lidUserOf_no_at jid : ~ In "@"%char (list_ascii_of_string (lidUserOf jid)).
Proof.
  unfold lidUserOf. intros H. apply before_keeps in H.
  exact (before_stops _ _ H).
Qed.

(** X13. Whatever connections the process has seen, translating an identity
    gives the identity itself, or a phone identity, or, for an identity
    ending in @lid whose LID user names a property of Object.prototype and
    has no entry, the inherited object instead of a string. A translation
    that gives an identity is stable: translating the result gives it
    again. An identity that does not end in @lid is never changed. Once the
    connection has opened for a user whose LID carries a device part (a
    colon before its at sign), every identity of that LID user, with or
    without a device part, translates to the user's phone identity. For a
    user whose LID carries no device part the entry is stored under a key
    that holds the at sign, under which no identity is ever looked up: that
    connection changes no translation. *)
Theorem lid_translation users jid :
  let m := mapAfter users in
  (translateJid m jid = Jid jid \/
   (exists p, translateJid m jid = Jid (p ++ "@s.whatsapp.net")) \/
   (isPrototypeName (lidUserOf jid) = true /\
    translateJid m jid = NotAString (lidUserOf jid))) /\
  (forall j, translateJid m jid = Jid j -> translateJid m j = Jid j) /\
  (Ipc.endsWith "@lid" jid = false -> translateJid m jid = Jid jid) /\
  (forall uid lid,
     JsString.before ":" lid <> "" -> JsString.before ":" lid <> "__proto__" ->
     JsString.before ":" uid <> "" ->
     Ipc.endsWith "@lid" jid = true ->
     lidUserOf jid = JsString.before ":" lid ->
     translateJid (onOpen (Some (mkUser uid (Some lid))) m) jid
     = Jid (JsString.before ":" uid ++ "@s.whatsapp.net")) /\
  (forall uid lid,
     In "@"%char (list_ascii_of_string (JsString.before ":" lid)) ->
     translateJid (onOpen (Some (mkUser uid (Some lid))) m) jid
     = translateJid m jid).
Proof.
  cbv zeta. pose proof (mapAfter_phoneValued users) as Hm.
  split; [|split; [|split; [|split]]].
  - destruct (translateJid_cases _ jid Hm) as [H|[(_ & H)|(_ & H)]]; auto.
  - intros j Hj.
    destruct (translateJid_cases _ jid Hm) as [H|[(_ & p & H)|(_ & _ & H)]];
      rewrite H in Hj; try discriminate; injection Hj as <-.
    + exact H.
    + unfold translateJid. rewrite phone_is_not_lid. reflexivity.
  - intros H. unfold translateJid. rewrite H. reflexivity.
  - intros uid lid Hl Hproto Hu He Hsame. unfold translateJid, onOpen, readKey.
    rewrite He. cbn [negb user_id user_lid option_map].
    assert (H1 : truthy (Some (JsString.before ":" lid)) = true)
      by (apply truthy_Some; eauto).
    assert (H2 : truthy (Some (JsString.before ":" uid)) = true)
      by (apply truthy_Some; eauto).
    rewrite H1, H2. cbn [andb]. rewrite Hsame.
    change (default "" (Some (JsString.before ":" lid)))
      with (JsString.before ":" lid).
    unfold writeKey. apply String.eqb_neq in Hproto. rewrite Hproto.
    rewrite lookup_insert_eq, phone_is_truthy. reflexivity.
  - intros uid lid Hat. unfold onOpen.
    cbn [user_id user_lid option_map].
    destruct (_ && _); [|reflexivity].
    change (default "" (Some (JsString.before ":" lid)))
      with (JsString.before ":" lid).
    unfold writeKey. destruct (_ =? "__proto__")%string; [reflexivity|].
    unfold translateJid, readKey.
    destruct (negb (Ipc.endsWith "@lid" jid)); [reflexivity|].
    rewrite lookup_insert_ne; [reflexivity|].
    intros E. apply (lidUserOf_no_at jid). rewrite <- E. exact Hat.
Qed.

(** The process's own LID, with and without a device part. *)
Example own_lid_is_translated :
  let m := mapAfter [Some (mkUser "15550001:7@s.whatsapp.net" (Some "98765:7@lid"))] in
  translateJid m "98765:12@lid" = Jid "15550001@s.whatsapp.net" /\
  translateJid m "98765@lid" = Jid "15550001@s.whatsapp.net" /\
  translateJid m "11111@lid" = Jid "11111@lid" /\
  translateJid m "15550002@s.whatsapp.net" = Jid "15550002@s.whatsapp.net".
Proof.
  cbv zeta.
  repeat match goal with |- _ /\ _ => split end; vm_compute; reflexivity.
Qed.

(** A user whose LID has no device part: the entry goes under the whole
    LID, and the user's own LID identity is not translated. A LID user
    that names a property of Object.prototype reads the inherited object. *)
Example lid_without_device_is_not_translated :
  let m := mapAfter [Some (mkUser "15550001:7@s.whatsapp.net" (Some "98765@lid"))] in
  m !! "98765@lid" = Some "15550001@s.whatsapp.net" /\
  translateJid m "98765@lid" = Jid "98765@lid" /\
  translateJid m "98765:12@lid" = Jid "98765:12@lid" /\
  translateJid m "constructor@lid" = NotAString "constructor".
Proof.
  cbv zeta.
  repeat match goal with |- _ /\ _ => split end; vm_compute; reflexivity.
Qed.
End WhatsAppFacts.

(** ** The Discord tools of the agent *)

Module ToolsFacts.
Import RegExp StarLoop Tools.

Lemma matchAt_snowflake input :
  matchAt false input snowflakeRegExp 0
  = match input with
    | [] => None
    | x :: _ =>
        if isDigit x && allFrom isDigit input 1
        then Some (length input, []) else None
    end.
Proof.
  unfold matchAt, snowflakeRegExp, Plus.
  rewrite RegExpFacts.run_Seq. cbn [run Nat.eqb].
  destruct input as [|x rest]; [reflexivity|]. cbn [nth_error].
  destruct (isDigit x); [|reflexivity]. cbn [andb].
  change (match _ with Some res => Some res | None => _ end)
    with (run false (x :: rest) (Star (Class isDigit)) 1 []
            (fun j cs' => run false (x :: rest) AssertEnd j cs'
                            (fun j0 cs0 => Some (j0, cs0)))).
  rewrite RegExpFacts.run_Star.
  change (fun j cs' => run false (x :: rest) AssertEnd j cs'
                         (fun j0 cs0 => Some (j0, cs0)))
    with (fun (j : nat) (cs' : captures) =>
            if (j =? length (x :: rest))%nat then Some (j, cs') else None).
  apply RegExpFacts.starLoop_class_end; cbn [length]; lia.
Qed.

Lemma exec_snowflake id :
  exec false snowflakeRegExp id = if isNumeric id then Some [] else None.
Proof.
  unfold snowflakeRegExp. rewrite RegExpFacts.exec_anchored.
  fold snowflakeRegExp. rewrite matchAt_snowflake.
  unfold isNumeric. destruct id as [|x rest]; [reflexivity|].
  cbn [list_ascii_of_string String.eqb negb andb forallb].
  unfold allFrom. cbn [skipn]. rewrite ?drop_0.
  destruct (isDigit x && forallb isDigit (list_ascii_of_string rest));
    reflexivity.
Qed.

Lemma validateSnowflake_cases id fieldName :
  validateSnowflake id fieldName = None -> isNumeric id = true.
Proof.
  unfold validateSnowflake. rewrite exec_snowflake.
  destruct (isNumeric id); [reflexivity|discriminate].
Qed.

(** X14. An identifier passes validateSnowflake exactly when it is a
    non-empty string of decimal digits; the message of a refusal names the
    field. *)
Theorem validateSnowflake_numeric id fieldName :
  (validateSnowflake id fieldName = None <-> isNumeric id = true) /\
  (isNumeric id = false ->
   validateSnowflake id fieldName
   = Some ("Invalid " ++ fieldName
           ++ ". Must be a Discord snowflake ID (numeric string).")%string).
Proof.
  unfold validateSnowflake. rewrite exec_snowflake.
  destruct (isNumeric id); split; try split; try reflexivity; try discriminate.
Qed.
Lemma pollBudget_step elapsed maxWait :
  elapsed < maxWait ->
  pollBudget (maxWait - elapsed) = S (pollBudget (maxWait - (elapsed + 500))).
Proof.
  intros H. unfold pollBudget.
  replace (maxWait - elapsed + 499) with ((maxWait - (elapsed + 500) + 499) + 1 * 500)
    by lia.
  rewrite Z.div_add by lia.
  assert (0 <= (maxWait - (elapsed + 500) + 499) / 500).
  { apply Z.div_pos; lia. }
  rewrite Z2Nat.inj_add by lia. change (Z.to_nat 1) with 1%nat. lia.
Qed.

Lemma pollBudget_done elapsed maxWait :
  maxWait <= elapsed -> pollBudget (maxWait - elapsed) = 0%nat.
Proof.
  intros H. unfold pollBudget.
  assert ((maxWait - elapsed + 499) / 500 <= 0).
  { assert ((maxWait - elapsed + 499) / 500 < 1); [|lia].
    apply Z.div_lt_upper_bound; lia. }
  lia.
Qed.

Lemma absentFor_next host requestId w n :
  resultFile host requestId (polls w) = Absent ->
  absentFor host requestId
    (mkState (tasksDir w) (unlinked w) (S (polls w))) n ->
  absentFor host requestId w (S n).
Proof.
  intros H0 Hn [|j] Hj.
  - rewrite Nat.add_0_r. exact H0.
  - replace (polls w + S j)%nat with (S (polls w) + j)%nat by lia.
    apply (Hn j). lia.
Qed.

Lemma absentFor_tail host requestId w n :
  absentFor host requestId w (S n) ->
  absentFor host requestId
    (mkState (tasksDir w) (unlinked w) (S (polls w))) n.
Proof.
  intros H j Hj. cbn [polls].
  replace (S (polls w) + j)%nat with (polls w + S j)%nat by lia.
  apply H. lia.
Qed.

(** The loop from [elapsed] on: it times out after the polls that are left
    when the file stays absent, and stops at the first poll that finds it. *)
Lemma waitLoop_spec host requestId maxWait : forall fuel elapsed w,
  (pollBudget (maxWait - elapsed) <= fuel)%nat ->
  exists w' result,
    waitLoop host fuel requestId elapsed maxWait w = Some (w', result) /\
    tasksDir w' = tasksDir w /\
    (polls w' <= polls w + pollBudget (maxWait - elapsed))%nat /\
    (absentFor host requestId w (pollBudget (maxWait - elapsed)) ->
       w' = mkState (tasksDir w) (unlinked w)
              (polls w + pollBudget (maxWait - elapsed)) /\
       result = mkResult false "Request timed out" None) /\
    (forall k,
       (k < pollBudget (maxWait - elapsed))%nat ->
       absentFor host requestId w k ->
       match resultFile host requestId (polls w + k) with
       | Absent => True
       | Unreadable err =>
           w' = mkState (tasksDir w) (unlinked w) (polls w + S k) /\
           result = mkResult false ("Failed to read result: " ++ err) None
       | Holds r =>
           w' = mkState (tasksDir w) (unlinked w ++ [requestId]) (polls w + S k) /\
           result = r
       end).
Proof.
  assert (Hstop : forall fuel elapsed w,
            (elapsed <? maxWait) = false ->
            exists w' result,
              waitLoop host fuel requestId elapsed maxWait w = Some (w', result) /\
              tasksDir w' = tasksDir w /\
              (polls w' <= polls w + pollBudget (maxWait - elapsed))%nat /\
              (absentFor host requestId w (pollBudget (maxWait - elapsed)) ->
                 w' = mkState (tasksDir w) (unlinked w)
                        (polls w + pollBudget (maxWait - elapsed)) /\
                 result = mkResult false "Request timed out" None) /\
              (forall k,
                 (k < pollBudget (maxWait - elapsed))%nat ->
                 absentFor host requestId w k ->
                 match resultFile host requestId (polls w + k) with
                 | Absent => True
                 | Unreadable err =>
                     w' = mkState (tasksDir w) (unlinked w) (polls w + S k) /\
                     result = mkResult false ("Failed to read result: " ++ err) None
                 | Holds r =>
                     w' = mkState (tasksDir w) (unlinked w ++ [requestId])
                            (polls w + S k) /\
                     result = r
                 end)).
  { intros fuel elapsed w E. apply Z.ltb_ge in E.
    rewrite (pollBudget_done _ _ E).
    exists w, (mkResult false "Request timed out" None).
    split; [destruct fuel; cbn [waitLoop]; apply Z.ltb_ge in E; rewrite E; reflexivity|].
    split; [reflexivity|]. split; [lia|].
    split; [intros _; destruct w; cbn; rewrite Nat.add_0_r; split; reflexivity|].
    intros k Hk. lia. }
  induction fuel as [|fuel IH]; intros elapsed w Hfuel;
    destruct (elapsed <? maxWait) eqn:E; try (apply Hstop; exact E).
  - apply Z.ltb_lt in E. rewrite (pollBudget_step _ _ E) in Hfuel. lia.
  - pose proof E as Elt. apply Z.ltb_lt in Elt.
    rewrite (pollBudget_step _ _ Elt) in *.
    set (b := pollBudget (maxWait - (elapsed + 500))) in *.
    cbn [waitLoop]. rewrite E.
    destruct (resultFile host requestId (polls w)) as [|err|r] eqn:Hfile.
    + destruct (IH (elapsed + 500)
                  (mkState (tasksDir w) (unlinked w) (S (polls w))))
        as (w' & result & Hrun & Ht & Hp & Hout & Hfound); [fold b; lia|].
      fold b in Hp, Hout, Hfound. cbn [tasksDir unlinked polls] in *.
      exists w', result. split; [exact Hrun|]. split; [exact Ht|].
      split; [lia|]. split.
      * intros Habs. apply absentFor_tail in Habs.
        destruct (Hout Habs) as [-> ->].
        replace (polls w + S b)%nat with (S (polls w) + b)%nat by lia.
        split; reflexivity.
      * intros [|k] Hk Habs.
        -- rewrite Nat.add_0_r, Hfile. exact I.
        -- apply absentFor_tail in Habs.
           assert (Hk' : (k < b)%nat) by lia.
           specialize (Hfound k Hk' Habs).
           replace (polls w + S k)%nat with (S (polls w) + k)%nat by lia.
           replace (polls w + S (S k))%nat with (S (polls w) + S k)%nat by lia.
           exact Hfound.
    + eexists _, _. split; [reflexivity|]. cbn [tasksDir polls].
      split; [reflexivity|]. split; [lia|]. split.
      * intros Habs. specialize (Habs 0%nat ltac:(lia)).
        rewrite Nat.add_0_r, Hfile in Habs. discriminate.
      * intros [|k] Hk Habs.
        -- rewrite Nat.add_0_r, Hfile.
           replace (polls w + 1)%nat with (S (polls w)) by lia.
           split; reflexivity.
        -- specialize (Habs 0%nat ltac:(lia)).
           rewrite Nat.add_0_r, Hfile in Habs. discriminate.
    + eexists _, _. split; [reflexivity|]. cbn [tasksDir polls].
      split; [reflexivity|]. split; [lia|]. split.
      * intros Habs. specialize (Habs 0%nat ltac:(lia)).
        rewrite Nat.add_0_r, Hfile in Habs. discriminate.
      * intros [|k] Hk Habs.
        -- rewrite Nat.add_0_r, Hfile.
           replace (polls w + 1)%nat with (S (polls w)) by lia.
           split; reflexivity.
        -- specialize (Habs 0%nat ltac:(lia)).
           rewrite Nat.add_0_r, Hfile in Habs. discriminate.
Qed.

Lemma pollBudget_fuel maxWait :
  (pollBudget maxWait <= Z.to_nat (maxWait / 500 + 1))%nat.
Proof.
  unfold pollBudget.
  assert ((maxWait + 499) / 500 <= maxWait / 500 + 1).
  { replace (maxWait / 500 + 1) with ((maxWait + 1 * 500) / 500)
      by (rewrite Z.div_add by lia; reflexivity).
    apply Z.div_le_mono; lia. }
  lia.
Qed.

(** X15. waitForResult always returns, after at most one poll for every
    500 ms of maxWait (60 for the 30 s that executeIpc allows), never
    touching the tasks directory. It returns the content of the result file
    at the first poll that finds it, and removes the file; a file that
    cannot be read or parsed gives a failure; when the file stays absent for
    all the polls it reports a timeout, and a result written later is never
    read. *)
Theorem waitForResult_bounded host requestId maxWait w :
  exists w' result,
    waitForResult host requestId maxWait w = Some (w', result) /\
    tasksDir w' = tasksDir w /\
    (polls w' <= polls w + pollBudget maxWait)%nat /\
    pollBudget 30000 = 60%nat /\
    (absentFor host requestId w (pollBudget maxWait) ->
       w' = mkState (tasksDir w) (unlinked w) (polls w + pollBudget maxWait) /\
       result = mkResult false "Request timed out" None) /\
    (forall k,
       (k < pollBudget maxWait)%nat ->
       absentFor host requestId w k ->
       match resultFile host requestId (polls w + k) with
       | Absent => True
       | Unreadable err =>
           w' = mkState (tasksDir w) (unlinked w) (polls w + S k) /\
           result = mkResult false ("Failed to read result: " ++ err) None
       | Holds r =>
           w' = mkState (tasksDir w) (unlinked w ++ [requestId]) (polls w + S k) /\
           result = r
       end).
Proof.
  unfold waitForResult.
  destruct (waitLoop_spec host requestId maxWait
              (Z.to_nat (maxWait / 500 + 1)) 0 w)
    as (w' & result & Hrun & Ht & Hp & Hout & Hfound).
  { rewrite Z.sub_0_r. apply pollBudget_fuel. }
  rewrite Z.sub_0_r in *.
  exists w', result. repeat split; try assumption.
  - apply Hout. assumption.
  - apply Hout. assumption.
Qed.
Lemma not_json_tmp (p : string) : Ipc.endsWith ".json" (p ++ ".json.tmp") = false.
Proof.
  unfold Ipc.endsWith. rewrite StringFacts.length_app_string.
  change (String.length ".json.tmp") with 9%nat.
  change (String.length ".json") with 5%nat.
  replace (String.length p + 9 - 5)%nat with (String.length p + 4)%nat by lia.
  rewrite StringFacts.substring_app_offset. cbn. apply andb_false_r.
Qed.

Lemma validate_numeric call :
  validate call = None ->
  match call with
  | discord_send channel_id _ => isNumeric channel_id = true
  | discord_reply channel_id message_id _ =>
      isNumeric channel_id = true /\ isNumeric message_id = true
  | _ => True
  end.
Proof.
  destruct call; cbn [validate]; try (intros _; exact I).
  - intros H. apply (validateSnowflake_cases _ "channel_id"). exact H.
  - destruct (validateSnowflake channel_id "channel_id") eqn:E; [discriminate|].
    intros H. split.
    + apply (validateSnowflake_cases _ "channel_id"). exact E.
    + apply (validateSnowflake_cases _ "message_id"). exact H.
Qed.

(** X16. A tool called outside the main group and outside a scheduled task
    is refused with the permission text and writes nothing. A call that
    writes a request writes exactly one file, whose name ends in .json (the
    name it has while it is being written does not), for a permitted
    context, and only after the identifiers of discord_send and
    discord_reply were found numeric; the request carries the tool's name
    as its type, the group folder of the context, and an id that starts
    with the tool's name. *)
Theorem tool_call_gate host ctx call w :
  (isMain ctx = false -> isScheduledTask ctx <> Some true ->
     handle host ctx call w = Some (w, mkOutput permissionText true)) /\
  exists w' out,
    handle host ctx call w = Some (w', out) /\
    (tasksDir w' = tasksDir w \/
     exists file envelope requestId,
       tasksDir w' = (tasksDir w ++ [(file, envelope)])%list /\
       Ipc.endsWith ".json" file = true /\
       tasksDir (duringWrite host envelope w)
       = (tasksDir w ++ [((file ++ ".tmp")%string, envelope)])%list /\
       Ipc.endsWith ".json" (file ++ ".tmp") = false /\
       (isMain ctx = true \/ isScheduledTask ctx = Some true) /\
       lookup "type" envelope = Some (Str (typeOf call)) /\
       lookup "groupFolder" envelope = Some (Str (groupFolder ctx)) /\
       lookup "requestId" envelope = Some (Str requestId) /\
       Email.startsWith (typeOf call ++ "-") requestId = true /\
       match call with
       | discord_send channel_id _ => isNumeric channel_id = true
       | discord_reply channel_id message_id _ =>
           isNumeric channel_id = true /\ isNumeric message_id = true
       | _ => True
       end).
Proof.
  split.
  - intros Hm Hs. unfold handle, checkPermission. rewrite Hm.
    destruct (isScheduledTask ctx) as [[|]|]; try reflexivity. contradiction.
  - unfold handle.
    destruct (checkPermission (isMain ctx) (isScheduledTask ctx)) as [permErr|] eqn:Hperm.
    { eexists _, _. split; [reflexivity|]. left. reflexivity. }
    assert (Hok : isMain ctx = true \/ isScheduledTask ctx = Some true).
    { revert Hperm. unfold checkPermission.
      destruct (isScheduledTask ctx) as [[|]|], (isMain ctx); cbn;
        try discriminate; auto. }
    destruct (validate call) as [idErr|] eqn:Hval.
    { eexists _, _. split; [reflexivity|]. left. reflexivity. }
    apply validate_numeric in Hval.
    unfold executeIpc, writeIpcFile.
    set (n := length (tasksDir w)).
    set (requestId := (typeOf call ++ "-" ++ now host (2 * n) ++ "-"
                       ++ random host (2 * n))%string).
    set (envelope := assign "timestamp" _ _).
    set (file := (now host (2 * n + 1) ++ "-" ++ random host (2 * n + 1)
                  ++ ".json")%string).
    set (w1 := mkState (tasksDir w ++ [(file, envelope)]) (unlinked w) (polls w)).
    destruct (waitLoop_spec host requestId 30000
                (Z.to_nat (30000 / 500 + 1)) 0 w1)
      as (w2 & result & Hrun & Ht & _).
    { rewrite Z.sub_0_r. apply pollBudget_fuel. }
    unfold waitForResult. rewrite Hrun.
    eexists _, _. split; [reflexivity|]. right.
    exists file, envelope, requestId.
    split; [exact Ht|].
    split.
    { subst file.
      replace (now host (2 * n + 1) ++ "-" ++ random host (2 * n + 1) ++ ".json")%string
        with ((now host (2 * n + 1) ++ "-" ++ random host (2 * n + 1))
              ++ ".json")%string
        by (rewrite !StringFacts.append_assoc_string; reflexivity).
      apply StringFacts.endsWith_app. }
    split; [reflexivity|].
    split.
    { subst file.
      replace ((now host (2 * n + 1) ++ "-" ++ random host (2 * n + 1) ++ ".json")
               ++ ".tmp")%string
        with ((now host (2 * n + 1) ++ "-" ++ random host (2 * n + 1))
              ++ ".json.tmp")%string
        by (rewrite !StringFacts.append_assoc_string; reflexivity).
      apply not_json_tmp. }
    split; [exact Hok|].
    split; [subst envelope; destruct call; reflexivity|].
    split; [subst envelope; destruct call; reflexivity|].
    split; [subst envelope; destruct call; reflexivity|].
    split; [|exact Hval].
    subst requestId.
    replace (typeOf call ++ "-" ++ now host (2 * n) ++ "-" ++ random host (2 * n))%string
      with ((typeOf call ++ "-") ++ now host (2 * n) ++ "-" ++ random host (2 * n))%string
      by (rewrite !StringFacts.append_assoc_string; reflexivity).
    apply StringFacts.startsWith_app.
Qed.
End ToolsFacts.

(** ** Host-change requests: discovery and buttons *)

Module HostChangesFacts.
Import RegExp Approval HostChanges.

Lemma removeAtStart_approve id :
  removeAtStart buttonRegExp ("hc_approve_" ++ id) = id.
Proof.
  unfold removeAtStart. rewrite StringFacts.list_ascii_of_string_app.
  cbn. apply string_of_list_ascii_of_string.
Qed.

Lemma removeAtStart_deny id :
  removeAtStart buttonRegExp ("hc_deny_" ++ id) = id.
Proof.
  unfold removeAtStart. rewrite StringFacts.list_ascii_of_string_app.
  cbn. apply string_of_list_ascii_of_string.
Qed.

Lemma startsWith_deny_approve id :
  Email.startsWith "hc_approve_" ("hc_deny_" ++ id) = false.
Proof. reflexivity. Qed.

(** X17. The custom ids that the scan puts on the two buttons of a request
    decode to that request and to the decision: a click on a button of a
    pending request, once the card is updated, does exactly what
    handleApproval does for that id, decision and user; for an id that is
    unknown or no longer pending it changes no request and only replies;
    and an interaction with any other custom id is ignored. *)
Theorem button_decodes_request applyPlan replyResolves updateResolves
    (reqs : Requests) (id : string) (approve : bool) (user content : string) :
  let customId :=
    ((if approve then "hc_approve_" else "hc_deny_") ++ id)%string in
  let out :=
    handleDiscordButtonInteraction applyPlan replyResolves updateResolves reqs
      (mkInteraction customId user content) in
  let run := handleApproval applyPlan reqs id approve user in
  match get id reqs with
  | None =>
      run_requests out = reqs /\ run_effects out = [] /\
      reactions out = [Reply "Unknown or expired request."]
  | Some request =>
      if Status_eqb (status request) pending then
        if updateResolves then
          run_requests out = final run /\ run_effects out = effects run /\
          completion out = Router.Returned
        else
          run_requests out = reqs /\ run_effects out = [] /\
          completion out = Router.Thrown
      else
        run_requests out = reqs /\ run_effects out = [] /\
        reactions out
        = [Reply ("Request already " ++ statusName (status request) ++ ".")]
  end /\
  (forall other,
     Email.startsWith "hc_approve_" other = false ->
     Email.startsWith "hc_deny_" other = false ->
     handleDiscordButtonInteraction applyPlan replyResolves updateResolves reqs
       (mkInteraction other user content)
     = mkButtonRun reqs [] [] Router.Returned).
Proof.
  cbv zeta. split.
  - unfold handleDiscordButtonInteraction.
    cbn [HostChanges.customId username message_content].
    destruct approve.
    + rewrite StringFacts.startsWith_app. cbn [negb andb].
      rewrite removeAtStart_approve.
      destruct (get id reqs) as [request|]; [|repeat split].
      destruct (Status_eqb (status request) pending); cbn [negb];
        [|repeat split].
      destruct updateResolves; repeat split.
    + rewrite startsWith_deny_approve, StringFacts.startsWith_app.
      cbn [negb andb]. rewrite removeAtStart_deny.
      destruct (get id reqs) as [request|]; [|repeat split].
      destruct (Status_eqb (status request) pending); cbn [negb];
        [|repeat split].
      destruct updateResolves; repeat split.
  - intros other Ha Hd. unfold handleDiscordButtonInteraction.
    cbn [HostChanges.customId]. rewrite Ha, Hd. reflexivity.
Qed.

(** *** The scan *)

Lemma pendingFor_update f rid g reqs :
  (forall r, isPendingFor f (g r) = true -> isPendingFor f r = true) ->
  (pendingFor f (update rid g reqs) <= pendingFor f reqs)%nat.
Proof.
  intros Hg. unfold pendingFor.
  induction reqs as [|r rest IH]; [reflexivity|].
  cbn [update]. destruct (id r =? rid)%string.
  - cbn [List.filter]. destruct (isPendingFor f (g r)) eqn:E.
    + rewrite (Hg r E). reflexivity.
    + destruct (isPendingFor f r); cbn [length]; lia.
  - cbn [List.filter]. destruct (isPendingFor f r); cbn [length]; lia.
Qed.

Lemma pendingFor_update_same f rid g reqs :
  (forall r, isPendingFor f (g r) = isPendingFor f r) ->
  pendingFor f (update rid g reqs) = pendingFor f reqs.
Proof.
  intros Hg. unfold pendingFor.
  induction reqs as [|r rest IH]; [reflexivity|].
  cbn [update]. destruct (id r =? rid)%string.
  - cbn [List.filter]. rewrite Hg. destruct (isPendingFor f r); reflexivity.
  - cbn [List.filter]. destruct (isPendingFor f r); cbn [length]; lia.
Qed.

Lemma pendingFor_setRequest f r reqs :
  (pendingFor f (setRequest r reqs)
   <= pendingFor f reqs + (if isPendingFor f r then 1 else 0))%nat.
Proof.
  unfold pendingFor. induction reqs as [|x rest IH].
  - cbn. destruct (isPendingFor f r); cbn; lia.
  - cbn [setRequest]. destruct (id x =? id r)%string.
    + cbn [List.filter]. destruct (isPendingFor f r), (isPendingFor f x);
        cbn [length]; lia.
    + cbn [List.filter]. destruct (isPendingFor f x); cbn [length]; lia.
Qed.

Lemma pendingFor_zero f reqs :
  existsb (isPendingFor f) reqs = false -> pendingFor f reqs = 0%nat.
Proof.
  unfold pendingFor. induction reqs as [|r rest IH]; [reflexivity|].
  cbn [existsb List.filter]. destruct (isPendingFor f r); [discriminate|].
  exact IH.
Qed.

Lemma isPendingFor_other f folder r :
  groupFolder r = folder -> f <> folder -> isPendingFor f r = false.
Proof.
  intros <- Hne. unfold isPendingFor.
  assert (E : (groupFolder r =? f)%string = false)
    by (apply String.eqb_neq; congruence).
  rewrite E. reflexivity.
Qed.

(** What one step of the scan does to the requests. *)
Lemma scanFolder_requests host w folder :
  let w' := fst (scanFolder host w folder) in
  requests w' = requests w \/
  exists content chat path,
    files w !! pendingFileOf host folder = Some content /\
    existsb (isPendingFor folder) (requests w) = false /\
    findChatJid folder (registeredGroups w) = Some chat /\
    let id := ("hc-" ++ now host (made w))%string in
    let request :=
      mkRequest id folder chat (parseSummary host content)
        (pendingFileOf host folder) (isoNow host (made w)) pending None None in
    (requests w' = setRequest request (requests w) \/
     requests w' = update id (setFilePath path) (setRequest request (requests w))).
Proof.
  cbv zeta. unfold scanFolder.
  destruct (files w !! pendingFileOf host folder) as [content|] eqn:Hfile;
    [|left; reflexivity].
  destruct (existsb (isPendingFor folder) (requests w)) eqn:Htracked;
    [left; reflexivity|].
  destruct (findChatJid folder (registeredGroups w)) as [chat|] eqn:Hchat;
    [|left; reflexivity].
  destruct (negb (truthy (Some chat))); [left; reflexivity|].
  right. exists content, chat.
  exists (JsString.replaceFirst ".md" ".notified.md" (pendingFileOf host folder)).
  split; [reflexivity|]. split; [reflexivity|]. split; [reflexivity|].
  cbv zeta.
  destruct (renameOk host _ _); [right|left];
    destruct (Email.startsWith "discord:" chat);
    try destruct (discordClient host); try destruct (cardSent host _);
    reflexivity.
Qed.

Lemma scanFolder_onePending host w folder :
  onePendingPerFolder (requests w) ->
  onePendingPerFolder (requests (fst (scanFolder host w folder))).
Proof.
  intros Hinv.
  destruct (scanFolder_requests host w folder)
    as [->|(content & chat & path & _ & Htracked & _ & Hreq)]; [exact Hinv|].
  cbv zeta in Hreq.
  set (request := mkRequest _ folder chat _ _ _ pending None None) in Hreq.
  assert (Hset : onePendingPerFolder (setRequest request (requests w))).
  { intros f. pose proof (pendingFor_setRequest f request (requests w)) as H.
    destruct (String.eqb_spec f folder) as [->|Hne].
    - rewrite (pendingFor_zero _ _ Htracked) in H.
      destruct (isPendingFor folder request); lia.
    - rewrite (isPendingFor_other f folder request eq_refl Hne) in H.
      specialize (Hinv f). lia. }
  destruct Hreq as [-> | ->]; [exact Hset|].
  intros f. rewrite pendingFor_update_same; [apply Hset|].
  intros r. reflexivity.
Qed.

Lemma scanFolders_onePending host folders : forall w,
  onePendingPerFolder (requests w) ->
  onePendingPerFolder (requests (fst (scanFolders host w folders))).
Proof.
  induction folders as [|folder rest IH]; intros w Hinv; [exact Hinv|].
  cbn [scanFolders].
  pose proof (scanFolder_onePending host w folder Hinv) as H.
  destruct (scanFolder host w folder) as [w' []]; cbn [fst] in *.
  - apply IH. exact H.
  - exact H.
Qed.

Lemma handleApproval_pendingFor applyPlan reqs rid approve who f :
  (pendingFor f (final (handleApproval applyPlan reqs rid approve who))
   <= pendingFor f reqs)%nat.
Proof.
  unfold handleApproval.
  destruct (get rid reqs) as [request|]; [|reflexivity].
  destruct (negb _); [reflexivity|].
  assert (Hsame : forall l, pendingFor f (update rid (setApprovedBy who) l)
                            = pendingFor f l)
    by (intros l; apply pendingFor_update_same; reflexivity).
  assert (Herr : forall m l, pendingFor f (update rid (setError m) l)
                             = pendingFor f l)
    by (intros m l; apply pendingFor_update_same; reflexivity).
  assert (Hst : forall s l, s <> pending ->
                  (pendingFor f (update rid (setStatus s) l) <= pendingFor f l)%nat).
  { intros s l Hs. apply pendingFor_update. intros r.
    unfold isPendingFor. cbn. destruct s; try contradiction;
      rewrite andb_false_r; discriminate. }
  destruct (negb approve).
  - cbn [final]. etransitivity; [apply Hst; discriminate|]. now rewrite Hsame.
  - destruct (applyPlan (filePath request)); cbn [final];
      rewrite ?Herr;
      repeat (etransitivity; [apply Hst; discriminate|]);
      now rewrite Hsame.
Qed.

(** X18. No folder ever has two pending requests: the scan makes a request
    for a folder only when the folder has none pending, and deciding a
    request makes none pending. Started from requests with that property, a
    scan and a decision both keep it. *)
Theorem one_pending_request_per_folder host applyPlan w rid approve who :
  onePendingPerFolder (requests w) ->
  onePendingPerFolder (requests (fst (scanForHostChanges host w))) /\
  onePendingPerFolder
    (final (handleApproval applyPlan (requests w) rid approve who)).
Proof.
  intros Hinv. split.
  - unfold scanForHostChanges.
    destruct (listGroupFolders host) as [folders|]; [|exact Hinv].
    apply scanFolders_onePending. exact Hinv.
  - intros f.
    pose proof (handleApproval_pendingFor applyPlan (requests w) rid approve who f).
    specialize (Hinv f). lia.
Qed.

Lemma get_setRequest r reqs : get (id r) (setRequest r reqs) = Some r.
Proof.
  unfold get. induction reqs as [|x rest IH]; cbn [setRequest find].
  - now rewrite String.eqb_refl.
  - destruct (id x =? id r)%string eqn:E; cbn [find].
    + now rewrite String.eqb_refl.
    + rewrite E. exact IH.
Qed.

Lemma existsb_setRequest f r reqs :
  isPendingFor f r = true -> existsb (isPendingFor f) (setRequest r reqs) = true.
Proof.
  intros Hr. induction reqs as [|x rest IH]; cbn [setRequest existsb].
  - now rewrite Hr.
  - destruct (id x =? id r)%string; cbn [existsb].
    + now rewrite Hr.
    + rewrite IH. apply orb_true_r.
Qed.

Lemma existsb_update_same f rid g reqs :
  (forall r, isPendingFor f (g r) = isPendingFor f r) ->
  existsb (isPendingFor f) (update rid g reqs) = existsb (isPendingFor f) reqs.
Proof.
  intros Hg. induction reqs as [|x rest IH]; [reflexivity|].
  cbn [update]. destruct (id x =? rid)%string; cbn [existsb].
  - now rewrite Hg.
  - now rewrite IH.
Qed.

(** A step that finds the folder's request pending, or no file, does
    nothing. *)
Lemma scanFolder_tracked host w folder :
  existsb (isPendingFor folder) (requests w) = true ->
  scanFolder host w folder = (w, Router.Returned).
Proof.
  intros H. unfold scanFolder.
  destruct (files w !! pendingFileOf host folder); [|reflexivity].
  rewrite H. reflexivity.
Qed.

(** X19. One step of the scan tells at most one chat, the first one that
    the registry has for the folder: every message it sends goes there, and
    a card it posts carries the two custom ids made of the id of the new
    request, which is pending, of that folder and that chat. A second step
    for the same folder sends nothing and makes no request, whether or not
    the plan file could be renamed: the folder is not notified again while
    its request is pending. *)
Theorem scan_notifies_once host w folder :
  let w1 := fst (scanFolder host w folder) in
  let w2 := fst (scanFolder host w1 folder) in
  (exists es,
     trace w1 = (trace w ++ es)%list /\
     forall j t, In (Sent j t) es ->
                 findChatJid folder (registeredGroups w) = Some j) /\
  (exists cs,
     cards w1 = (cards w ++ cs)%list /\
     forall c, In c cs ->
       exists r,
         get (id r) (requests w1) = Some r /\
         approveId c = ("hc_approve_" ++ id r)%string /\
         denyId c = ("hc_deny_" ++ id r)%string /\
         groupFolder r = folder /\ status r = pending /\
         chatJid r = ("discord:" ++ card_target c)%string /\
         findChatJid folder (registeredGroups w) = Some (chatJid r)) /\
  requests w2 = requests w1 /\ cards w2 = cards w1 /\ files w2 = files w1 /\
  List.filter isSent (trace w2) = List.filter isSent (trace w1).
Proof.
  cbv zeta.
  destruct (files w !! pendingFileOf host folder) as [content|] eqn:Hfile.
  2:{ assert (E : scanFolder host w folder = (w, Router.Returned))
        by (unfold scanFolder; rewrite Hfile; reflexivity).
      rewrite E. cbn [fst]. rewrite E. cbn [fst].
      split; [exists []; split; [now rewrite app_nil_r|intros j t []]|].
      split; [exists []; split; [now rewrite app_nil_r|intros c []]|].
      repeat split. }
  destruct (existsb (isPendingFor folder) (requests w)) eqn:Htracked.
  { rewrite (scanFolder_tracked host w folder Htracked). cbn [fst].
    rewrite (scanFolder_tracked host w folder Htracked). cbn [fst].
    split; [exists []; split; [now rewrite app_nil_r|intros j t []]|].
    split; [exists []; split; [now rewrite app_nil_r|intros c []]|].
    repeat split. }
  assert (Hquiet : forall w1,
            files w1 = files w -> requests w1 = requests w ->
            registeredGroups w1 = registeredGroups w ->
            (forall chat, findChatJid folder (registeredGroups w) = Some chat ->
                          truthy (Some chat) = false) ->
            fst (scanFolder host w1 folder)
            = emit [LogWarn "Host changes file found but no registered group"] w1).
  { intros w1 Hf Hr Hg Hnone. unfold scanFolder.
    rewrite Hf, Hfile, Hr, Htracked, Hg.
    destruct (findChatJid folder (registeredGroups w)) as [chat|]; [|reflexivity].
    rewrite (Hnone chat eq_refl). reflexivity. }
  destruct (findChatJid folder (registeredGroups w)) as [chat|] eqn:Hchat.
  2:{ rewrite (Hquiet w eq_refl eq_refl eq_refl) by discriminate. 
      rewrite (Hquiet (emit _ w) eq_refl eq_refl eq_refl) by discriminate.
      split; [eexists; split; [reflexivity|intros j t [H|[]]; discriminate]|].
      split; [exists []; split; [now rewrite app_nil_r|intros c []]|].
      cbn [requests cards files trace emit]. repeat split.
      rewrite List.filter_app. cbn. now rewrite app_nil_r. }
  destruct (truthy (Some chat)) eqn:Htruthy.
  2:{ assert (Hn : forall c, Some chat = Some c -> truthy (Some c) = false)
        by (intros c [= <-]; exact Htruthy).
      rewrite (Hquiet w eq_refl eq_refl eq_refl Hn).
      rewrite (Hquiet (emit _ w) eq_refl eq_refl eq_refl Hn).
      split; [eexists; split; [reflexivity|intros j t [H|[]]; discriminate]|].
      split; [exists []; split; [now rewrite app_nil_r|intros c []]|].
      cbn [requests cards files trace emit]. repeat split.
      rewrite List.filter_app. cbn. now rewrite app_nil_r. }
  clear Hquiet.
  set (rid := ("hc-" ++ now host (made w))%string).
  set (request := mkRequest rid folder chat (parseSummary host content)
                    (pendingFileOf host folder) (isoNow host (made w))
                    pending None None).
  set (notified := JsString.replaceFirst ".md" ".notified.md"
                     (pendingFileOf host folder)).
  assert (Hpend : isPendingFor folder request = true).
  { unfold isPendingFor. cbn. now rewrite String.eqb_refl. }
  assert (Hfirst :
    exists w1 c,
      scanFolder host w folder = (w1, c) /\
      (requests w1 = setRequest request (requests w) \/
       requests w1 = update rid (setFilePath notified)
                       (setRequest request (requests w))) /\
      (exists es, trace w1 = (trace w ++ es)%list /\
                  forall j t, In (Sent j t) es -> j = chat) /\
      (cards w1 = cards w \/
       exists target,
         chat = ("discord:" ++ target)%string /\
         cards w1 = (cards w ++ [mkCard target
                                   (cardText rid folder (parseSummary host content))
                                   ("hc_approve_" ++ rid) ("hc_deny_" ++ rid)])%list)).
  { unfold scanFolder. rewrite Hfile, Htracked, Hchat, Htruthy. cbn [negb].
    fold rid. fold request. fold notified.
    destruct (Email.startsWith "discord:" chat) eqn:Hd.
    - destruct (StringFacts.startsWith_split _ _ Hd) as (target & Htarget).
      assert (Hrep : JsString.replaceFirst "discord:" "" chat = target)
        by (rewrite Htarget; apply StringFacts.replaceFirst_prefix).
      rewrite Hrep.
      destruct (discordClient host); [destruct (cardSent host target)|];
        destruct (renameOk host _ notified);
        eexists _, _; (split; [reflexivity|]);
        cbn [requests trace cards emit set_requests set_files];
        (split; [auto|]);
        (split; [eexists; split; [rewrite <- ?app_assoc; reflexivity|];
                 cbn; intros j t Hin; intuition congruence|]);
        first [left; reflexivity | right; exists target; split; [exact Htarget|reflexivity]].
    - destruct (renameOk host _ notified);
        eexists _, _; (split; [reflexivity|]);
        cbn [requests trace cards emit set_requests set_files];
        (split; [auto|]);
        (split; [eexists; split; [rewrite <- ?app_assoc; reflexivity|];
                 cbn; intros j t Hin; intuition congruence|]);
        left; reflexivity. }
  destruct Hfirst as (w1 & c & Hrun & Hreq & (es & Htrace & Hsent) & Hcards).
  rewrite Hrun. cbn [fst].
  assert (Htracked1 : existsb (isPendingFor folder) (requests w1) = true).
  { destruct Hreq as [-> | ->].
    - apply existsb_setRequest. exact Hpend.
    - rewrite existsb_update_same by reflexivity.
      apply existsb_setRequest. exact Hpend. }
  rewrite (scanFolder_tracked host w1 folder Htracked1). cbn [fst].
  split.
  { exists es. split; [exact Htrace|]. intros j t Hin. now rewrite (Hsent j t Hin). }
  split; [|repeat split].
  destruct Hcards as [Hc|(target & Htarget & Hc)].
  - exists []. split; [now rewrite app_nil_r|intros x []].
  - eexists. split; [exact Hc|]. intros x [<-|[]].
    destruct Hreq as [Hr|Hr].
    + exists request. rewrite Hr. split; [apply (get_setRequest request)|].
      repeat split. exact Htarget.
    + exists (setFilePath notified request). rewrite Hr.
      split.
      { change (id (setFilePath notified request)) with rid.
        rewrite ApprovalSpec.get_update by reflexivity.
        change rid with (id request).
        rewrite get_setRequest. reflexivity. }
      repeat split. exact Htarget.
Qed.

Import ScanSamples.

(** One scan over the sample folders: g0 gets a card with two buttons in
    its Discord chat, g1 a text in its WhatsApp chat, ghost only a warning;
    the two plans are renamed, and a click on the approve button of the
    card applies the plan of g0. *)
Example scan_sample :
  let w' := fst (scanForHostChanges scanHost scanState) in
  map (fun r => (id r, groupFolder r, chatJid r, filePath r, status r)) (requests w')
  = [("hc-1700000000000", "g0", "discord:42",
      "/srv/nanoclaw/groups/g0/PENDING_HOST_CHANGES.notified.md", pending);
     ("hc-1700000000001", "g1", "chat1",
      "/srv/nanoclaw/groups/g1/PENDING_HOST_CHANGES.notified.md", pending)] /\
  map (fun c => (card_target c, approveId c, denyId c)) (cards w')
  = [("42", "hc_approve_hc-1700000000000", "hc_deny_hc-1700000000000")] /\
  List.filter isSent (trace w')
  = [Sent "chat1" (plainText "g1" "Add a channel")] /\
  scanForHostChanges scanHost w' 
  = (emit [LogWarn "Host changes file found but no registered group"] w',
     Router.Returned) /\
  map (fun r => (id r, status r, approvedBy r))
    (run_requests
       (handleDiscordButtonInteraction (fun _ => ApplyOk "done") true true
          (requests w') (mkInteraction "hc_approve_hc-1700000000000" "Ann" "card")))
  = [("hc-1700000000000", applied, Some "Ann");
     ("hc-1700000000001", pending, None)].
Proof.
  cbv zeta.
  repeat match goal with |- _ /\ _ => split end; vm_compute; reflexivity.
Qed.

Lemma one_pending_request_per_folder_witness :
  onePendingPerFolder (requests scanState) /\
  onePendingPerFolder (requests (fst (scanForHostChanges scanHost scanState))).
Proof.
  assert (H : onePendingPerFolder (requests scanState))
    by (intros f; cbn; lia).
  split; [exact H|].
  exact (proj1 (one_pending_request_per_folder scanHost (fun _ => ApplyOk "done")
                  scanState "hc-1" true "Ann" H)).
Defined.
End HostChangesFacts.

(** ** Decisions by explicit id *)

Module ExplicitIdFacts.
Import RegExp StarLoop Approval.

(** The part of the approval pattern after the keyword, on a space, the
    prefix hc- and digits up to the end. *)
Lemma run_explicit_id input i caps d ds :
  nth_error input i = Some " "%char ->
  skipn (S i) input = ("h" :: "c" :: "-" :: d :: ds)%char%list ->
  isDigit d = true -> forallb isDigit ds = true ->
  run true input
    (Seq (Opt (Seq (Plus (Class isWhiteSpace))
                   (Group 2 (Seq (lit "hc-") (Plus (Class isDigit))))))
       (Seq (Star (Class isWhiteSpace)) AssertEnd))
    i caps (fun j cs => Some (j, cs))
  = Some (length input, (2%nat, (S i, length input)) :: caps).
Proof.
  intros Hsp Hrest Hd Hds.
  assert (Hlen : length input = (S i + 4 + length ds)%nat).
  { rewrite <- (firstn_skipn (S i) input) at 1.
    rewrite length_app, Hrest, length_firstn. cbn [length].
    assert (i < length input)%nat by (apply nth_error_Some; congruence). lia. }
  unfold Opt, Plus.
  rewrite RegExpFacts.run_Seq, RegExpFacts.run_Alt.
  rewrite !RegExpFacts.run_Seq, RegExpFacts.run_Class, Hsp.
  change (isWhiteSpace " ") with true. cbv iota.
  rewrite RegExpFacts.run_Star.
  assert (Hh : nth_error input (S i) = Some "h"%char).
  { rewrite <- (Nat.add_0_r (S i)), RegExpFacts.nth_error_skipn, Hrest. reflexivity. }
  rewrite (RegExpFacts.starLoop_class_stop _ _ _ _ _ _ _ "h"%char Hh eq_refl).
  rewrite RegExpFacts.run_Group, RegExpFacts.run_Seq. unfold lit.
  rewrite TriggerSpec.run_literal, Hrest.
  cbn [list_ascii_of_string]. 
  change (Trigger.prefixIgnoringCase ["h"; "c"; "-"]%char
            ("h" :: "c" :: "-" :: d :: ds)%char%list) with true.
  cbv iota. cbn [length].
  rewrite RegExpFacts.run_Seq, RegExpFacts.run_Class.
  assert (Hdn : nth_error input (S i + 3) = Some d).
  { rewrite RegExpFacts.nth_error_skipn, Hrest. reflexivity. }
  rewrite Hdn, Hd. cbv iota.
  rewrite RegExpFacts.run_Star.
  rewrite (RegExpFacts.starLoop_class_all true input isDigit _
             (length input, (2%nat, (S i, length input)) :: caps));
    [reflexivity|lia| | |lia].
  - unfold allFrom.
    replace (S (S i + 3)) with (S i + 4)%nat by lia.
    rewrite RegExpFacts.skipn_skipn, Hrest. exact Hds.
  - rewrite RegExpFacts.run_Seq, RegExpFacts.run_Star.
    change (fun (j : nat) (cs' : captures) =>
              run true input AssertEnd j cs' (fun j0 cs0 => Some (j0, cs0)))
      with (fun (j : nat) (cs' : captures) =>
              if (j =? length input)%nat then Some (j, cs') else None).
    rewrite RegExpFacts.starLoop_class_end by lia.
    unfold allFrom. rewrite skipn_all. reflexivity.
Qed.

Lemma exec_explicit_id (approve : bool) (digits : string) :
  digits <> "" ->
  forallb isDigit (list_ascii_of_string digits) = true ->
  let kw := if approve then "approve" else "deny" in
  let text := (kw ++ " hc-" ++ digits)%string in
  exec true approvalRegExp text
  = Some [(2%nat, (S (String.length kw), String.length text));
          (1%nat, (0%nat, String.length kw))].
Proof.
  intros Hne Hds. cbv zeta.
  destruct digits as [|d ds]; [contradiction|].
  cbn [list_ascii_of_string forallb] in Hds.
  apply andb_true_iff in Hds. destruct Hds as [Hd Hds].
  unfold approvalRegExp. rewrite RegExpFacts.exec_anchored.
  unfold matchAt.
  rewrite RegExpFacts.run_Seq, RegExpFacts.run_AssertStart. cbn [Nat.eqb].
  rewrite RegExpFacts.run_Seq, RegExpFacts.run_Group, RegExpFacts.run_Alt. unfold lit at 1 2.
  rewrite !TriggerSpec.run_literal, drop_0.
  destruct approve.
  - set (input := list_ascii_of_string ("approve" ++ " hc-" ++ String d ds)).
    change (Trigger.prefixIgnoringCase (list_ascii_of_string "approve") input)
      with true.
    cbv iota. cbn [Nat.add length list_ascii_of_string String.length].
    rewrite (run_explicit_id input 7 _ d (list_ascii_of_string ds));
      [|reflexivity|reflexivity|exact Hd|exact Hds].
    cbn [option_map snd]. subst input.
    rewrite ChunkerSpec.length_list_ascii_of_string. reflexivity.
  - set (input := list_ascii_of_string ("deny" ++ " hc-" ++ String d ds)).
    change (Trigger.prefixIgnoringCase (list_ascii_of_string "approve") input)
      with false.
    cbv iota. unfold lit at 1. rewrite TriggerSpec.run_literal, drop_0.
    change (Trigger.prefixIgnoringCase (list_ascii_of_string "deny") input)
      with true.
    cbv iota. cbn [Nat.add length list_ascii_of_string String.length].
    rewrite (run_explicit_id input 4 _ d (list_ascii_of_string ds));
      [|reflexivity|reflexivity|exact Hd|exact Hds].
    cbn [option_map snd]. subst input.
    rewrite ChunkerSpec.length_list_ascii_of_string. reflexivity.
Qed.

(** X20. A keyword followed by one space and an id of the form that the
    scan generates (hc- and decimal digits) is always taken as a decision on
    that id, whatever chat the message is in and whatever requests are
    pending there: in any registered chat such a message is handled by
    handleApproval for that id, with the sender as the one who decided, and
    does not reach the agent. *)
Theorem explicit_id_resolves host w msg group (approve : bool) (digits : string) :
  digits <> "" ->
  forallb isDigit (list_ascii_of_string digits) = true ->
  Router.lookupGroup (Router.chat_jid msg) (Router.registeredGroups w)
  = Some group ->
  RegExp.trim (Router.content msg)
  = ((if approve then "approve" else "deny") ++ " hc-" ++ digits)%string ->
  let rid := ("hc-" ++ digits)%string in
  let run :=
    handleApproval (Router.applyPlan host) (Router.pendingRequests w) rid
      approve (Router.sender_name msg) in
  checkApprovalMessage (RegExp.trim (Router.content msg)) (Router.chat_jid msg)
    (Router.pendingRequests w)
  = mkCheck true rid approve /\
  Router.processMessage host w msg
  = (Router.emit (effects run) (Router.set_pendingRequests (final run) w),
     Router.Returned) /\
  Router.agentRuns (Router.trace (fst (Router.processMessage host w msg)))
  = Router.agentRuns (Router.trace w).
Proof.
  intros Hne Hds Hg Htext. cbv zeta.
  assert (Hcheck :
    checkApprovalMessage (RegExp.trim (Router.content msg)) (Router.chat_jid msg)
      (Router.pendingRequests w)
    = mkCheck true ("hc-" ++ digits) approve).
  { rewrite Htext. unfold checkApprovalMessage.
    pose proof (exec_explicit_id approve digits Hne Hds) as He.
    cbv zeta in He. rewrite He. clear He.
    unfold RegExp.group. cbn [find fst snd Nat.eqb].
    destruct approve.
    - change (String.length "approve") with 7%nat.
      replace (String.length ("approve" ++ " hc-" ++ digits) - 8)%nat
        with (String.length ("hc-" ++ digits))
        by (rewrite !StringFacts.length_app_string; cbn; lia).
      change ("approve" ++ " hc-" ++ digits)%string
        with ("approve " ++ ("hc-" ++ digits))%string at 2.
      change 8%nat with (String.length "approve " + 0)%nat.
      rewrite StringFacts.substring_app_offset, StringFacts.substring_all.
      change (7 - 0)%nat with (String.length "approve").
      rewrite StringFacts.substring_prefix.
      reflexivity.
    - change (String.length "deny") with 4%nat.
      replace (String.length ("deny" ++ " hc-" ++ digits) - 5)%nat
        with (String.length ("hc-" ++ digits))
        by (rewrite !StringFacts.length_app_string; cbn; lia).
      change ("deny" ++ " hc-" ++ digits)%string
        with ("deny " ++ ("hc-" ++ digits))%string at 2.
      change 5%nat with (String.length "deny " + 0)%nat.
      rewrite StringFacts.substring_app_offset, StringFacts.substring_all.
      change (4 - 0)%nat with (String.length "deny").
      rewrite StringFacts.substring_prefix.
      reflexivity. }
  split; [exact Hcheck|].
  assert (Ha : isApproval
                 (checkApprovalMessage (RegExp.trim (Router.content msg))
                    (Router.chat_jid msg) (Router.pendingRequests w)) = true)
    by (rewrite Hcheck; reflexivity).
  pose proof (RouterSpec.processMessage_approval host w msg group Hg Ha) as H.
  cbv zeta in H. rewrite Hcheck in H. exact H.
Qed.

Import Samples ScanSamples.

Lemma explicit_id_resolves_witness :
  checkApprovalMessage (RegExp.trim (Router.content denyById))
    (Router.chat_jid denyById) (Router.pendingRequests routerState)
  = mkCheck true "hc-12" false.
Proof.
  assert (Hne : "12" <> "") by discriminate.
  exact (proj1 (explicit_id_resolves routerHost routerState denyById group1
                  false "12" Hne eq_refl eq_refl eq_refl)).
Defined.
End ExplicitIdFacts.

(** ** Reading the mailbox *)

Module EmailParseFacts.
Import EmailParse.

Lemma truthy_not_empty (s : string) : truthy (Some s) = true <-> s <> "".
Proof.
  rewrite truthy_Some. split.
  - intros (x & [= <-] & H). exact H.
  - intros H. exists s. auto.
Qed.

Lemma summaryBlock_ids results block :
  Forall (fun s => s_id s <> "") results ->
  Forall (fun s => s_id s <> "") (summaryBlock results block).
Proof.
  intros H. unfold summaryBlock.
  destruct (negb (truthy (Some (RegExp.trim block)))); [exact H|].
  destruct (truthy (Some (s_id _))) eqn:E; [|exact H].
  apply Forall_app. split; [exact H|].
  constructor; [|constructor]. now apply truthy_not_empty.
Qed.

Lemma parseSearchResults_ids text :
  Forall (fun s => s_id s <> "") (parseSearchResults text).
Proof.
  unfold parseSearchResults.
  assert (H : forall blocks results,
            Forall (fun s => s_id s <> "") results ->
            Forall (fun s => s_id s <> "") (fold_left summaryBlock blocks results)).
  { induction blocks as [|b blocks IH]; intros results Hr; [exact Hr|].
    cbn [fold_left]. apply IH, summaryBlock_ids, Hr. }
  apply H. constructor.
Qed.

Lemma orElse_not_empty a b : b <> "" -> orElse a b <> "".
Proof.
  intros Hb. unfold orElse. destruct (truthy (Some a)) eqn:E; [|exact Hb].
  now apply truthy_not_empty.
Qed.

Lemma readAll host summaries : forall acc,
  Forall (fun s => s_id s <> "") summaries ->
  let out := fold_left (readOne host) summaries acc in
  (Forall (fun e => Email.id e <> "" /\ Email.threadId e <> "") (fst acc) ->
   Forall (fun e => Email.id e <> "" /\ Email.threadId e <> "") (fst out)) /\
  map Email.id (fst out)
  = (map Email.id (fst acc)
     ++ List.filter (fun i => bool_decide (is_Some (readEmail host i)))
          (map s_id summaries))%list.
Proof.
  induction summaries as [|s summaries IH]; intros acc Hids; cbv zeta.
  - cbn. rewrite app_nil_r. auto.
  - inversion Hids as [|? ? Hs Hrest]; subst.
    cbn [fold_left map List.filter].
    destruct (IH (readOne host acc s) Hrest) as [Hall Hmap]. cbv zeta in Hall, Hmap.
    unfold readOne in *. destruct (readEmail host (s_id s)) as [readText|] eqn:Hread.
    + rewrite bool_decide_eq_true_2 by eauto. cbn [fst snd] in *. split.
      * intros Hacc. apply Hall. apply Forall_app. split; [exact Hacc|].
        constructor; [|constructor]. cbn. split; [exact Hs|].
        apply orElse_not_empty. exact Hs.
      * rewrite Hmap, map_app. cbn [map Email.id]. now rewrite <- app_assoc.
    + rewrite bool_decide_eq_false_2 by (intros [x Hx]; discriminate).
      cbn [fst snd] in *. split; [exact Hall|exact Hmap].
Qed.

(** X21. Every message that a poll of the mailbox returns has an id and a
    thread id that are not empty; the messages are those of the search
    result whose read succeeded, in the order of the search result, and a
    message whose read fails is left out without ending the poll; a search
    that fails gives no message. *)
Theorem polled_emails_are_identified host :
  let emails := fst (checkForNewEmails host) in
  Forall (fun e => Email.id e <> "" /\ Email.threadId e <> "") emails /\
  (searchEmails host (query host) = None ->
   checkForNewEmails host = ([], [LogError "Gmail search failed"])) /\
  (forall text,
     searchEmails host (query host) = Some text ->
     map Email.id emails
     = List.filter (fun i => bool_decide (is_Some (readEmail host i)))
         (map s_id (parseSearchResults text))).
Proof.
  cbv zeta. unfold checkForNewEmails.
  destruct (searchEmails host (query host)) as [text|].
  2:{ split; [constructor|]. split; [reflexivity|discriminate]. }
  pose proof (parseSearchResults_ids text) as Hids.
  destruct (parseSearchResults text) as [|s rest] eqn:E.
  { split; [constructor|]. split; [discriminate|]. intros t [= <-].
    rewrite E. reflexivity. }
  destruct (readAll host (s :: rest) ([], [LogInfo "Gmail found new emails"]) Hids)
    as [Hall Hmap].
  cbv zeta in Hall, Hmap. split; [apply Hall; constructor|].
  split; [discriminate|]. intros t [= <-]. rewrite E. exact Hmap.
Qed.

Lemma indexOfBlank_cons a b s :
  indexOfBlank (String a (String b s))
  = if Ascii.eqb a newline && Ascii.eqb b newline then Some 0%nat
    else option_map S (indexOfBlank (String b s)).
Proof. reflexivity. Qed.

Lemma indexOfBlank_header (header rest : string) :
  indexOfBlank (header ++ String newline EmptyString) = None ->
  indexOfBlank (header ++ String newline (String newline rest))
  = Some (String.length header).
Proof.
  induction header as [|a h IH]; intros H.
  - reflexivity.
  - destruct h as [|b h'].
    + change (indexOfBlank (String a (String newline EmptyString)) = None) in H.
      change (indexOfBlank (String a (String newline (String newline rest)))
              = Some 1%nat).
      rewrite indexOfBlank_cons in H. rewrite !indexOfBlank_cons.
      rewrite Ascii.eqb_refl in *. rewrite andb_true_r in *.
      destruct (Ascii.eqb a newline); [discriminate|]. reflexivity.
    + change (indexOfBlank (String a (String b (h' ++ String newline EmptyString)))
              = None) in H.
      change (indexOfBlank
                (String a (String b (h' ++ String newline (String newline rest))))
              = Some (S (String.length (String b h')))).
      rewrite indexOfBlank_cons in H. rewrite indexOfBlank_cons.
      destruct (Ascii.eqb a newline && Ascii.eqb b newline); [discriminate|].
      change (String b (h' ++ String newline (String newline rest)))
        with (String b h' ++ String newline (String newline rest))%string.
      change (String b (h' ++ String newline EmptyString))
        with (String b h' ++ String newline EmptyString)%string in H.
      destruct (indexOfBlank (String b h' ++ String newline EmptyString)) eqn:E;
        [discriminate|].
      rewrite (IH eq_refl). reflexivity.
Qed.

Lemma indexOfBlank_shorter (header : string) :
  indexOfBlank (header ++ String newline EmptyString) = None ->
  indexOfBlank header = None.
Proof.
  induction header as [|a h IH]; intros H; [reflexivity|].
  destruct h as [|b h']; [reflexivity|].
  change (indexOfBlank (String a (String b (h' ++ String newline EmptyString)))
          = None) in H.
  rewrite indexOfBlank_cons in *.
  destruct (Ascii.eqb a newline && Ascii.eqb b newline); [discriminate|].
  change (String b (h' ++ String newline EmptyString))
    with (String b h' ++ String newline EmptyString)%string in H.
  destruct (indexOfBlank (String b h' ++ String newline EmptyString)) eqn:E;
    [discriminate|].
  rewrite (IH eq_refl). reflexivity.
Qed.

Lemma headerLine_same acc acc' line :
  sameHeaders acc acc' ->
  sameHeaders (headerLine acc line) (headerLine acc' line) /\
  r_body (headerLine acc line) = r_body acc.
Proof.
  intros (H1 & H2 & H3 & H4). unfold headerLine, sameHeaders.
  destruct (keyValue line) as [[key val]|]; [|auto].
  repeat match goal with
         | |- context [if ?b then _ else _] => destruct b
         end; cbn; auto.
Qed.

Lemma headers_same lines : forall acc acc',
  sameHeaders acc acc' ->
  sameHeaders (fold_left headerLine lines acc) (fold_left headerLine lines acc') /\
  r_body (fold_left headerLine lines acc) = r_body acc.
Proof.
  induction lines as [|l lines IH]; intros acc acc' H; [auto|].
  cbn [fold_left].
  destruct (headerLine_same acc acc' l H) as [Hs Hb].
  destruct (IH _ _ Hs) as [Hs' Hb']. split; [exact Hs'|congruence].
Qed.

(** X22. The body of a message is what follows its first blank line, taken
    as it is, and the header fields are read from the lines before that
    line only: nothing in the body can pass for a header. *)
Theorem body_starts_after_first_blank_line (header body : string) :
  indexOfBlank (header ++ String newline EmptyString) = None ->
  let text := (header ++ String newline (String newline body))%string in
  r_body (parseReadEmail text) = body /\
  sameHeaders (parseReadEmail text) (parseReadEmail header) /\
  r_body (parseReadEmail header) = "".
Proof.
  intros H. cbv zeta. unfold parseReadEmail.
  rewrite (indexOfBlank_header header body H), (indexOfBlank_shorter header H).
  unfold sliceTo, sliceFrom. rewrite StringFacts.substring_prefix.
  assert (Hbody : substring (String.length header + 2)
                    (String.length (header ++ String newline (String newline body))
                     - (String.length header + 2))
                    (header ++ String newline (String newline body)) = body).
  { rewrite StringFacts.substring_app_offset, StringFacts.length_app_string.
    cbn [String.length].
    replace (String.length header + S (S (String.length body))
             - (String.length header + 2))%nat
      with (String.length body) by lia.
    cbn [substring]. apply StringFacts.substring_all. }
  rewrite Hbody.
  destruct (headers_same (EmailParse.splitOn newline header)
              (mkRead "" "" "" "" body) (mkRead "" "" "" "" "")) as [Hs Hb].
  { repeat split. }
  destruct (headers_same (EmailParse.splitOn newline header)
              (mkRead "" "" "" "" "") (mkRead "" "" "" "" "")) as [_ Hb0].
  { repeat split. }
  split; [exact Hb|]. split; [exact Hs|exact Hb0].
Qed.

Example read_email_sample :
  parseReadEmail
    ("Thread ID: t-1" ++ Router.nl ++ "SUBJECT:  Re: plan " ++ Router.nl
     ++ "From: Ann <ann@example.org>" ++ Router.nl ++ "To: bot@example.org"
     ++ Router.nl ++ "Date: Tue, 3 Nov 2026" ++ Router.nl ++ Router.nl
     ++ "Hello" ++ Router.nl ++ Router.nl ++ "From: nobody")
  = mkRead "t-1" "Ann <ann@example.org>" "Re: plan" "Tue, 3 Nov 2026"
      ("Hello" ++ Router.nl ++ Router.nl ++ "From: nobody").
Proof. reflexivity. Qed.

Example search_results_sample :
  parseSearchResults
    ("ID: m1" ++ Router.nl ++ "Subject: One" ++ Router.nl ++ "From: a@x.org"
     ++ Router.nl ++ "Date: d1" ++ Router.nl ++ " " ++ Router.nl ++ Router.nl
     ++ "Subject: no id" ++ Router.nl ++ Router.nl
     ++ "id: m2" ++ Router.nl ++ "Subject: Two")
  = [mkSummary "m1" "One" "a@x.org" "d1"; mkSummary "m2" "Two" "" ""].
Proof. reflexivity. Qed.

Lemma body_starts_after_first_blank_line_witness :
  r_body (parseReadEmail
            ("Subject: Hi" ++ String newline (String newline "From: nobody")))
  = "From: nobody".
Proof.
  exact (proj1 (body_starts_after_first_blank_line "Subject: Hi" "From: nobody"
                  eq_refl)).
Defined.
End EmailParseFacts.

(** ** The folder of an e-mail conversation *)

Module EmailKeyFacts.
Import Email.

Lemma keepAddressChars_allowed s :
  Forall (fun c => isAddressChar c = true)
    (list_ascii_of_string (keepAddressChars s)).
Proof.
  unfold keepAddressChars. rewrite list_ascii_of_string_of_list_ascii.
  apply List.Forall_forall. intros c Hc. apply filter_In in Hc. apply Hc.
Qed.

Lemma processEmail_runs host w email input :
  In (AgentRun input) (trace (processEmail host w email)) ->
  In (AgentRun input) (trace w) \/
  in_groupFolder input = getContextKey (contextMode host) email.
Proof.
  unfold processEmail.
  destruct (Store.isEmailProcessed (id email) (processedEmails w)); [auto|].
  destruct (negb (folderReady host _)).
  { cbn [trace emit set_processedEmails]. intros H. apply in_app_or in H.
    destruct H as [H|[H|[]]]; [left; exact H|discriminate H]. }
  unfold runEmailAgent, sendEmailReply.
  destruct (runContainerAgent host _ _) as [output|];
    [destruct (truthy (Router.out_newSessionId output)),
       (Router.out_status output)|];
    cbn [truthy];
    try destruct (truthy (Router.out_result output));
    cbn [trace emit set_processedEmails set_sessions fst snd];
    intros H;
    repeat match goal with
           | H : In _ (_ ++ _) |- _ => apply in_app_or in H; destruct H as [H|H]
           | H : In _ (_ :: _) |- _ => destruct H as [H|H]
           | H : In _ [] |- _ => destruct H
           | H : (if ?b then _ else _) = _ |- _ => destruct b
           | H : _ = AgentRun _ |- _ =>
               first [discriminate H|injection H as <-; right; reflexivity]
           end;
    left; assumption.
Qed.

(** X23. With conversations kept by sender, the folder in which the agent
    runs for an e-mail is email-sender- followed by code units of the
    sender's address that are lower-case letters, digits, dots, at signs or
    hyphens, and by nothing else: whatever the From header holds, the
    folder name has no path separator, no space and no upper-case letter. *)
Theorem sender_folder_is_sanitised host w email input :
  contextMode host = sender ->
  In (AgentRun input) (trace (processEmail host w email)) ->
  ~ In (AgentRun input) (trace w) ->
  exists rest,
    in_groupFolder input = ("email-sender-" ++ rest)%string /\
    Forall (fun c => isAddressChar c = true) (list_ascii_of_string rest) /\
    ~ In "/"%char (list_ascii_of_string rest).
Proof.
  intros Hmode Hin Hnew.
  destruct (processEmail_runs host w email input Hin) as [H|H]; [contradiction|].
  rewrite Hmode in H. cbn [getContextKey] in H.
  eexists. split; [exact H|]. split; [apply keepAddressChars_allowed|].
  intros Hslash.
  pose proof (keepAddressChars_allowed
                (RegExp.toLowerCase (bareAddress (from email)))) as Hall.
  rewrite List.Forall_forall in Hall. specialize (Hall _ Hslash).
  discriminate.
Qed.

Import Samples ScanSamples.

Lemma sender_folder_is_sanitised_witness :
  exists rest,
    in_groupFolder senderInput = ("email-sender-" ++ rest)%string /\
    Forall (fun c => isAddressChar c = true) (list_ascii_of_string rest) /\
    ~ In "/"%char (list_ascii_of_string rest).
Proof.
  apply (sender_folder_is_sanitised senderHost emailState email1 senderInput).
  - reflexivity.
  - vm_compute. tauto.
  - intros [].
Defined.
End EmailKeyFacts.

(** ** The address inside a From header *)

Module EmailAddressFacts.
Import RegExp StarLoop Email RegExpFacts StringFacts.

Lemma searchFrom_hit ic input r i fuel res :
  matchAt ic input r i = Some res -> searchFrom ic input r i fuel = Some res.
Proof. intros H. destruct fuel; cbn [searchFrom]; rewrite H; reflexivity. Qed.

Lemma searchFrom_address (N A R : list ascii) a :
  forallb notOpening N = true ->
  forallb plainUnit (a :: A) = true ->
  let input := (N ++ "<"%char :: (a :: A) ++ ">"%char :: R)%list in
  searchFrom false input addressRegExp 0 (length input)
  = Some (S (S (S (length N + length A))),
          [(1, (S (length N), S (S (length N + length A))))])%nat.
Proof.
  intros HN HA input.
  assert (Hlen : length input = (length N + (3 + length A + length R))%nat).
  { unfold input. rewrite !length_app. cbn [length]. rewrite length_app.
    cbn [length]. lia. }
  assert (Hat : forall j x rest, skipn j input = x :: rest ->
                                 nth_error input j = Some x).
  { intros j x rest H. rewrite <- (Nat.add_0_r j), nth_error_skipn, H.
    reflexivity. }
  assert (H0 : skipn (length N) input = "<"%char :: (a :: A) ++ ">"%char :: R).
  { unfold input. now rewrite drop_app_length. }
  assert (H1 : skipn (S (length N)) input = (a :: A) ++ ">"%char :: R).
  { replace (S (length N)) with (length N + 1)%nat by lia.
    rewrite skipn_skipn, H0. reflexivity. }
  assert (H2 : skipn (S (S (length N))) input = (A ++ ">"%char :: R)%list).
  { replace (S (S (length N))) with (length N + 2)%nat by lia.
    rewrite skipn_skipn, H0. reflexivity. }
  cbn [forallb] in HA. apply andb_true_iff in HA. destruct HA as [Ha HA].
  unfold addressRegExp.
  rewrite (searchFrom_skip input "<" _ N).
  2:{ unfold input. now rewrite take_app_length. }
  2:{ lia. }
  2:{ exact HN. }
  2:{ lia. }
  2:{ lia. }
  apply searchFrom_hit. unfold matchAt.
  rewrite run_Seq, run_Char, (Hat _ _ _ H0). cbn [Ascii.eqb Bool.eqb].
  rewrite run_Seq, run_Group, run_Seq, run_Class, (Hat _ _ _ H1).
  assert (Hnl : isNotLineTerminator a = true).
  { unfold plainUnit in Ha. now apply andb_true_iff in Ha. }
  rewrite Hnl, run_LazyStar.
  apply (lazyLoop_class_scan input _ _ _ A).
  - lia.
  - rewrite H2. now rewrite take_app_length.
  - rewrite H2, length_app. lia.
  - apply forallb_forall. intros x Hx. rewrite forallb_forall in HA.
    specialize (HA x Hx). unfold plainUnit in HA.
    now apply andb_true_iff in HA.
  - intros j Hj. rewrite run_Char.
    replace j with (S (S (length N)) + (j - S (S (length N))))%nat by lia.
    rewrite nth_error_skipn, H2, nth_error_app1 by lia.
    destruct (nth_error A (j - S (S (length N)))) as [x|] eqn:Hx; [|reflexivity].
    apply nth_error_In in Hx. rewrite forallb_forall in HA.
    specialize (HA x Hx). unfold plainUnit in HA.
    apply andb_true_iff in HA. destruct HA as [_ HA].
    apply negb_true_iff in HA. now rewrite HA.
  - rewrite run_Char, nth_error_skipn, H2, nth_error_app2 by lia.
    rewrite Nat.sub_diag. cbn [nth_error Ascii.eqb Bool.eqb].
    do 3 f_equal; lia.
Qed.

Lemma bareAddress_display (name addr rest : string) :
  forallb notOpening (list_ascii_of_string name) = true ->
  addr <> ""%string ->
  forallb plainUnit (list_ascii_of_string addr) = true ->
  bareAddress (name ++ "<" ++ addr ++ ">" ++ rest) = addr.
Proof.
  intros HN Hne HA. unfold bareAddress, exec.
  destruct addr as [|a addr]; [contradiction|].
  set (to := (name ++ "<" ++ String a addr ++ ">" ++ rest)%string).
  assert (Hlist : list_ascii_of_string to
          = (list_ascii_of_string name ++ "<"%char ::
              (a :: list_ascii_of_string addr) ++ ">"%char ::
              list_ascii_of_string rest)%list).
  { unfold to. rewrite list_ascii_of_string_app.
    change ("<" ++ String a addr ++ ">" ++ rest)%string
      with (String "<" (String a (addr ++ String ">" rest))).
    cbn [list_ascii_of_string]. rewrite list_ascii_of_string_app.
    reflexivity. }
  rewrite Hlist.
  rewrite (searchFrom_address _ _ _ _ HN HA).
  cbn [option_map snd group find fst Nat.eqb default].
  rewrite !ChunkerSpec.length_list_ascii_of_string.
  replace (S (S (String.length name + String.length addr)) - S (String.length name))%nat
    with (String.length (String a addr)) by (cbn [String.length]; lia).
  unfold to.
  replace (name ++ "<" ++ String a addr ++ ">" ++ rest)%string
    with ((name ++ "<") ++ (String a addr ++ ">" ++ rest))%string
    by (rewrite append_assoc_string; reflexivity).
  replace (S (String.length name)) with (String.length (name ++ "<") + 0)%nat
    by (rewrite length_app_string; cbn [String.length]; lia).
  rewrite substring_app_offset. apply substring_prefix.
Qed.

(** X24. When the From header of a message reads name<addr>rest, where the
    name holds no opening angle bracket and addr is not empty and holds
    neither a closing angle bracket nor a line terminator, the display name
    and what follows the address play no part: the reply is sent to addr
    alone, and with conversations kept by sender the folder key is built
    from addr alone, so that one correspondent writing under several display
    names stays in one conversation. *)
Theorem display_name_is_ignored (host : Host) (name addr rest : string) :
  forallb notOpening (list_ascii_of_string name) = true ->
  addr <> ""%string ->
  forallb plainUnit (list_ascii_of_string addr) = true ->
  let header := (name ++ "<" ++ addr ++ ">" ++ rest)%string in
  (forall subj text thread inReplyTo w,
     exists subj' text' delivered entry,
       trace (sendEmailReply host header subj text thread inReplyTo w)
       = (trace w ++ [EmailSend inReplyTo addr subj' text' delivered; entry])%list) /\
  (forall email,
     from email = header ->
     getContextKey sender email
     = ("email-sender-" ++ keepAddressChars (toLowerCase addr))%string).
Proof.
  intros HN Hne HA header. split.
  - intros subj text thread inReplyTo w. unfold sendEmailReply.
    unfold header. rewrite (bareAddress_display name addr rest HN Hne HA).
    cbn [trace emit]. do 4 eexists. reflexivity.
  - intros email Hfrom. cbn [getContextKey]. rewrite Hfrom.
    unfold header. now rewrite (bareAddress_display name addr rest HN Hne HA).
Qed.

Import Samples ScanSamples.

Lemma display_name_is_ignored_witness :
  getContextKey sender
    (mkEmail "m1" "t1" "Ann Lee <Ann.Lee@Example.org> (work)" "Hi" "text" "today")
  = "email-sender-ann.lee@example.org"%string.
Proof.
  refine (proj2 (display_name_is_ignored senderHost "Ann Lee " "Ann.Lee@Example.org"
                   " (work)" _ _ _) _ _);
    [reflexivity|discriminate|reflexivity|reflexivity].
Defined.
End EmailAddressFacts.

(** ** Starting the loops *)

Module StartupFacts.
Import Startup.

Lemma starts_app what a b :
  starts what (a ++ b) = (starts what a + starts what b)%nat.
Proof. unfold starts. now rewrite List.filter_app, length_app. Qed.

Lemma opens_running n :
  let out := opens n (mkFlags true true true) in
  fst out = mkFlags true true true /\
  starts IpcWatcher (snd out) = 0%nat /\
  starts MessageLoop (snd out) = 0%nat /\
  starts SyncTimer (snd out) = 0%nat /\
  starts SchedulerLoop (snd out) = n.
Proof.
  induction n as [|n IH]; [repeat split|].
  cbv zeta in *. cbn [opens onConnectionOpen startIpcWatcher startMessageLoop
                      negb groupSyncTimerStarted ipcWatcherRunning
                      messageLoopRunning].
  destruct (opens n (mkFlags true true true)) as [f later].
  cbn [fst snd] in *. destruct IH as (-> & H1 & H2 & H3 & H4).
  rewrite !starts_app, H1, H2, H3, H4. repeat split.
Qed.

(** X25. However often the connection opens, the IPC watcher, the message
    loop and the group sync timer are started once, at the first opening,
    and every later opening skips them; the scheduler loop is asked to
    start at every opening. *)
Theorem loops_start_once n :
  let out := opens (S n) initial in
  fst out = mkFlags true true true /\
  starts IpcWatcher (snd out) = 1%nat /\
  starts MessageLoop (snd out) = 1%nat /\
  starts SyncTimer (snd out) = 1%nat /\
  starts SchedulerLoop (snd out) = S n.
Proof.
  cbv zeta. cbn [opens onConnectionOpen startIpcWatcher startMessageLoop initial
                 negb groupSyncTimerStarted ipcWatcherRunning messageLoopRunning].
  pose proof (opens_running n) as H. cbv zeta in H.
  destruct (opens n (mkFlags true true true)) as [f later].
  cbn [fst snd] in *. destruct H as (-> & H1 & H2 & H3 & H4).
  rewrite !starts_app, H1, H2, H3, H4. repeat split.
Qed.
End StartupFacts.
